(** * Ankibot: the ingestion pipeline, embedded and verified

    A shallow embedding of the core of Ankibot (the tokenized chunker
    and the deduplicator of utils.py, the model gateway, the fact
    extractor and the verifier of backend.py, the card rows of
    ui/preview.py and ui/export.py) with the properties its specification
    states about them.

    Conventions of the embedding:
    - a Python [str] is a [string]; characters are 8-bit codes and only
      the ASCII whitespace and ASCII letters are given a meaning by
      [isspace] and [lower];
    - a Python [int] is a [Z], a [float] is a binary64 [float]; list
      lengths are [nat];
    - a Python exception is a value of [exn], and a function that can
      raise returns a [result]; a function that also calls the model,
      sleeps or logs returns an [io], the list of its events with its
      result;
    - a Python [set] is a [gset]; a [dict] is the list of its items in
      insertion order;
    - the csv module is modelled: the reader is CPython's state machine
      for the default dialect, the writer quotes every field;
    - the other libraries (the tiktoken encoding, the model endpoint,
      the JSON decoder, the fuzzywuzzy scorers, the prompt templates) are
      section variables. *)

From stdpp Require Import base gmap sets list strings.
From Stdlib Require Import ZArith Lia Ascii String List Bool.
From Corelib Require Import PrimFloat SpecFloat FloatOps FloatAxioms.
Import ListNotations.

Set Warnings "-register-all,-inexact-float,-clear-no-such-hyp".

Open Scope string_scope.
Open Scope list_scope.
Open Scope Z_scope.

(* ================================================================== *)
(** * Part I: the embedding                                            *)
(* ================================================================== *)

(** ** Exceptions and results *)

(** The exceptions of the program, all of them subclasses of
    [Exception]. [MissingApiKey] and [GenAIFailure] are the two
    [RuntimeError]s of the gateway; the second one is
    [RuntimeError(f"GenAI error: {last_err}. prompt was: {prompt}")]. *)
Inductive exn : Type :=
| InternalServerError (msg : string)
| MissingApiKey
| GenAIFailure (last_err : option exn) (prompt : string)
| AttributeError
| TypeError
| IndexError
| CsvError (msg : string)
| OtherException (msg : string).

Inductive result (A : Type) : Type :=
| Ok (a : A)
| Raise (e : exn).
Arguments Ok {A} a.
Arguments Raise {A} e.

Definition bind {A B} (r : result A) (k : A -> result B) : result B :=
  match r with
  | Ok a => k a
  | Raise e => Raise e
  end.

Declare Scope result_scope.
Delimit Scope result_scope with result.
Notation "'do' x <- r ; k" := (bind r (fun x => k))
  (at level 10, x name, r at level 100, k at level 200) : result_scope.
Notation "'do' ' p <- r ; k" := (bind r (fun p => k))
  (at level 10, p pattern, r at level 100, k at level 200) : result_scope.

Definition is_ok {A} (r : result A) : bool :=
  match r with Ok _ => true | Raise _ => false end.

(** ** Python strings *)

Module PyStr.

Definition chr (n : nat) : ascii := ascii_of_nat n.

Definition LF : ascii := chr 10.
Definition CR : ascii := chr 13.

(** *** Characters

    A string holds the UTF-8 encoding of a Python [str]: one byte for an
    ASCII character, two to four bytes for another code point. What
    Python does character by character ([str.lower], [str.strip], the
    class of whitespace of a regular expression, the field size limit of
    the csv reader, the iteration over a string) is done here code point
    by code point. *)

(** A character: a code point, or a byte that is not part of the
    encoding of one (no Python [str] has any). *)
Inductive uchar : Type :=
| Cp (c : Z)
| Raw (b : ascii).

Definition byte (a : ascii) : Z := Z.of_nat (nat_of_ascii a).
Definition of_byte (z : Z) : ascii := ascii_of_nat (Z.to_nat z).

(** a continuation byte, [10xxxxxx] *)
Definition is_cont (a : ascii) : bool := (128 <=? byte a) && (byte a <=? 191).

(** The code point encoded at the head of the string, with the number
    of continuation bytes of its encoding. *)
Definition head_cp (s : string) : option (Z * nat) :=
  match s with
  | EmptyString => None
  | String a r =>
      if byte a <? 128 then Some (byte a, 0%nat)
      else
        match r with
        | EmptyString => None
        | String b r' =>
            if (194 <=? byte a) && (byte a <=? 223) && is_cont b
            then Some ((byte a - 192) * 64 + (byte b - 128), 1%nat)
            else
              match r' with
              | EmptyString => None
              | String c r'' =>
                  let c3 := (byte a - 224) * 4096 + (byte b - 128) * 64
                            + (byte c - 128) in
                  if (224 <=? byte a) && (byte a <=? 239) && is_cont b && is_cont c
                     && (2048 <=? c3) && negb ((55296 <=? c3) && (c3 <=? 57343))
                  then Some (c3, 2%nat)
                  else
                    match r'' with
                    | EmptyString => None
                    | String d _ =>
                        let c4 := (byte a - 240) * 262144 + (byte b - 128) * 4096
                                  + (byte c - 128) * 64 + (byte d - 128) in
                        if (240 <=? byte a) && (byte a <=? 244)
                           && is_cont b && is_cont c && is_cont d
                           && (65536 <=? c4) && (c4 <=? 1114111)
                        then Some (c4, 3%nat)
                        else None
                    end
              end
        end
  end.

(** The characters of a string; [skip] counts the continuation bytes
    of the character just read that are still to be passed. *)
Fixpoint decode_from (skip : nat) (s : string) : list uchar :=
  match s with
  | EmptyString => []
  | String a r =>
      match skip with
      | S k => decode_from k r
      | O =>
          match head_cp s with
          | Some (c, k) => Cp c :: decode_from k r
          | None => Raw a :: decode_from O r
          end
      end
  end.

Definition decode (s : string) : list uchar := decode_from O s.

(** The UTF-8 encoding of a code point. *)
Definition encode_cp (c : Z) : string :=
  if c <? 128 then String (of_byte c) EmptyString
  else if c <? 2048
  then String (of_byte (192 + c / 64))
         (String (of_byte (128 + c mod 64)) EmptyString)
  else if c <? 65536
  then String (of_byte (224 + c / 4096))
         (String (of_byte (128 + (c / 64) mod 64))
            (String (of_byte (128 + c mod 64)) EmptyString))
  else String (of_byte (240 + c / 262144))
         (String (of_byte (128 + (c / 4096) mod 64))
            (String (of_byte (128 + (c / 64) mod 64))
               (String (of_byte (128 + c mod 64)) EmptyString))).

Definition encode_char (u : uchar) : string :=
  match u with
  | Cp c => encode_cp c
  | Raw b => String b EmptyString
  end.

Fixpoint encode (l : list uchar) : string :=
  match l with
  | [] => EmptyString
  | u :: r => encode_char u +:+ encode r
  end.

(** What iterating over a string gives: its characters, each one as a
    string. *)
Definition characters (s : string) : list string := map encode_char (decode s).

(** *** Whitespace *)

(** The code points [str.isspace] holds true of: the ASCII whitespace
    with the four separators FS GS RS US, NEL, the no-break space, and the
    spaces and separators of the other blocks. *)
Definition whitespace : list Z :=
  [9; 10; 11; 12; 13; 28; 29; 30; 31; 32; 133; 160; 5760;
   8192; 8193; 8194; 8195; 8196; 8197; 8198; 8199; 8200; 8201; 8202;
   8232; 8233; 8239; 8287; 12288].

Definition space_codes : list (list ascii) :=
  map (fun c => list_ascii_of_string (encode_cp c)) whitespace.

(** [l] begins with [w] *)
Fixpoint starts (w l : list ascii) : bool :=
  match w, l with
  | [], _ => true
  | a :: w', b :: l' => Ascii.eqb a b && starts w' l'
  | _ :: _, [] => false
  end.

(** The length of the first of the [codes] that [l] begins with, 0 when
    it begins with none. *)
Definition code_len (codes : list (list ascii)) (l : list ascii) : nat :=
  match find (fun w => starts w l) codes with
  | Some w => length w
  | None => O
  end.

(** The bytes of the whitespace character at the head of the string, 0
    when it begins with none. *)
Definition space_len (s : string) : nat :=
  code_len space_codes (list_ascii_of_string s).

(** [l] without the [codes] it begins with, one after the other;
    [skip] counts the bytes of a code still to be dropped. *)
Fixpoint lstrip_from (codes : list (list ascii)) (skip : nat) (l : list ascii)
  : list ascii :=
  match l with
  | [] => []
  | _ :: r =>
      match skip with
      | S k => lstrip_from codes k r
      | O =>
          match code_len codes l with
          | O => l
          | S k => lstrip_from codes k r
          end
      end
  end.

(** [s.lstrip()] *)
Definition lstrip (s : string) : string :=
  string_of_list_ascii (lstrip_from space_codes O (list_ascii_of_string s)).

(** [s.rstrip()]: the same from the end, on the bytes in reverse
    order. *)
Definition rstrip (s : string) : string :=
  string_of_list_ascii
    (rev (lstrip_from (map (@rev ascii) space_codes) O
            (rev (list_ascii_of_string s)))).

(** [s.strip()] *)
Definition strip (s : string) : string := lstrip (rstrip s).

(** *** Lower case *)

(** The code points [_PyUnicode_ToLowerFull] changes, in runs: first,
    last, step and what is added (Unicode 14). *)
Definition lower_runs : list (Z * Z * Z * Z) :=
  [(65, 90, 1, 32); (192, 214, 1, 32); (216, 222, 1, 32); (256, 302, 2, 1);
   (306, 310, 2, 1); (313, 327, 2, 1); (330, 374, 2, 1); (376, 376, 1, -121);
   (377, 381, 2, 1); (385, 385, 1, 210); (386, 388, 2, 1);
   (390, 390, 1, 206); (391, 391, 1, 1); (393, 394, 1, 205);
   (395, 395, 1, 1); (398, 398, 1, 79); (399, 399, 1, 202);
   (400, 400, 1, 203); (401, 401, 1, 1); (403, 403, 1, 205);
   (404, 404, 1, 207); (406, 406, 1, 211); (407, 407, 1, 209);
   (408, 408, 1, 1); (412, 412, 1, 211); (413, 413, 1, 213);
   (415, 415, 1, 214); (416, 420, 2, 1); (422, 422, 1, 218);
   (423, 423, 1, 1); (425, 425, 1, 218); (428, 428, 1, 1);
   (430, 430, 1, 218); (431, 431, 1, 1); (433, 434, 1, 217);
   (435, 437, 2, 1); (439, 439, 1, 219); (440, 440, 1, 1); (444, 444, 1, 1);
   (452, 452, 1, 2); (453, 453, 1, 1); (455, 455, 1, 2); (456, 456, 1, 1);
   (458, 458, 1, 2); (459, 475, 2, 1); (478, 494, 2, 1); (497, 497, 1, 2);
   (498, 500, 2, 1); (502, 502, 1, -97); (503, 503, 1, -56);
   (504, 542, 2, 1); (544, 544, 1, -130); (546, 562, 2, 1);
   (570, 570, 1, 10795); (571, 571, 1, 1); (573, 573, 1, -163);
   (574, 574, 1, 10792); (577, 577, 1, 1); (579, 579, 1, -195);
   (580, 580, 1, 69); (581, 581, 1, 71); (582, 590, 2, 1); (880, 882, 2, 1);
   (886, 886, 1, 1); (895, 895, 1, 116); (902, 902, 1, 38);
   (904, 906, 1, 37); (908, 908, 1, 64); (910, 911, 1, 63);
   (913, 929, 1, 32); (931, 939, 1, 32); (975, 975, 1, 8); (984, 1006, 2, 1);
   (1012, 1012, 1, -60); (1015, 1015, 1, 1); (1017, 1017, 1, -7);
   (1018, 1018, 1, 1); (1021, 1023, 1, -130); (1024, 1039, 1, 80);
   (1040, 1071, 1, 32); (1120, 1152, 2, 1); (1162, 1214, 2, 1);
   (1216, 1216, 1, 15); (1217, 1229, 2, 1); (1232, 1326, 2, 1);
   (1329, 1366, 1, 48); (4256, 4293, 1, 7264); (4295, 4295, 1, 7264);
   (4301, 4301, 1, 7264); (5024, 5103, 1, 38864); (5104, 5109, 1, 8);
   (7312, 7354, 1, -3008); (7357, 7359, 1, -3008); (7680, 7828, 2, 1);
   (7838, 7838, 1, -7615); (7840, 7934, 2, 1); (7944, 7951, 1, -8);
   (7960, 7965, 1, -8); (7976, 7983, 1, -8); (7992, 7999, 1, -8);
   (8008, 8013, 1, -8); (8025, 8031, 2, -8); (8040, 8047, 1, -8);
   (8072, 8079, 1, -8); (8088, 8095, 1, -8); (8104, 8111, 1, -8);
   (8120, 8121, 1, -8); (8122, 8123, 1, -74); (8124, 8124, 1, -9);
   (8136, 8139, 1, -86); (8140, 8140, 1, -9); (8152, 8153, 1, -8);
   (8154, 8155, 1, -100); (8168, 8169, 1, -8); (8170, 8171, 1, -112);
   (8172, 8172, 1, -7); (8184, 8185, 1, -128); (8186, 8187, 1, -126);
   (8188, 8188, 1, -9); (8486, 8486, 1, -7517); (8490, 8490, 1, -8383);
   (8491, 8491, 1, -8262); (8498, 8498, 1, 28); (8544, 8559, 1, 16);
   (8579, 8579, 1, 1); (9398, 9423, 1, 26); (11264, 11311, 1, 48);
   (11360, 11360, 1, 1); (11362, 11362, 1, -10743); (11363, 11363, 1, -3814);
   (11364, 11364, 1, -10727); (11367, 11371, 2, 1);
   (11373, 11373, 1, -10780); (11374, 11374, 1, -10749);
   (11375, 11375, 1, -10783); (11376, 11376, 1, -10782);
   (11378, 11378, 1, 1); (11381, 11381, 1, 1); (11390, 11391, 1, -10815);
   (11392, 11490, 2, 1); (11499, 11501, 2, 1); (11506, 11506, 1, 1);
   (42560, 42604, 2, 1); (42624, 42650, 2, 1); (42786, 42798, 2, 1);
   (42802, 42862, 2, 1); (42873, 42875, 2, 1); (42877, 42877, 1, -35332);
   (42878, 42886, 2, 1); (42891, 42891, 1, 1); (42893, 42893, 1, -42280);
   (42896, 42898, 2, 1); (42902, 42920, 2, 1); (42922, 42922, 1, -42308);
   (42923, 42923, 1, -42319); (42924, 42924, 1, -42315);
   (42925, 42925, 1, -42305); (42926, 42926, 1, -42308);
   (42928, 42928, 1, -42258); (42929, 42929, 1, -42282);
   (42930, 42930, 1, -42261); (42931, 42931, 1, 928); (42932, 42946, 2, 1);
   (42948, 42948, 1, -48); (42949, 42949, 1, -42307);
   (42950, 42950, 1, -35384); (42951, 42953, 2, 1); (42960, 42960, 1, 1);
   (42966, 42968, 2, 1); (42997, 42997, 1, 1); (65313, 65338, 1, 32);
   (66560, 66599, 1, 40); (66736, 66771, 1, 40); (66928, 66938, 1, 39);
   (66940, 66954, 1, 39); (66956, 66962, 1, 39); (66964, 66965, 1, 39);
   (68736, 68786, 1, 64); (71840, 71871, 1, 32); (93760, 93791, 1, 32);
   (125184, 125217, 1, 34)].

(** The ranges of the cased code points, [_PyUnicode_IsCased]. *)
Definition cased_ranges : list (Z * Z) :=
  [(65, 90); (97, 122); (170, 170); (181, 181); (186, 186); (192, 214);
   (216, 246); (248, 442); (444, 447); (452, 659); (661, 696); (704, 705);
   (736, 740); (837, 837); (880, 883); (886, 887); (890, 893); (895, 895);
   (902, 902); (904, 906); (908, 908); (910, 929); (931, 1013); (1015, 1153);
   (1162, 1327); (1329, 1366); (1376, 1416); (4256, 4293); (4295, 4295);
   (4301, 4301); (4304, 4346); (4349, 4351); (5024, 5109); (5112, 5117);
   (7296, 7304); (7312, 7354); (7357, 7359); (7424, 7615); (7680, 7957);
   (7960, 7965); (7968, 8005); (8008, 8013); (8016, 8023); (8025, 8025);
   (8027, 8027); (8029, 8029); (8031, 8061); (8064, 8116); (8118, 8124);
   (8126, 8126); (8130, 8132); (8134, 8140); (8144, 8147); (8150, 8155);
   (8160, 8172); (8178, 8180); (8182, 8188); (8305, 8305); (8319, 8319);
   (8336, 8348); (8450, 8450); (8455, 8455); (8458, 8467); (8469, 8469);
   (8473, 8477); (8484, 8484); (8486, 8486); (8488, 8488); (8490, 8493);
   (8495, 8500); (8505, 8505); (8508, 8511); (8517, 8521); (8526, 8526);
   (8544, 8575); (8579, 8580); (9398, 9449); (11264, 11492); (11499, 11502);
   (11506, 11507); (11520, 11557); (11559, 11559); (11565, 11565);
   (42560, 42605); (42624, 42653); (42786, 42887); (42891, 42894);
   (42896, 42954); (42960, 42961); (42963, 42963); (42965, 42969);
   (42997, 42998); (43000, 43002); (43824, 43866); (43868, 43880);
   (43888, 43967); (64256, 64262); (64275, 64279); (65313, 65338);
   (65345, 65370); (66560, 66639); (66736, 66771); (66776, 66811);
   (66928, 66938); (66940, 66954); (66956, 66962); (66964, 66965);
   (66967, 66977); (66979, 66993); (66995, 67001); (67003, 67004);
   (67456, 67456); (67459, 67461); (67463, 67504); (67506, 67514);
   (68736, 68786); (68800, 68850); (71840, 71903); (93760, 93823);
   (119808, 119892); (119894, 119964); (119966, 119967); (119970, 119970);
   (119973, 119974); (119977, 119980); (119982, 119993); (119995, 119995);
   (119997, 120003); (120005, 120069); (120071, 120074); (120077, 120084);
   (120086, 120092); (120094, 120121); (120123, 120126); (120128, 120132);
   (120134, 120134); (120138, 120144); (120146, 120485); (120488, 120512);
   (120514, 120538); (120540, 120570); (120572, 120596); (120598, 120628);
   (120630, 120654); (120656, 120686); (120688, 120712); (120714, 120744);
   (120746, 120770); (120772, 120779); (122624, 122633); (122635, 122654);
   (125184, 125251); (127280, 127305); (127312, 127337); (127344, 127369)].

(** The ranges of the case-ignorable code points,
    [_PyUnicode_IsCaseIgnorable]. *)
Definition case_ignorable_ranges : list (Z * Z) :=
  [(39, 39); (46, 46); (58, 58); (94, 94); (96, 96); (168, 168); (173, 173);
   (175, 175); (180, 180); (183, 184); (688, 879); (884, 885); (890, 890);
   (900, 901); (903, 903); (1155, 1161); (1369, 1369); (1375, 1375);
   (1425, 1469); (1471, 1471); (1473, 1474); (1476, 1477); (1479, 1479);
   (1524, 1524); (1536, 1541); (1552, 1562); (1564, 1564); (1600, 1600);
   (1611, 1631); (1648, 1648); (1750, 1757); (1759, 1768); (1770, 1773);
   (1807, 1807); (1809, 1809); (1840, 1866); (1958, 1968); (2027, 2037);
   (2042, 2042); (2045, 2045); (2070, 2093); (2137, 2139); (2184, 2184);
   (2192, 2193); (2200, 2207); (2249, 2306); (2362, 2362); (2364, 2364);
   (2369, 2376); (2381, 2381); (2385, 2391); (2402, 2403); (2417, 2417);
   (2433, 2433); (2492, 2492); (2497, 2500); (2509, 2509); (2530, 2531);
   (2558, 2558); (2561, 2562); (2620, 2620); (2625, 2626); (2631, 2632);
   (2635, 2637); (2641, 2641); (2672, 2673); (2677, 2677); (2689, 2690);
   (2748, 2748); (2753, 2757); (2759, 2760); (2765, 2765); (2786, 2787);
   (2810, 2815); (2817, 2817); (2876, 2876); (2879, 2879); (2881, 2884);
   (2893, 2893); (2901, 2902); (2914, 2915); (2946, 2946); (3008, 3008);
   (3021, 3021); (3072, 3072); (3076, 3076); (3132, 3132); (3134, 3136);
   (3142, 3144); (3146, 3149); (3157, 3158); (3170, 3171); (3201, 3201);
   (3260, 3260); (3263, 3263); (3270, 3270); (3276, 3277); (3298, 3299);
   (3328, 3329); (3387, 3388); (3393, 3396); (3405, 3405); (3426, 3427);
   (3457, 3457); (3530, 3530); (3538, 3540); (3542, 3542); (3633, 3633);
   (3636, 3642); (3654, 3662); (3761, 3761); (3764, 3772); (3782, 3782);
   (3784, 3789); (3864, 3865); (3893, 3893); (3895, 3895); (3897, 3897);
   (3953, 3966); (3968, 3972); (3974, 3975); (3981, 3991); (3993, 4028);
   (4038, 4038); (4141, 4144); (4146, 4151); (4153, 4154); (4157, 4158);
   (4184, 4185); (4190, 4192); (4209, 4212); (4226, 4226); (4229, 4230);
   (4237, 4237); (4253, 4253); (4348, 4348); (4957, 4959); (5906, 5908);
   (5938, 5939); (5970, 5971); (6002, 6003); (6068, 6069); (6071, 6077);
   (6086, 6086); (6089, 6099); (6103, 6103); (6109, 6109); (6155, 6159);
   (6211, 6211); (6277, 6278); (6313, 6313); (6432, 6434); (6439, 6440);
   (6450, 6450); (6457, 6459); (6679, 6680); (6683, 6683); (6742, 6742);
   (6744, 6750); (6752, 6752); (6754, 6754); (6757, 6764); (6771, 6780);
   (6783, 6783); (6823, 6823); (6832, 6862); (6912, 6915); (6964, 6964);
   (6966, 6970); (6972, 6972); (6978, 6978); (7019, 7027); (7040, 7041);
   (7074, 7077); (7080, 7081); (7083, 7085); (7142, 7142); (7144, 7145);
   (7149, 7149); (7151, 7153); (7212, 7219); (7222, 7223); (7288, 7293);
   (7376, 7378); (7380, 7392); (7394, 7400); (7405, 7405); (7412, 7412);
   (7416, 7417); (7468, 7530); (7544, 7544); (7579, 7679); (8125, 8125);
   (8127, 8129); (8141, 8143); (8157, 8159); (8173, 8175); (8189, 8190);
   (8203, 8207); (8216, 8217); (8228, 8228); (8231, 8231); (8234, 8238);
   (8288, 8292); (8294, 8303); (8305, 8305); (8319, 8319); (8336, 8348);
   (8400, 8432); (11388, 11389); (11503, 11505); (11631, 11631);
   (11647, 11647); (11744, 11775); (11823, 11823); (12293, 12293);
   (12330, 12333); (12337, 12341); (12347, 12347); (12441, 12446);
   (12540, 12542); (40981, 40981); (42232, 42237); (42508, 42508);
   (42607, 42610); (42612, 42621); (42623, 42623); (42652, 42655);
   (42736, 42737); (42752, 42785); (42864, 42864); (42888, 42890);
   (42994, 42996); (43000, 43001); (43010, 43010); (43014, 43014);
   (43019, 43019); (43045, 43046); (43052, 43052); (43204, 43205);
   (43232, 43249); (43263, 43263); (43302, 43309); (43335, 43345);
   (43392, 43394); (43443, 43443); (43446, 43449); (43452, 43453);
   (43471, 43471); (43493, 43494); (43561, 43566); (43569, 43570);
   (43573, 43574); (43587, 43587); (43596, 43596); (43632, 43632);
   (43644, 43644); (43696, 43696); (43698, 43700); (43703, 43704);
   (43710, 43711); (43713, 43713); (43741, 43741); (43756, 43757);
   (43763, 43764); (43766, 43766); (43867, 43871); (43881, 43883);
   (44005, 44005); (44008, 44008); (44013, 44013); (64286, 64286);
   (64434, 64450); (65024, 65039); (65043, 65043); (65056, 65071);
   (65106, 65106); (65109, 65109); (65279, 65279); (65287, 65287);
   (65294, 65294); (65306, 65306); (65342, 65342); (65344, 65344);
   (65392, 65392); (65438, 65439); (65507, 65507); (65529, 65531);
   (66045, 66045); (66272, 66272); (66422, 66426); (67456, 67461);
   (67463, 67504); (67506, 67514); (68097, 68099); (68101, 68102);
   (68108, 68111); (68152, 68154); (68159, 68159); (68325, 68326);
   (68900, 68903); (69291, 69292); (69446, 69456); (69506, 69509);
   (69633, 69633); (69688, 69702); (69744, 69744); (69747, 69748);
   (69759, 69761); (69811, 69814); (69817, 69818); (69821, 69821);
   (69826, 69826); (69837, 69837); (69888, 69890); (69927, 69931);
   (69933, 69940); (70003, 70003); (70016, 70017); (70070, 70078);
   (70089, 70092); (70095, 70095); (70191, 70193); (70196, 70196);
   (70198, 70199); (70206, 70206); (70367, 70367); (70371, 70378);
   (70400, 70401); (70459, 70460); (70464, 70464); (70502, 70508);
   (70512, 70516); (70712, 70719); (70722, 70724); (70726, 70726);
   (70750, 70750); (70835, 70840); (70842, 70842); (70847, 70848);
   (70850, 70851); (71090, 71093); (71100, 71101); (71103, 71104);
   (71132, 71133); (71219, 71226); (71229, 71229); (71231, 71232);
   (71339, 71339); (71341, 71341); (71344, 71349); (71351, 71351);
   (71453, 71455); (71458, 71461); (71463, 71467); (71727, 71735);
   (71737, 71738); (71995, 71996); (71998, 71998); (72003, 72003);
   (72148, 72151); (72154, 72155); (72160, 72160); (72193, 72202);
   (72243, 72248); (72251, 72254); (72263, 72263); (72273, 72278);
   (72281, 72283); (72330, 72342); (72344, 72345); (72752, 72758);
   (72760, 72765); (72767, 72767); (72850, 72871); (72874, 72880);
   (72882, 72883); (72885, 72886); (73009, 73014); (73018, 73018);
   (73020, 73021); (73023, 73029); (73031, 73031); (73104, 73105);
   (73109, 73109); (73111, 73111); (73459, 73460); (78896, 78904);
   (92912, 92916); (92976, 92982); (92992, 92995); (94031, 94031);
   (94095, 94111); (94176, 94177); (94179, 94180); (110576, 110579);
   (110581, 110587); (110589, 110590); (113821, 113822); (113824, 113827);
   (118528, 118573); (118576, 118598); (119143, 119145); (119155, 119170);
   (119173, 119179); (119210, 119213); (119362, 119364); (121344, 121398);
   (121403, 121452); (121461, 121461); (121476, 121476); (121499, 121503);
   (121505, 121519); (122880, 122886); (122888, 122904); (122907, 122913);
   (122915, 122916); (122918, 122922); (123184, 123197); (123566, 123566);
   (123628, 123631); (125136, 125142); (125252, 125259); (127995, 127999);
   (917505, 917505); (917536, 917631); (917760, 917999)].

Definition in_ranges (ranges : list (Z * Z)) (c : Z) : bool :=
  existsb (fun r => (fst r <=? c) && (c <=? snd r)) ranges.

Definition in_run (c : Z) (run : Z * Z * Z * Z) : bool :=
  match run with
  | (first, last, step, _) =>
      (first <=? c) && (c <=? last) && ((c - first) mod step =? 0)
  end.

(** The lower case of a code point that has a single one. *)
Definition to_lower (c : Z) : Z :=
  match find (in_run c) lower_runs with
  | Some (_, _, _, delta) => c + delta
  | None => c
  end.

Definition is_cased (u : uchar) : bool :=
  match u with
  | Cp c => in_ranges cased_ranges c
  | Raw _ => false
  end.

Definition is_case_ignorable (u : uchar) : bool :=
  match u with
  | Cp c => in_ranges case_ignorable_ranges c
  | Raw _ => false
  end.

(** Whether the first character of [l] that is not case-ignorable is
    a cased one. *)
Fixpoint cased_next (l : list uchar) : bool :=
  match l with
  | [] => false
  | u :: r => if is_case_ignorable u then cased_next r else is_cased u
  end.

(** The lower case of the characters of [l]. [before] tells whether
    the last character passed that is not case-ignorable is a cased one:
    with [cased_next] it decides between the two lower cases of the
    capital sigma (931), the final one (962) after a cased character and
    before none. The capital I with a dot above (304) becomes two code
    points. *)
Fixpoint lower_from (before : bool) (l : list uchar) : list uchar :=
  match l with
  | [] => []
  | u :: r =>
      let before' := if is_case_ignorable u then before else is_cased u in
      match u with
      | Cp c =>
          if c =? 931
          then Cp (if before && negb (cased_next r) then 962 else 963)
                 :: lower_from before' r
          else if c =? 304 then Cp 105 :: Cp 775 :: lower_from before' r
          else Cp (to_lower c) :: lower_from before' r
      | Raw b => Raw b :: lower_from before' r
      end
  end.

(** [s.lower()] *)
Definition lower (s : string) : string := encode (lower_from false (decode s)).

(** [a-zA-Z0-9], the class of the fence pattern *)
Definition isalnum (c : ascii) : bool :=
  let n := nat_of_ascii c in
  ((48 <=? n) && (n <=? 57) || (65 <=? n) && (n <=? 90)
   || (97 <=? n) && (n <=? 122))%nat.

(** [bool(s)]: a string is truthy when it is not empty. *)
Definition nonempty (s : string) : bool :=
  match s with EmptyString => false | _ => true end.

(** [s.startswith(p)] *)
Definition startswith (s p : string) : bool := String.prefix p s.

Fixpoint rev_to (acc : string) (s : string) : string :=
  match s with
  | EmptyString => acc
  | String c r => rev_to (String c acc) r
  end.

(** the characters collected (last first) in [acc], in reading order *)
Definition unrev (acc : string) : string := rev_to EmptyString acc.

(** [s.split("\n\n")]: cut at every occurrence of two line feeds, from
    the left, occurrences not overlapping. *)
Fixpoint split_blank_aux (cur : string) (s : string) : list string :=
  match s with
  | EmptyString => [unrev cur]
  | String c r =>
      match r with
      | String d r' =>
          if Ascii.eqb c LF && Ascii.eqb d LF
          then unrev cur :: split_blank_aux EmptyString r'
          else split_blank_aux (String c cur) r
      | EmptyString => [unrev (String c cur)]
      end
  end.

Definition split_blank (s : string) : list string :=
  split_blank_aux EmptyString s.

(** [s.replace(old, new)] for a non-empty [old]: occurrences are found
    from the left and do not overlap; [skip] counts the characters of
    an occurrence still to be dropped. *)
Fixpoint replace_aux (old new : string) (skip : nat) (s : string) : string :=
  match s with
  | EmptyString => EmptyString
  | String c r =>
      match skip with
      | S k => replace_aux old new k r
      | O =>
          if String.prefix old s
          then new +:+ replace_aux old new (String.length old - 1) r
          else String c (replace_aux old new O r)
      end
  end.

Definition replace (s old new : string) : string :=
  replace_aux old new O s.

(** the string made of the characters whose codes are given *)
Fixpoint of_codes (l : list nat) : string :=
  match l with
  | [] => EmptyString
  | n :: r => String (chr n) (of_codes r)
  end.

Definition str_LF : string := String LF EmptyString.
Definition str_CRLF : string := String CR (String LF EmptyString).
Definition blank_line : string := String LF (String LF EmptyString).

End PyStr.

(** ** Python lists *)

Module PyList.

(** An index of a slice, as Python normalises it: a negative index
    counts from the end, and the result is clamped to [0, len]. *)
Definition clamp_index (len : nat) (i : Z) : nat :=
  let j := if i <? 0 then i + Z.of_nat len else i in
  Z.to_nat (Z.min (Z.max j 0) (Z.of_nat len)).

(** [l[a:b]] *)
Definition slice {A} (l : list A) (a b : Z) : list A :=
  let a' := clamp_index (length l) a in
  let b' := clamp_index (length l) b in
  firstn (b' - a') (skipn a' l).

(** [l[i]] for [0 <= i], raising [IndexError] out of range *)
Definition index {A} (l : list A) (i : nat) : result A :=
  match nth_error l i with
  | Some x => Ok x
  | None => Raise IndexError
  end.

End PyList.

(** ** Python values *)

(** The values a JSON document decodes to, and the values of a
    [Dict[str, Any]]. A [dict] is kept as its items in insertion order. *)
Inductive pyval : Type :=
| PNone
| PBool (b : bool)
| PInt (n : Z)
| PFloat (x : float)
| PStr (s : string)
| PList (l : list pyval)
| PDict (items : list (string * pyval)).

Abbreviation dict := (list (string * pyval)).

(** [d.get(k, default)] *)
Fixpoint dict_get (d : dict) (k : string) (default : pyval) : pyval :=
  match d with
  | [] => default
  | (k', v) :: r => if String.eqb k' k then v else dict_get r k default
  end.

(** [bool(v)] *)
Definition truthy (v : pyval) : bool :=
  match v with
  | PNone => false
  | PBool b => b
  | PInt n => negb (n =? 0)
  | PFloat x => negb (PrimFloat.eqb x 0%float)
  | PStr s => PyStr.nonempty s
  | PList l => match l with [] => false | _ => true end
  | PDict items => match items with [] => false | _ => true end
  end.

(** ** utils.py: the tokenized chunker *)

Module Utils.
Import PyStr PyList.

Section Chunker.
(** [enc.encode] and [enc.decode] of the tiktoken encoding. *)
Variable tok : string -> list Z.
Variable detok : list Z -> string.

Definition last_n (tokens : list Z) (n : Z) : list Z :=
  if (0 <? n) && (n <? Z.of_nat (length tokens))
  then slice tokens (- n) (Z.of_nat (length tokens))
  else tokens.

(** The [while] loop of [split_long_tokens]; [None] when the fuel
    runs out. *)
Fixpoint split_loop (fuel : nat) (tokens : list Z) (win stride i : Z)
  : option (list (list Z)) :=
  match fuel with
  | O => None
  | S fuel' =>
      if i <? Z.of_nat (length tokens) then
        let part := slice tokens i (i + win) in
        if Z.of_nat (length tokens) <=? i + win then Some [part]
        else option_map (cons part)
               (split_loop fuel' tokens win stride (i + stride))
      else Some []
  end.

Definition split_long_tokens (tokens : list Z) (win ovlp : Z)
  : option (list (list Z)) :=
  match tokens with
  | [] => Some []
  | _ => split_loop (S (length tokens)) tokens win (Z.max 1 (win - ovlp)) 0
  end.

Definition paragraphs (text : string) : list string :=
  map strip (filter (fun p => nonempty (strip p)) (split_blank text)).

(** The state of the main loop: the chunks emitted so far and the
    accumulation buffer. *)
Record acc := mk_acc { chunks : list string; buf : list Z }.

Definition flush (buf : list Z) : string := strip (detok buf).

(** One iteration of [for p in paragraphs]. *)
Definition chunk_step (max_tokens overlap : Z) (sep_toks : list Z)
    (st : acc) (p : string) : option acc :=
  let p_toks := tok p in
  if max_tokens <? Z.of_nat (length p_toks) then
    let chunks1 :=
      match buf st with
      | [] => chunks st
      | _ => chunks st ++ [flush (buf st)]
      end in
    match split_long_tokens p_toks max_tokens overlap with
    | Some windows => Some (mk_acc (chunks1 ++ map flush windows) [])
    | None => None
    end
  else
    let add_len := Z.of_nat (length p_toks) + Z.of_nat (length sep_toks) in
    let st1 :=
      match buf st with
      | [] => st
      | _ =>
          if max_tokens <? Z.of_nat (length (buf st)) + add_len
          then mk_acc (chunks st ++ [flush (buf st)]) (last_n (buf st) overlap)
          else st
      end in
    Some (mk_acc (chunks st1) (buf st1 ++ p_toks ++ sep_toks)).

Fixpoint chunk_loop (max_tokens overlap : Z) (sep_toks : list Z)
    (st : acc) (ps : list string) : option acc :=
  match ps with
  | [] => Some st
  | p :: ps' =>
      match chunk_step max_tokens overlap sep_toks st p with
      | Some st' => chunk_loop max_tokens overlap sep_toks st' ps'
      | None => None
      end
  end.

Definition clamp_overlap (max_tokens overlap : Z) : Z :=
  Z.max 0 (Z.min overlap (max_tokens / 2)).

(** The token buffers behind the chunks: the accumulator after the
    last paragraph. *)
Definition chunk_run (text : string) (max_tokens overlap : Z) : option acc :=
  chunk_loop max_tokens (clamp_overlap max_tokens overlap)
    (tok blank_line) (mk_acc [] []) (paragraphs text).

(** [chunk_text(text, max_tokens, overlap)]; [None] only if a loop
    ran out of fuel. *)
Definition chunk_text (text : string) (max_tokens overlap : Z)
  : option (list string) :=
  match chunk_run text max_tokens overlap with
  | Some st =>
      Some (match buf st with
            | [] => chunks st
            | _ => chunks st ++ [flush (buf st)]
            end)
  | None => None
  end.

(** The token count of a chunk under the chunker's tokenizer. *)
Definition token_count (chunk : string) : Z := Z.of_nat (length (tok chunk)).

End Chunker.

(** A tokenizer with one token per character (the token is the
    character's code): the simplest encoding with
    [decode (encode s) = s]. *)
Fixpoint char_tok (s : string) : list Z :=
  match s with
  | EmptyString => []
  | String c r => Z.of_nat (nat_of_ascii c) :: char_tok r
  end.

Fixpoint char_detok (l : list Z) : string :=
  match l with
  | [] => EmptyString
  | n :: r => String (ascii_of_nat (Z.to_nat n)) (char_detok r)
  end.

(** *** deduplicate_facts *)

(** A fact as the deduplicator receives it: a [Dict[str, Any]]. *)
Definition fact_key (f : dict) : result string :=
  match dict_get f "fact" (PStr "") with
  | PStr s => Ok (lower (strip s))
  | _ => Raise AttributeError
  end.

(** The [for f in facts] loop, with its two accumulators. *)
Fixpoint dedup_loop (seen : gset string) (uniq : list dict)
    (facts : list dict) : result (list dict) :=
  match facts with
  | [] => Ok uniq
  | f :: rest =>
      (do key <- fact_key f;
       if nonempty key && negb (bool_decide (key ∈ seen))
       then dedup_loop ({[ key ]} ∪ seen) (uniq ++ [f]) rest
       else dedup_loop seen uniq rest)%result
  end.

Definition deduplicate_facts (facts : list dict) : result (list dict) :=
  dedup_loop ∅ [] facts.

(** The vocabulary of the deduplicator's properties: the key of a
    fact whose text is a string, the facts that have such a text, and
    the facts with no text at all. *)
Definition key_of (f : dict) : string :=
  match fact_key f with Ok k => k | Raise _ => "" end.

Definition has_text (f : dict) : Prop :=
  match dict_get f "fact" (PStr "") with PStr _ => True | _ => False end.

Fixpoint dict_has (d : dict) (k : string) : bool :=
  match d with
  | [] => false
  | (k', _) :: r => String.eqb k' k || dict_has r k
  end.

Definition blank_fact (f : dict) : Prop :=
  dict_has f "fact" = false \/
  exists s, dict_get f "fact" PNone = PStr s /\ strip s = "".

End Utils.

(** ** The csv module: the reader and the writer of the excel dialect *)

(** [csv.reader] and [csv.writer] as CPython (3.11 and later) has them,
    for the default dialect: delimiter [,], quote character, doubled
    quotes, no escape character, not strict. The states an escape
    character leads to are left out. *)
Module Csv.
Import PyStr.

Definition DQUOTE : ascii := chr 34.
Definition COMMA : ascii := chr 44.

Inductive state : Type :=
| START_RECORD | START_FIELD | IN_FIELD | IN_QUOTED_FIELD
| QUOTE_IN_QUOTED_FIELD | EAT_CRNL.

(** What [parse_process_char] is given: a character of the line, or the
    end-of-line mark that follows the last one. *)
Inductive input : Type :=
| Ch (c : ascii)
| EOL.

Record parser := mk_parser
  { st : state; fields : list string; field : string }.

(** [csv.field_size_limit()] *)
Definition field_limit : N := 131072.

Definition set_st (p : parser) (s : state) : parser :=
  mk_parser s (fields p) (field p).

Definition parse_reset : parser := mk_parser START_RECORD [] "".

Definition parse_save_field (p : parser) : parser :=
  mk_parser (st p) (fields p ++ [field p]) "".

Definition parse_add_char (p : parser) (c : ascii) : result parser :=
  if (field_limit <=? N.of_nat (String.length (field p)))%N
  then Raise (CsvError "field larger than field limit (131072)")
  else Ok (mk_parser (st p) (fields p) (field p +:+ String c "")).

Definition is_newline (c : ascii) : bool := Ascii.eqb c LF || Ascii.eqb c CR.

(** The case [START_FIELD] of [parse_process_char]. *)
Definition start_field (p : parser) (c : input) : result parser :=
  match c with
  | EOL => Ok (set_st (parse_save_field p) START_RECORD)
  | Ch a =>
      if is_newline a then Ok (set_st (parse_save_field p) EAT_CRNL)
      else if Ascii.eqb a DQUOTE then Ok (set_st p IN_QUOTED_FIELD)
      else if Ascii.eqb a COMMA then Ok (parse_save_field p)
      else (do p' <- parse_add_char p a; Ok (set_st p' IN_FIELD))%result
  end.

Definition parse_process_char (p : parser) (c : input) : result parser :=
  match st p with
  | START_RECORD =>
      match c with
      | EOL => Ok p
      | Ch a =>
          if is_newline a then Ok (set_st p EAT_CRNL)
          else start_field (set_st p START_FIELD) c
      end
  | START_FIELD => start_field p c
  | IN_FIELD =>
      match c with
      | EOL => Ok (set_st (parse_save_field p) START_RECORD)
      | Ch a =>
          if is_newline a then Ok (set_st (parse_save_field p) EAT_CRNL)
          else if Ascii.eqb a COMMA then Ok (set_st (parse_save_field p) START_FIELD)
          else parse_add_char p a
      end
  | IN_QUOTED_FIELD =>
      match c with
      | EOL => Ok p
      | Ch a =>
          if Ascii.eqb a DQUOTE then Ok (set_st p QUOTE_IN_QUOTED_FIELD)
          else parse_add_char p a
      end
  | QUOTE_IN_QUOTED_FIELD =>
      match c with
      | EOL => Ok (set_st (parse_save_field p) START_RECORD)
      | Ch a =>
          if Ascii.eqb a DQUOTE
          then (do p' <- parse_add_char p a; Ok (set_st p' IN_QUOTED_FIELD))%result
          else if Ascii.eqb a COMMA then Ok (set_st (parse_save_field p) START_FIELD)
          else if is_newline a then Ok (set_st (parse_save_field p) EAT_CRNL)
          else (do p' <- parse_add_char p a; Ok (set_st p' IN_FIELD))%result
      end
  | EAT_CRNL =>
      match c with
      | EOL => Ok (set_st p START_RECORD)
      | Ch a =>
          if is_newline a then Ok p
          else Raise (CsvError "new-line character seen in unquoted field")
      end
  end.

(** The characters of one line, in order. *)
Fixpoint feed (p : parser) (line : string) : result parser :=
  match line with
  | EmptyString => Ok p
  | String c r => (do p' <- parse_process_char p (Ch c); feed p' r)%result
  end.

Definition feed_line (p : parser) (line : string) : result parser :=
  (do p' <- feed p line; parse_process_char p' EOL)%result.

(** What iterating over [io.StringIO(text)] gives: the lines of the
    text, each with the line feed that ends it. *)
Fixpoint lines_aux (cur : string) (s : string) : list string :=
  match s with
  | EmptyString => match cur with EmptyString => [] | _ => [cur] end
  | String c r =>
      if Ascii.eqb c LF then (cur +:+ String c "") :: lines_aux "" r
      else lines_aux (cur +:+ String c "") r
  end.

Definition StringIO (text : string) : list string := lines_aux "" text.

(** What an iterator over rows gives: rows, then the end or an
    exception. *)
Inductive rows : Type :=
| RowsEnd
| RowsError (e : exn)
| RowsCons (row : list string) (rest : rows).

Definition is_in_quoted_field (s : state) : bool :=
  match s with IN_QUOTED_FIELD => true | _ => false end.

Definition is_start_record (s : state) : bool :=
  match s with START_RECORD => true | _ => false end.

(** What [Reader_iternext] does when the lines are exhausted. *)
Definition end_of_input (p : parser) : rows :=
  if nonempty (field p) || is_in_quoted_field (st p)
  then RowsCons (fields (parse_save_field p)) RowsEnd
  else RowsEnd.

(** The rows of a reader whose parser is [p], the lines being the ones
    it has not read: [Reader_iternext] called again and again. *)
Fixpoint reader_from (p : parser) (lines : list string) : rows :=
  match lines with
  | [] => end_of_input p
  | l :: rest =>
      match feed_line p l with
      | Raise e => RowsError e
      | Ok p' =>
          if is_start_record (st p')
          then RowsCons (fields p') (reader_from parse_reset rest)
          else reader_from p' rest
      end
  end.

(** [csv.reader(io.StringIO(text))] *)
Definition reader (text : string) : rows :=
  reader_from parse_reset (StringIO text).

(** [next(it, None)]: the first row, or nothing, and the iterator
    after it. *)
Definition next (it : rows) : result (option (list string) * rows) :=
  match it with
  | RowsEnd => Ok (None, RowsEnd)
  | RowsError e => Raise e
  | RowsCons r rest => Ok (Some r, rest)
  end.

(** [list(it)] and [[row for row in it]] *)
Fixpoint to_list (it : rows) : result (list (list string)) :=
  match it with
  | RowsEnd => Ok []
  | RowsError e => Raise e
  | RowsCons r rest => (do l <- to_list rest; Ok (r :: l))%result
  end.

(** The writer with [quoting=csv.QUOTE_ALL]: every field between
    quotes, the quotes of the field doubled. *)
Fixpoint escape (f : string) : string :=
  match f with
  | EmptyString => EmptyString
  | String c r =>
      if Ascii.eqb c DQUOTE then String DQUOTE (String DQUOTE (escape r))
      else String c (escape r)
  end.

Definition quote_field (f : string) : string :=
  String DQUOTE (escape f +:+ String DQUOTE "").

Fixpoint join_fields (fs : list string) : string :=
  match fs with
  | [] => ""
  | [f] => quote_field f
  | f :: r => quote_field f +:+ String COMMA (join_fields r)
  end.

(** What [writer.writerow(fs)] writes. *)
Definition writerow (fs : list string) : string := join_fields fs +:+ str_CRLF.

End Csv.

(** ** ui/preview.py and ui/export.py: the editable card rows *)

Module UI.
Import PyStr Csv.

Definition header : list string :=
  ["Topic"; "Subtopic"; "Question"; "Answer"; "Source"; "Details"].

(** [(r + [""] * 6)[:6]] *)
Definition pad6 (r : list string) : list string :=
  firstn 6 (r ++ repeat "" 6).

(** [_parse_cards_to_rows]: the value it gives to [app.card_rows]. *)
Definition _parse_cards_to_rows (csv_text : string) : list (list string) :=
  let rows :=
    match to_list (reader csv_text) with
    | Ok [] => [header]
    | Ok rows => rows
    | Raise _ => [header]
    end in
  header :: map pad6 (tl rows).

Fixpoint concat_str (l : list string) : string :=
  match l with
  | [] => ""
  | x :: r => x +:+ concat_str r
  end.

(** [_rows_to_csv_text], [card_rows] being [app.card_rows]. *)
Definition _rows_to_csv_text (card_rows : list (list string)) : string :=
  match card_rows with
  | [] => ""
  | _ => writerow header +:+
         concat_str (map (fun r => writerow (pad6 r)) (tl card_rows))
  end.

End UI.

(** ** Effects: model calls, sleeps and log records *)

Inductive log_record : Type :=
| LogGenAIError (server_error : bool) (attempt : nat) (delay : Z) (e : exn)
| LogInvalidJson (raw cleaned : string)
| LogExtractionFailed (raw : string)
| LogInvalidFactEntry (f : pyval) (e : exn)
| LogCsvParseError (original : bool) (e : exn)
| LogRemoved (card : list string)
| LogAdded (card : list string)
| LogRewrote (exact : bool) (score : float) (changed : list string)
    (original verified : list string)
| LogSummary (removed added rewritten fuzzy unchanged : nat).

Inductive event : Type :=
| EvCall (prompt : string) (attempt : nat)
| EvSleep (delay : Z)
| EvLog (r : log_record).

(** A computation: the events it performs, in order, and how it ends. *)
Definition io (A : Type) : Type := (list event * result A)%type.

Definition ret {A} (a : A) : io A := ([], Ok a).
Definition raise {A} (e : exn) : io A := ([], Raise e).
Definition emit (ev : event) : io unit := ([ev], Ok tt).
Definition lift {A} (r : result A) : io A := ([], r).

(** the computation [m] after the events [t] *)
Definition after {A} (t : list event) (m : io A) : io A := (t ++ fst m, snd m).

Definition iobind {A B} (m : io A) (k : A -> io B) : io B :=
  match snd m with
  | Ok a => after (fst m) (k a)
  | Raise e => (fst m, Raise e)
  end.

(** [try: m except Exception as e: h e] *)
Definition catch {A} (m : io A) (h : exn -> io A) : io A :=
  match snd m with
  | Ok a => m
  | Raise e => after (fst m) (h e)
  end.

Declare Scope io_scope.
Delimit Scope io_scope with io.
Notation "x <- m ;; k" := (iobind m (fun x => k))
  (at level 100, m at next level, right associativity) : io_scope.
Notation "m ;; k" := (iobind m (fun _ => k))
  (at level 100, right associativity) : io_scope.

Fixpoint calls (t : list event) : nat :=
  match t with
  | [] => 0
  | EvCall _ _ :: r => S (calls r)
  | _ :: r => calls r
  end.

Fixpoint sleeps (t : list event) : list Z :=
  match t with
  | [] => []
  | EvSleep d :: r => d :: sleeps r
  | _ :: r => sleeps r
  end.

Fixpoint logs (t : list event) : list log_record :=
  match t with
  | [] => []
  | EvLog l :: r => l :: logs r
  | _ :: r => logs r
  end.

(** ** backend.py: gateway and fact extractor *)

Module Backend.
Import PyStr PyList.

(** What [client.models.generate_content] gives back: a response
    object (falsy, or with a [text] that may be [None]), or an
    exception. *)
Record response := mk_response { text : option string }.

Inductive call_outcome : Type :=
| Returns (resp : option response)
| Fails (e : exn).

(** The model endpoint: the outcome of the call number [attempt]
    (counted from 0 within one [_gen]) for a prompt. *)
Definition model := string -> nat -> call_outcome.

(** *** The regular expressions of the gateway *)

Fixpoint drop_alnum (s : string) : string :=
  match s with
  | String c r => if isalnum c then drop_alnum r else s
  | EmptyString => EmptyString
  end.

(** [re.sub(r"^```[a-zA-Z0-9]*\n?", "", s)] *)
Definition sub_fence_open (s : string) : string :=
  match s with
  | String "`" (String "`" (String "`" r)) =>
      match drop_alnum r with
      | String c r' => if Ascii.eqb c LF then r' else String c r'
      | EmptyString => EmptyString
      end
  | _ => s
  end.

(** [re.sub(r"```$", "", s)]: [$] matches at the end of the string and
    before a line feed that ends the string. *)
Fixpoint sub_fence_close (s : string) : string :=
  match s with
  | EmptyString => EmptyString
  | String c r =>
      if String.eqb s "```" then EmptyString
      else if String.eqb s ("```" +:+ str_LF) then str_LF
      else String c (sub_fence_close r)
  end.

(** [\s*{] at the head of [s]: the number of bytes matched and what
    follows the brace; [skip] counts the bytes of a whitespace character
    still to be passed. *)
Fixpoint after_open_from (skip : nat) (s : string) : option (nat * string) :=
  match s with
  | EmptyString => None
  | String c r =>
      let passed :=
        fun k => match after_open_from k r with
                 | Some (n, body) => Some (S n, body)
                 | None => None
                 end in
      match skip with
      | S k => passed k
      | O =>
          if Ascii.eqb c "{" then Some (1%nat, r)
          else match space_len s with
               | S k => passed k
               | O => None
               end
      end
  end.

Definition after_open (s : string) : option (nat * string) := after_open_from O s.

(** [\s*\]] at the head of [s]: the number of bytes matched. *)
Fixpoint close_len_from (skip : nat) (s : string) : option nat :=
  match s with
  | EmptyString => None
  | String c r =>
      match skip with
      | S k => option_map S (close_len_from k r)
      | O =>
          if Ascii.eqb c "]" then Some 1%nat
          else match space_len s with
               | S k => option_map S (close_len_from k r)
               | O => None
               end
      end
  end.

Definition close_len (s : string) : option nat := close_len_from O s.

(** [.*}\s*\]] at the head of [s], [.] matching every character and
    [.*] being greedy: the match ends with the last [}\s*\]] of [s]; the
    number of bytes matched. *)
Fixpoint last_close (s : string) : option nat :=
  match s with
  | EmptyString => None
  | String c r =>
      match last_close r with
      | Some n => Some (S n)
      | None => if Ascii.eqb c "}" then option_map S (close_len r) else None
      end
  end.

Definition match_array_here (r : string) : option nat :=
  match after_open r with
  | Some (n, body) =>
      match last_close body with
      | Some m => Some (n + m)%nat
      | None => None
      end
  | None => None
  end.

(** [re.search(r"\[\s*{.*}\s*\]", s, re.DOTALL)], giving [m.group(0)] *)
Fixpoint search_array (s : string) : option string :=
  match s with
  | EmptyString => None
  | String c r =>
      match (if Ascii.eqb c "[" then match_array_here r else None) with
      | Some n => Some (substring 0 (S n) s)
      | None => search_array r
      end
  end.

Section Gateway.
(** [json.loads], [None] when it raises. *)
Variable json_loads : string -> option pyval.
(** [PROMPT_FACT_EXTRACTION.format(chunk=...)] *)
Variable PROMPT_FACT_EXTRACTION : string -> string.

(** utils.is_valid_json *)
Definition is_valid_json (text : string) : bool :=
  match json_loads text with Some _ => true | None => false end.

(** The text of an answer that is no answer: empty, an empty array,
    or an apology. *)
Definition unusable (t : string) : bool :=
  String.eqb (strip t) "" || String.eqb (strip t) "[]"
  || startswith (lower (strip t)) "i'm sorry"
  || startswith (lower (strip t)) "sorry,".

Definition no_answer_message (resp : option response) : string :=
  "No response from model. Response was " +:+
  match resp with
  | Some (mk_response (Some t)) => t
  | _ => "None"
  end +:+ ".".

(** The body of [_call] once a usable answer [t] has come back. *)
Definition clean_answer (type : string) (t : string) : io string :=
  if String.eqb type "fact_extraction" then
    if is_valid_json (strip t) then ret (strip t)
    else
      let cleaned := strip t in
      let cleaned :=
        if startswith cleaned "```"
        then strip (sub_fence_close (sub_fence_open cleaned))
        else cleaned in
      let cleaned :=
        if negb (is_valid_json cleaned)
        then match search_array cleaned with
             | Some m => m
             | None => cleaned
             end
        else cleaned in
      if negb (is_valid_json cleaned)
      then (emit (EvLog (LogInvalidJson t cleaned));;
            raise (InternalServerError "Invalid JSON output for facts."))%io
      else ret cleaned
  else ret (strip t).

(** [_call], run for the attempt number [attempt]. *)
Definition _call (generate_content : model) (prompt type : string)
    (attempt : nat) : io string :=
  (emit (EvCall prompt attempt);;
   match generate_content prompt attempt with
   | Fails e => raise e
   | Returns (Some (mk_response (Some t))) =>
       if unusable t
       then raise (InternalServerError (no_answer_message (Some (mk_response (Some t)))))
       else clean_answer type t
   | Returns resp => raise (InternalServerError (no_answer_message resp))
   end)%io.

Definition is_server_error (e : exn) : bool :=
  match e with InternalServerError _ => true | _ => false end.

(** The [for attempt in range(max_retries + 1)] loop, [n] turns
    being left. *)
Fixpoint gen_loop (generate_content : model) (prompt type : string)
    (n attempt : nat) (delay : Z) (last_err : option exn) : io string :=
  match n with
  | O => raise (GenAIFailure last_err prompt)
  | S n' =>
      catch (_call generate_content prompt type attempt)
        (fun e =>
           (emit (EvLog (LogGenAIError (is_server_error e) attempt delay e));;
            emit (EvSleep delay);;
            gen_loop generate_content prompt type n' (S attempt)
              (delay * 2) (Some e))%io)
  end.

Definition max_retries : nat := 7.

(** [FlashcardBackend._gen]; [client] is [self.client]. The delay,
    a float that starts at 1.0 and is doubled at most eight times,
    takes integer values only and is kept in [Z]. *)
Definition _gen (client : option model) (prompt type : string) : io string :=
  match client with
  | None => raise MissingApiKey
  | Some generate_content =>
      gen_loop generate_content prompt type (max_retries + 1) 0 1 None
  end.

(** *** The validity rules in the words of the specification *)

(** The outcome of the attempt number [k]. *)
Definition attempt_result (generate_content : model) (prompt type : string)
    (k : nat) : result string :=
  snd (_call generate_content prompt type k).

Definition attempt_fails (generate_content : model) (prompt type : string)
    (k : nat) : bool :=
  negb (is_ok (attempt_result generate_content prompt type k)).

(** it begins with an apology phrase *)
Definition spec_apology (t : string) : Prop :=
  startswith (lower (strip t)) "i'm sorry" = true \/
  startswith (lower (strip t)) "sorry," = true.

(** it is empty or None, its trimmed text is the empty string or the
    empty array, or it begins with an apology phrase *)
Definition spec_invalid_response (resp : option response) : Prop :=
  resp = None \/ resp = Some (mk_response None) \/
  exists t, resp = Some (mk_response (Some t)) /\
            (strip t = "" \/ strip t = "[]" \/ spec_apology t).

(** (2) strip leading/trailing code-fence markers *)
Definition spec_strip_fences (t : string) : string :=
  if startswith t "```" then strip (sub_fence_close (sub_fence_open t)) else t.

(** The texts the cleanup cascade tries: (1) as-is; (2) strip the
    code-fence markers; (3) regex-extract the first array-shaped
    substring. *)
Definition spec_candidates (t : string) : list string :=
  [strip t; spec_strip_fences (strip t)] ++
  match search_array (spec_strip_fences (strip t)) with
  | Some m => [m]
  | None => []
  end.

(** none of these yield valid JSON *)
Definition spec_not_json (t : string) : Prop :=
  forall c, In c (spec_candidates t) -> is_valid_json c = false.

(** The responses the specification has retried. *)
Definition spec_retry (type : string) (resp : option response) : Prop :=
  spec_invalid_response resp \/
  (type = "fact_extraction" /\
   exists t, resp = Some (mk_response (Some t)) /\ spec_not_json t).

(** *** extract_facts *)

Record Fact := mk_Fact
  { topic : string; subtopic : pyval; fact : string; source : pyval }.

Definition try_parse_json (txt : string) : pyval :=
  match json_loads txt with Some v => v | None => PNone end.

(** [f.get(k, "").strip()] *)
Definition get_stripped (f : pyval) (k : string) : result string :=
  match f with
  | PDict items =>
      match dict_get items k (PStr "") with
      | PStr s => Ok (strip s)
      | _ => Raise AttributeError
      end
  | _ => Raise AttributeError
  end.

(** [f.get(k)] *)
Definition get_any (f : pyval) (k : string) : result pyval :=
  match f with
  | PDict items => Ok (dict_get items k PNone)
  | _ => Raise AttributeError
  end.

Definition build_fact (f : pyval) : result Fact :=
  (do t <- get_stripped f "topic";
   do st <- get_any f "subtopic";
   do fa <- get_stripped f "fact";
   do so <- get_any f "source";
   Ok (mk_Fact t st fa so))%result.

Definition chars (s : string) : list pyval := map PStr (characters s).

(** What [for f in data] goes through. *)
Definition iterate (data : pyval) : result (list pyval) :=
  match data with
  | PList l => Ok l
  | PDict items => Ok (map (fun kv => PStr (fst kv)) items)
  | PStr s => Ok (chars s)
  | _ => Raise TypeError
  end.

Fixpoint facts_loop (elems : list pyval) (facts : list Fact) : io (list Fact) :=
  match elems with
  | [] => ret facts
  | f :: rest =>
      match build_fact f with
      | Ok x => facts_loop rest (facts ++ [x])
      | Raise e =>
          (emit (EvLog (LogInvalidFactEntry f e));; facts_loop rest facts)%io
      end
  end.

Definition fix_common_mistakes (text : string) : string :=
  replace (replace (replace (replace text "'" (of_codes [34%nat]))
                      str_LF " ") ", ]" "]") ",]" "]".

(** The three steps that turn the gateway's text into [data]. *)
Definition repair_cascade (text : string) : pyval :=
  let data := try_parse_json text in
  let data :=
    if negb (truthy data)
    then match search_array text with
         | Some m => try_parse_json m
         | None => data
         end
    else data in
  if negb (truthy data)
  then match search_array (fix_common_mistakes text) with
       | Some m => try_parse_json m
       | None => data
       end
  else data.

Definition extract_facts (client : option model) (chunk : string)
  : io (list Fact) :=
  (text <- _gen client (PROMPT_FACT_EXTRACTION chunk) "fact_extraction";;
   let data := repair_cascade text in
   if negb (truthy data)
   then (emit (EvLog (LogExtractionFailed text));; ret [])
   else (elems <- lift (iterate data);; facts_loop elems []))%io.

(** The facts built from the well-formed elements, and the log
    records of the others. *)
Definition well_formed (elems : list pyval) : list Fact :=
  flat_map (fun f => match build_fact f with Ok x => [x] | Raise _ => [] end) elems.

Definition skipped (elems : list pyval) : list log_record :=
  flat_map (fun f => match build_fact f with
                     | Ok _ => []
                     | Raise e => [LogInvalidFactEntry f e]
                     end) elems.

End Gateway.

End Backend.

(** ** backend.py: the verifier and its reconciliation log *)

Module Verifier.
Import PyStr PyList Csv Backend.

Abbreviation row := (list string).
Abbreviation key := (string * string * string)%type.

(** A pair of cards the verifier reports as rewritten: the original
    row, the verified row, the names of the changed fields, the score. *)
Abbreviation rewrite := (row * row * list string * float)%type.

Definition BACKSLASH : ascii := chr 92.

(** *** normalize_text *)

(** [.*?\\\)] at the head of [s]: the number of characters up to the end
    of the first closing mark, no line feed being passed. *)
Fixpoint close_at (s : string) : option nat :=
  match s with
  | EmptyString => None
  | String c r =>
      match r with
      | EmptyString => None
      | String d _ =>
          if Ascii.eqb c BACKSLASH && Ascii.eqb d (chr 41) then Some 2%nat
          else if Ascii.eqb c LF then None
          else option_map S (close_at r)
      end
  end.

(** [re.sub(r'\\\(.*?\\\)', 'MATH', s)]; [skip] counts the characters of
    a match still to be dropped. *)
Fixpoint sub_latex (skip : nat) (s : string) : string :=
  match s with
  | EmptyString => EmptyString
  | String c r =>
      match skip with
      | S k => sub_latex k r
      | O =>
          match r with
          | String d r' =>
              if Ascii.eqb c BACKSLASH && Ascii.eqb d (chr 40)
              then match close_at r' with
                   | Some n => "MATH" +:+ sub_latex (S n) r
                   | None => String c (sub_latex O r)
                   end
              else String c (sub_latex O r)
          | EmptyString => String c EmptyString
          end
      end
  end.

Definition is_punct (c : ascii) : bool :=
  Ascii.eqb c "." || Ascii.eqb c "," || Ascii.eqb c "?" || Ascii.eqb c "!".

(** [re.sub(r'[.,?!]', '', s)] *)
Fixpoint strip_punct (s : string) : string :=
  match s with
  | EmptyString => EmptyString
  | String c r => if is_punct c then strip_punct r else String c (strip_punct r)
  end.

Definition normalize_text (text : string) : string :=
  strip_punct (sub_latex O (strip (lower text))).

(** *** Scores *)

Fixpoint float_of_pos (p : positive) : float :=
  match p with
  | xH => 1
  | xO q => 2 * float_of_pos q
  | xI q => 2 * float_of_pos q + 1
  end%float.

(** The float of a Python [int] (exact below 2^53). *)
Definition float_of_Z (z : Z) : float :=
  match z with
  | Z0 => 0
  | Zpos p => float_of_pos p
  | Zneg p => - float_of_pos p
  end%float.

(** [0.6 * question_sort + 0.2 * question_partial + 0.2 * topic_sort] *)
Definition overall_sim (question_sort question_partial topic_sort : Z) : float :=
  (0.6 * float_of_Z question_sort + 0.2 * float_of_Z question_partial
   + 0.2 * float_of_Z topic_sort)%float.

Definition similarity_threshold : float := 80%float.

(** *** The dictionaries of cards *)

Definition card_key (r : row) : option key :=
  match r with
  | a :: b :: c :: _ => Some (a, b, c)
  | _ => None
  end.

Fixpoint dict_lookup (d : list (key * row)) (k : key) : option row :=
  match d with
  | [] => None
  | (k', v) :: r => if decide (k' = k) then Some v else dict_lookup r k
  end.

(** [d[k] = v]: a new key goes last, a known key keeps its place. *)
Fixpoint dict_set (d : list (key * row)) (k : key) (v : row) : list (key * row) :=
  match d with
  | [] => [(k, v)]
  | (k', v') :: r =>
      if decide (k' = k) then (k, v) :: r else (k', v') :: dict_set r k v
  end.

(** [{card_key(row): row for row in cards if card_key(row)}] *)
Definition cards_dict (cards : list row) : list (key * row) :=
  fold_left (fun d r => match card_key r with
                        | Some k => dict_set d k r
                        | None => d
                        end) cards [].

(** The names of the fields of [names] in which two rows differ. *)
Fixpoint changed_fields (names : list (nat * string)) (o v : row)
  : result (list string) :=
  match names with
  | [] => Ok []
  | (i, name) :: rest =>
      (do oi <- index o i;
       do vi <- index v i;
       do l <- changed_fields rest o v;
       Ok (if decide (oi <> vi) then name :: l else l))%result
  end.

Definition answer_fields : list (nat * string) :=
  [(3, "Answer"); (4, "Source"); (5, "Details")]%nat.

Definition all_fields : list (nat * string) :=
  [(0, "Topic"); (1, "Subtopic"); (2, "Question");
   (3, "Answer"); (4, "Source"); (5, "Details")]%nat.

(** *** Exact matches *)

Record exact_state := mk_exact
  { rewritten_cards : list rewrite;
    unchanged_count : nat;
    matched_keys : gset key }.

(** [for key, verified_row in verified_dict.items()] *)
Fixpoint exact_loop (original_dict : list (key * row))
    (items : list (key * row)) (s : exact_state) : result exact_state :=
  match items with
  | [] => Ok s
  | (k, verified_row) :: rest =>
      match dict_lookup original_dict k with
      | Some original_row =>
          if decide (skipn 3 original_row <> skipn 3 verified_row) then
            (do changed <- changed_fields answer_fields original_row verified_row;
             exact_loop original_dict rest
               (mk_exact
                  (rewritten_cards s ++
                   [(original_row, verified_row, changed, 100%float)])
                  (unchanged_count s) ({[ k ]} ∪ matched_keys s)))%result
          else
            exact_loop original_dict rest
              (mk_exact (rewritten_cards s) (S (unchanged_count s))
                 ({[ k ]} ∪ matched_keys s))
      | None => exact_loop original_dict rest s
      end
  end.

Definition unpaired (d : list (key * row)) (matched : gset key) : list row :=
  map snd (filter (fun kv => negb (bool_decide (fst kv ∈ matched))) d).

(** *** Fuzzy matches *)

Section Fuzzy.
(** [fuzz.token_sort_ratio] and [fuzz.partial_ratio] of fuzzywuzzy. *)
Variable token_sort_ratio : string -> string -> Z.
Variable partial_ratio : string -> string -> Z.

Record best := mk_best
  { best_match : option (nat * row);
    best_score : float;
    best_changed_fields : list string }.

Definition no_match : best := mk_best None 0%float [].

(** The score of a pair of rows. *)
Definition pair_score (original_row verified_row : row) : result float :=
  (do o2 <- index original_row 2;
   do v2 <- index verified_row 2;
   do o0 <- index original_row 0;
   do v0 <- index verified_row 0;
   Ok (overall_sim
         (token_sort_ratio (normalize_text o2) (normalize_text v2))
         (partial_ratio (normalize_text o2) (normalize_text v2))
         (token_sort_ratio (normalize_text o0) (normalize_text v0))))%result.

(** The score of two card rows, in the words of the specification: 60%
    token-sort similarity of the normalized questions, 20% partial
    similarity of the normalized questions, 20% token-sort similarity of
    the normalized topics. *)
Definition score_of (o v : row) : float :=
  overall_sim
    (token_sort_ratio (normalize_text (nth 2 o "")) (normalize_text (nth 2 v "")))
    (partial_ratio (normalize_text (nth 2 o "")) (normalize_text (nth 2 v "")))
    (token_sort_ratio (normalize_text (nth 0 o "")) (normalize_text (nth 0 v ""))).

(** [for ver_idx, verified_row in enumerate(unpaired_verifieds)] *)
Fixpoint inner_loop (original_row : row) (used : gset nat)
    (items : list (nat * row)) (b : best) : result best :=
  match items with
  | [] => Ok b
  | (ver_idx, verified_row) :: rest =>
      if bool_decide (ver_idx ∈ used) then inner_loop original_row used rest b
      else
        (do sim <- pair_score original_row verified_row;
         do temp_changed_fields <- changed_fields all_fields original_row verified_row;
         if PrimFloat.ltb (best_score b) sim
         then inner_loop original_row used rest
                (mk_best (Some (ver_idx, verified_row)) sim temp_changed_fields)
         else inner_loop original_row used rest b)%result
  end.

Record fuzzy_state := mk_fuzzy
  { fuzzy_rewritten : list rewrite;
    removed_cards : list row;
    used_verified_indices : gset nat }.

Fixpoint enumerate_from {A} (i : nat) (l : list A) : list (nat * A) :=
  match l with
  | [] => []
  | x :: r => (i, x) :: enumerate_from (S i) r
  end.

Definition enumerate {A} (l : list A) : list (nat * A) := enumerate_from 0 l.

(** [for orig_idx, original_row in enumerate(unpaired_originals)] *)
Fixpoint outer_loop (unpaired_verifieds : list row) (originals : list row)
    (s : fuzzy_state) : result fuzzy_state :=
  match originals with
  | [] => Ok s
  | original_row :: rest =>
      (do b <- inner_loop original_row (used_verified_indices s)
                 (enumerate unpaired_verifieds) no_match;
       if PrimFloat.leb similarity_threshold (best_score b) then
         match best_match b with
         | Some (ver_idx, verified_row) =>
             outer_loop unpaired_verifieds rest
               (mk_fuzzy
                  (fuzzy_rewritten s ++
                   [(original_row, verified_row, best_changed_fields b, best_score b)])
                  (removed_cards s)
                  ({[ ver_idx ]} ∪ used_verified_indices s))
         | None => Raise TypeError
         end
       else
         outer_loop unpaired_verifieds rest
           (mk_fuzzy (fuzzy_rewritten s) (removed_cards s ++ [original_row])
              (used_verified_indices s)))%result
  end.

Definition never_claimed (unpaired_verifieds : list row) (used : gset nat) : list row :=
  map snd (filter (fun iv => negb (bool_decide (fst iv ∈ used)))
             (enumerate unpaired_verifieds)).

(** What the reconciliation computes before it logs. *)
Record report := mk_report
  { removed : list row;
    added : list row;
    rewritten : list rewrite;
    fuzzy : list rewrite;
    unchanged : nat }.

Definition reconcile (original_cards verified_cards : list row) : result report :=
  let original_dict := cards_dict original_cards in
  let verified_dict := cards_dict verified_cards in
  (do e <- exact_loop original_dict verified_dict (mk_exact [] 0 ∅);
   let unpaired_originals := unpaired original_dict (matched_keys e) in
   let unpaired_verifieds := unpaired verified_dict (matched_keys e) in
   do f <- outer_loop unpaired_verifieds unpaired_originals (mk_fuzzy [] [] ∅);
   Ok (mk_report (removed_cards f)
         (never_claimed unpaired_verifieds (used_verified_indices f))
         (rewritten_cards e) (fuzzy_rewritten f) (unchanged_count e)))%result.

(** *** Logging *)

(** [card[0]], ..., [card[5]], as a log line reads them. *)
Definition fields6 (card : row) : result (list string) :=
  (do f0 <- index card 0; do f1 <- index card 1; do f2 <- index card 2;
   do f3 <- index card 3; do f4 <- index card 4; do f5 <- index card 5;
   Ok [f0; f1; f2; f3; f4; f5])%result.

Fixpoint log_cards (mk : list string -> log_record) (cards : list row) : io unit :=
  match cards with
  | [] => ret tt
  | card :: rest =>
      (f <- lift (fields6 card);; emit (EvLog (mk f));; log_cards mk rest)%io
  end.

Fixpoint log_rewrites (l : list rewrite) : io unit :=
  match l with
  | [] => ret tt
  | (original, verified, changed, sim_score) :: rest =>
      (o <- lift (fields6 original);;
       v <- lift (fields6 verified);;
       emit (EvLog (LogRewrote (PrimFloat.eqb sim_score 100%float) sim_score
                      changed o v));;
       log_rewrites rest)%io
  end.

Definition log_report (r : report) : io unit :=
  (log_cards LogRemoved (removed r);;
   log_cards LogAdded (added r);;
   log_rewrites (rewritten r ++ fuzzy r);;
   emit (EvLog (LogSummary (length (removed r)) (length (added r))
                  (length (rewritten r) + length (fuzzy r))
                  (length (fuzzy r)) (unchanged r))))%io.

(** *** verify_csv *)

(** The rows after the header, read as [verify_csv] reads them. *)
Definition read_cards (text : string) : result (list row) :=
  (do '(headers, csv_reader) <- next (reader text);
   match headers with
   | Some (_ :: _) => to_list csv_reader
   | _ => Ok []
   end)%result.

Variable json_loads : string -> option pyval.
(** [PROMPT_CSV_VERIFICATION.format(full_text=..., csv_text=...)] *)
Variable PROMPT_CSV_VERIFICATION : string -> string -> string.

Definition verify_csv (client : option model) (full_text csv_text : string)
  : io string :=
  match read_cards csv_text with
  | Raise e => (emit (EvLog (LogCsvParseError true e));; ret csv_text)%io
  | Ok original_cards =>
      (verified_csv <- _gen json_loads client
                         (PROMPT_CSV_VERIFICATION full_text csv_text) "default";;
       match read_cards verified_csv with
       | Raise e => (emit (EvLog (LogCsvParseError false e));; ret csv_text)
       | Ok verified_cards =>
           (r <- lift (reconcile original_cards verified_cards);;
            log_report r;;
            ret verified_csv)
       end)%io
  end.

End Fuzzy.

(** *** The vocabulary of the reconciliation properties *)

(** The names of the fields of [names] whose values differ in the two
    rows, a missing field counting as empty. *)
Definition diff (names : list (nat * string)) (o v : row) : list string :=
  map snd (filter (fun n => negb (String.eqb (nth (fst n) o "") (nth (fst n) v "")))
             names).

(** The rows of the dictionary [a] whose key is not in [b]. *)
Definition only_in (a b : list (key * row)) : list row :=
  map snd (filter (fun kv => match dict_lookup b (fst kv) with
                             | Some _ => false
                             | None => true
                             end) a).

(** A deck of card rows: six fields in every row. *)
Definition six (cards : list row) : Prop :=
  Forall (fun r => length r = 6%nat) cards.

Definition original_of (r : rewrite) : row := fst (fst (fst r)).
Definition verified_of (r : rewrite) : row := snd (fst (fst r)).

(** The record of an exact match, in the words of the specification:
    same key in both decks; rewritten with score 100 and the list of the
    fields among Answer, Source, Details that differ when there is one,
    unchanged otherwise. *)
Definition exact_record (original_dict : list (key * row)) (kv : key * row)
  : list rewrite :=
  match dict_lookup original_dict (fst kv) with
  | Some o =>
      match diff answer_fields o (snd kv) with
      | [] => []
      | changed => [(o, snd kv, changed, 100%float)]
      end
  | None => []
  end.

Definition exact_unchanged (original_dict : list (key * row)) (kv : key * row)
  : bool :=
  match dict_lookup original_dict (fst kv) with
  | Some o =>
      match diff answer_fields o (snd kv) with
      | [] => true
      | _ => false
      end
  | None => false
  end.

End Verifier.

(** ** backend.py: the card generator *)

Module Generator.
Import PyStr Backend.

Section Generate.
Variable json_loads : string -> option pyval.
(** [PROMPT_CSV_GENERATION_BASE.format(density_note=..., reverse_note=...,
    facts_json=..., custom_add=...)] *)
Variable PROMPT_CSV_GENERATION_BASE : string -> string -> string -> string -> string.
(** [json.dumps([f.__dict__ for f in facts], ensure_ascii=False)] *)
Variable json_dumps : list Fact -> string.

(** [{1: ..., 2: ..., 3: ...}.get(density_level, ...)] *)
Definition density_note (density_level : Z) : string :=
  if density_level =? 1
  then "Low density: macro cards only, most important informations."
  else if density_level =? 2 then "Normal density: one card per atomic fact."
  else if density_level =? 3
  then "High density: split steps, parameters, exceptions."
  else "Normal density: one card per atomic fact.".

Definition reverse_note (reverse : bool) : string :=
  if reverse then "- For each card, ALSO create a reversed version if relevant."
  else "- Do not create reversed versions.".

(** [custom_add or ""], [custom_add] being a string or [None] *)
Definition or_empty (custom_add : option string) : string :=
  match custom_add with
  | Some s => s
  | None => ""
  end.

Definition generate_csv (client : option model) (facts : list Fact)
    (reverse : bool) (density_level : Z) (custom_add : option string) : io string :=
  let prompt :=
    PROMPT_CSV_GENERATION_BASE (density_note density_level) (reverse_note reverse)
      (json_dumps facts) (or_empty custom_add) in
  _gen json_loads client prompt "default".

End Generate.

End Generator.

(** ** Samples and the vocabulary of the proofs *)

Import PyStr PyList Utils Backend Csv UI Verifier Generator.

(** Two paragraphs of four characters each. *)
Definition two_paragraphs : string := "aaaa" +:+ blank_line +:+ "bbbb".

Definition fact_a : dict := [("topic", PStr "Physics"); ("fact", PStr " Water boils ")].
Definition fact_b : dict := [("topic", PStr "Cooking"); ("fact", PStr "water BOILS")].
Definition fact_blank : dict := [("topic", PStr "Physics"); ("fact", PStr "  ")].
Definition fact_absent : dict := [("topic", PStr "Physics")].

(** Sample model endpoints and a JSON decoder that knows three
    documents. *)
Definition flaky_model : model := fun _ attempt =>
  match attempt with
  | O => Fails (InternalServerError "503 overloaded")
  | S O => Fails (OtherException "connection reset")
  | _ => Returns (Some (mk_response (Some " hello ")))
  end.

Definition down_model : model := fun _ _ => Fails (OtherException "unreachable").

Definition fenced_array : string :=
  "```json" +:+ str_LF +:+ "[1]" +:+ str_LF +:+ "```".

Definition fenced_model : model := fun _ _ =>
  Returns (Some (mk_response (Some fenced_array))).

Definition two_entries : pyval :=
  PList [PDict [("topic", PStr " Chimie "); ("fact", PStr " L'eau bout ")];
         PDict [("topic", PNone); ("fact", PStr "x")]].

Definition toy_json (s : string) : option pyval :=
  if String.eqb s "[1]" then Some (PList [PInt 1])
  else if String.eqb s "[facts]" then Some two_entries
  else if String.eqb s "7" then Some (PInt 7)
  else None.

Definition facts_model : model := fun _ _ =>
  Returns (Some (mk_response (Some "[facts]"))).

Definition scalar_model : model := fun _ _ =>
  Returns (Some (mk_response (Some "7"))).

(** The reader, one character of the text at a time: [p] is the parser
    after the characters of the current line read so far, and [mid]
    tells whether there are any. *)
Fixpoint run (p : parser) (mid : bool) (s : string) : rows :=
  match s with
  | EmptyString =>
      if mid then
        match parse_process_char p EOL with
        | Raise e => RowsError e
        | Ok p' =>
            if is_start_record (st p') then RowsCons (fields p') RowsEnd
            else end_of_input p'
        end
      else end_of_input p
  | String c r =>
      match parse_process_char p (Ch c) with
      | Raise e => RowsError e
      | Ok p1 =>
          if Ascii.eqb c LF then
            match parse_process_char p1 EOL with
            | Raise e => RowsError e
            | Ok p2 =>
                if is_start_record (st p2)
                then RowsCons (fields p2) (run parse_reset false r)
                else run p2 false r
            end
          else run p1 true r
      end
  end.

(** A field the reader accepts: no longer than the field size limit. *)
Definition field_ok (f : string) : Prop :=
  (N.of_nat (String.length f) <= field_limit)%N.

Definition row_ok (r : list string) : Prop := r <> [] /\ Forall field_ok r.

Fixpoint rows_of (l : list (list string)) : rows :=
  match l with
  | [] => RowsEnd
  | r :: l' => RowsCons r (rows_of l')
  end.

(** The fields of the rows the reader gives are within the field size
    limit. *)
Definition parser_ok (p : parser) : Prop :=
  Forall field_ok (fields p) /\ field_ok (field p).

(** The quote character, as a string. *)
Definition Q : string := String DQUOTE "".

Definition he_said_hi : string := "He said " +:+ Q +:+ "hi" +:+ Q.

Definition quoted_card : list string :=
  ["Topic"; "Sub"; "What did he say?"; he_said_hi; "p. 3"; ""].

Definition dict_wf (cards : list row) (d : list (key * row)) : Prop :=
  NoDup (map fst d) /\
  forall k r, In (k, r) d -> In r cards /\ card_key r = Some k.

Definition rewrite_line (rec : rewrite) : event :=
  EvLog (LogRewrote (PrimFloat.eqb (snd rec) 100%float) (snd rec)
           (snd (fst rec)) (original_of rec) (verified_of rec)).

Definition deck (rows : list row) : string :=
  concat_str (map writerow (header :: rows)).

Definition answering (t : string) : model :=
  fun _ _ => Returns (Some (mk_response (Some t))).

Definition always (n : Z) : string -> string -> Z := fun _ _ => n.

Definition card_a1 : row := ["Math"; "Algebra"; "Q1"; "A1"; ""; ""].
Definition card_a2 : row := ["Math"; "Algebra"; "Q1"; "A2"; ""; ""].
Definition card_digits : row := ["T"; "S"; "What is 2+2?"; "4"; ""; ""].
Definition card_words : row := ["T"; "S"; "What is two plus two?"; "4"; ""; ""].

(** A deck the model answers with a row of four fields. *)
Definition short_row_answer : string :=
  "Topic,Subtopic,Question,Answer" +:+ str_LF +:+ "Math,Algebra,Q1,A2" +:+ str_LF.

(** The scores fuzzywuzzy gives are percentages. *)
Definition percentage (ratio : string -> string -> Z) : Prop :=
  forall a b, 0 <= ratio a b <= 100.

Definition percent : list Z := map Z.of_nat (seq 0 101).

(** A fuzzy record as the specification describes it: a pair of rows
    with its score, at least 80, and the fields that differ among the
    six. *)
Definition fuzzy_record (token_sort_ratio partial_ratio : string -> string -> Z)
    (uv : list row) (rec : rewrite) : Prop :=
  exists o v,
    rec = (o, v, diff all_fields o v, score_of token_sort_ratio partial_ratio o v) /\
    In v uv /\
    PrimFloat.leb similarity_threshold
      (score_of token_sort_ratio partial_ratio o v) = true.

(** The indices marked as used are the indices of the verified rows of
    the fuzzy records, and no verified row is claimed twice. *)
Definition claims (uv : list row) (s : fuzzy_state) : Prop :=
  NoDup (map verified_of (fuzzy_rewritten s)) /\
  forall i, i ∈ used_verified_indices s <->
            exists v, In (i, v) (enumerate uv) /\
                      In v (map verified_of (fuzzy_rewritten s)).

(** The place of a float in the order of the comparisons: the sign
    class, then the exponent, then the mantissa; none for a NaN. *)
Definition lex (f : spec_float) : option (Z * Z * Z) :=
  match f with
  | S754_nan => None
  | S754_infinity true => Some (-2, 0, 0)
  | S754_infinity false => Some (2, 0, 0)
  | S754_zero _ => Some (0, 0, 0)
  | S754_finite false m e => Some (1, e, Zpos m)
  | S754_finite true m e => Some (-1, - e, Zneg m)
  end.

Definition lexcmp (a b : Z * Z * Z) : comparison :=
  match a, b with
  | (c1, x1, y1), (c2, x2, y2) =>
      match c1 ?= c2 with
      | Eq => match x1 ?= x2 with Eq => y1 ?= y2 | r => r end
      | r => r
      end
  end.

Definition lt3 (a b : Z * Z * Z) : Prop :=
  match a, b with
  | (c1, x1, y1), (c2, x2, y2) =>
      c1 < c2 \/ (c1 = c2 /\ (x1 < x2 \/ (x1 = x2 /\ y1 < y2)))
  end.

Definition rank (x : float) : option (Z * Z * Z) := lex (Prim2SF x).

(** The score a record carries. *)
Definition score_in (r : rewrite) : float := snd r.

(** The tokens of the paragraphs [ps], a separator after each: what the
    buffer of the chunker holds when nothing has been flushed. *)
Definition held (tok : string -> list Z) (ps : list string) : list Z :=
  concat (map (fun p => tok p ++ tok blank_line) ps).

(** The most tokens a flushed buffer can hold when the overlap is
    positive: a paragraph, the separator and the carried tail. *)
Definition buffer_bound (tok : string -> list Z) (max_tokens overlap : Z) : Z :=
  max_tokens + clamp_overlap max_tokens overlap + Z.of_nat (length (tok blank_line)).

(** A row the dictionaries of the verifier keep: at least three
    fields. *)
Definition keyed (r : row) : bool :=
  match card_key r with Some _ => true | None => false end.

(** The last row of a deck that has the key [k]. *)
Definition last_with_key (cards : list row) (k : key) : option row :=
  find (fun r => bool_decide (card_key r = Some k)) (rev cards).

(** The items of the dictionary [a] whose key is in [b]. *)
Definition both (a b : list (key * row)) : list (key * row) :=
  filter (fun kv => match dict_lookup b (fst kv) with
                    | Some _ => true
                    | None => false
                    end) a.

(** A text the reader refuses: a carriage return inside an unquoted
    field. *)
Definition broken_csv : string := "a" +:+ String CR "b".


(* ================================================================== *)
(** * Part II: the properties                                          *)
(* ================================================================== *)



(** ** The chunker *)

Section ChunkerFacts.
Variable tok : string -> list Z.
Variable detok : list Z -> string.

(** The [while] loop of [split_long_tokens] ends: the index grows by
    at least one each turn, so [len - i + 1] turns are enough. *)
Lemma split_loop_total (fuel : nat) (tokens : list Z) (win stride i : Z) :
  1 <= stride ->
  Z.max 0 (Z.of_nat (length tokens) - i) < Z.of_nat fuel ->
  exists parts, split_loop fuel tokens win stride i = Some parts.
Proof.
  revert i. induction fuel as [|fuel IH]; intros i Hs Hf.
  - lia.
  - simpl. destruct (i <? Z.of_nat (length tokens)) eqn:Hi; [|by eexists].
    destruct (Z.of_nat (length tokens) <=? i + win); [by eexists|].
    destruct (IH (i + stride)) as [parts ->]; [lia|lia|].
    by eexists.
Qed.

Lemma split_long_tokens_total (tokens : list Z) (win ovlp : Z) :
  exists parts, split_long_tokens tokens win ovlp = Some parts.
Proof.
  unfold split_long_tokens. destruct tokens as [|t ts]; [by eexists|].
  apply split_loop_total; lia.
Qed.

Lemma chunk_step_total (max_tokens overlap : Z) (sep : list Z) st p :
  exists st', chunk_step tok detok max_tokens overlap sep st p = Some st'.
Proof.
  unfold chunk_step.
  destruct (max_tokens <? _); [|by eexists].
  destruct (split_long_tokens_total (tok p) max_tokens overlap) as [w ->].
  by eexists.
Qed.

Lemma chunk_loop_total (max_tokens overlap : Z) (sep : list Z) ps st :
  exists st', chunk_loop tok detok max_tokens overlap sep st ps = Some st'.
Proof.
  revert st. induction ps as [|p ps IH]; intros st; simpl; [by eexists|].
  destruct (chunk_step_total max_tokens overlap sep st p) as [st' ->].
  apply IH.
Qed.

(** [chunk_text] returns a list of chunks on every input. *)
Lemma chunk_text_total (text : string) (max_tokens overlap : Z) :
  exists cs, chunk_text tok detok text max_tokens overlap = Some cs.
Proof.
  unfold chunk_text, chunk_run.
  destruct (chunk_loop_total max_tokens (clamp_overlap max_tokens overlap)
              (tok blank_line) (paragraphs text) (mk_acc [] [])) as [st ->].
  by eexists.
Qed.

Lemma length_last_n (tokens : list Z) (n : Z) :
  0 < n < Z.of_nat (length tokens) ->
  Z.of_nat (length (last_n tokens n)) = n.
Proof.
  intros Hn. unfold last_n.
  replace (0 <? n) with true by lia.
  replace (n <? Z.of_nat (length tokens)) with true by lia.
  simpl. unfold slice, clamp_index.
  replace (- n <? 0) with true by lia.
  replace (Z.of_nat (length tokens) <? 0) with false by lia.
  rewrite length_firstn, length_skipn. lia.
Qed.

Lemma length_slice_le {A} (l : list A) (a b : Z) :
  0 <= a -> 0 <= b - a -> Z.of_nat (length (slice l a b)) <= b - a.
Proof.
  intros Ha Hb. unfold slice, clamp_index.
  replace (a <? 0) with false by lia. replace (b <? 0) with false by lia.
  rewrite length_firstn, length_skipn. lia.
Qed.

(** The windows cut from a long paragraph hold at most [win] tokens. *)
Lemma split_loop_bounded (fuel : nat) (tokens : list Z) (win stride : Z) :
  0 <= win ->
  forall i parts,
    0 <= i ->
    1 <= stride ->
    split_loop fuel tokens win stride i = Some parts ->
    Forall (fun part => Z.of_nat (length part) <= win) parts.
Proof.
  intros Hw. induction fuel as [|fuel IH]; intros i parts Hi Hs; [done|].
  simpl. destruct (i <? Z.of_nat (length tokens)); [|intros [= <-]; constructor].
  assert (Hpart : Z.of_nat (length (slice tokens i (i + win))) <= win).
  { pose proof (length_slice_le tokens i (i + win) Hi ltac:(lia)). lia. }
  destruct (Z.of_nat (length tokens) <=? i + win).
  - intros [= <-]. by repeat constructor.
  - destruct (split_loop fuel tokens win stride (i + stride)) as [rest|] eqn:E;
      [|done].
    intros [= <-]. constructor; [done|]. apply (IH (i + stride)); [lia|done|done].
Qed.

(** With an overlap of zero the buffer is not emptied by a flush. *)
Lemma last_n_zero (tokens : list Z) : last_n tokens 0 = tokens.
Proof. reflexivity. Qed.

(** What a flush leaves in the buffer, for any tokenizer: a paragraph
    [p] that fits [max_tokens] but not the room left in the buffer
    makes the buffer [last_n buf overlap ++ tok p ++ sep], whose length
    is never compared with [max_tokens]. *)
Lemma chunk_step_reseed (max_tokens overlap : Z) (sep : list Z) st p :
  buf st <> [] ->
  Z.of_nat (length (tok p)) <= max_tokens ->
  max_tokens <
    Z.of_nat (length (buf st)) + Z.of_nat (length (tok p)) + Z.of_nat (length sep) ->
  chunk_step tok detok max_tokens overlap sep st p =
    Some (mk_acc (chunks st ++ [flush detok (buf st)])
                 (last_n (buf st) overlap ++ tok p ++ sep)).
Proof.
  intros Hb Hp Hfull. unfold chunk_step.
  replace (max_tokens <? Z.of_nat (length (tok p))) with false by lia.
  destruct (buf st) as [|b bs] eqn:E; [done|].
  replace (max_tokens <? _) with true by lia.
  reflexivity.
Qed.

(** The reseeded buffer holds [overlap + |tok p| + |sep|] tokens: more
    than [max_tokens] as soon as [max_tokens - overlap < |tok p| + |sep|]. *)
Lemma chunk_step_reseed_length (max_tokens overlap : Z) (sep : list Z) st p st' :
  0 < overlap < Z.of_nat (length (buf st)) ->
  Z.of_nat (length (tok p)) <= max_tokens ->
  max_tokens <
    Z.of_nat (length (buf st)) + Z.of_nat (length (tok p)) + Z.of_nat (length sep) ->
  chunk_step tok detok max_tokens overlap sep st p = Some st' ->
  Z.of_nat (length (buf st')) =
    overlap + Z.of_nat (length (tok p)) + Z.of_nat (length sep).
Proof.
  intros Ho Hp Hfull Hstep.
  rewrite chunk_step_reseed in Hstep; [|destruct (buf st); simpl in *; [lia|done]|done|done].
  injection Hstep as <-. simpl.
  rewrite !length_app, !Nat2Z.inj_add, length_last_n; lia.
Qed.

End ChunkerFacts.

(** C1. Under the one-token-per-character tokenizer,
    [chunk_text(two_paragraphs, max_tokens=6, overlap=3)] returns the
    chunks ["aaaa"] and ["a\n\nbbbb"]; the second one, built from the
    buffer reseeded with the last 3 tokens of the flushed buffer, has 7
    tokens, more than [max_tokens]. With [overlap=0] the buffer is not
    emptied at all and the second chunk has 10 tokens. *)
Theorem C1_reseeded_chunk_exceeds_max_tokens :
  chunk_text char_tok char_detok two_paragraphs 6 3
    = Some ["aaaa"; "a" +:+ blank_line +:+ "bbbb"] /\
  token_count char_tok ("a" +:+ blank_line +:+ "bbbb") = 7 /\
  chunk_text char_tok char_detok two_paragraphs 6 0
    = Some ["aaaa"; "aaaa" +:+ blank_line +:+ "bbbb"] /\
  token_count char_tok ("aaaa" +:+ blank_line +:+ "bbbb") = 10 /\
  ~ (forall text max_tokens overlap cs chunk,
        chunk_text char_tok char_detok text max_tokens overlap = Some cs ->
        In chunk cs -> token_count char_tok chunk <= max_tokens).
Proof.
  repeat split; try reflexivity.
  intros H.
  specialize (H two_paragraphs 6 3 _ ("a" +:+ blank_line +:+ "bbbb") eq_refl).
  assert (Hin : In ("a" +:+ blank_line +:+ "bbbb")
                  ["aaaa"; "a" +:+ blank_line +:+ "bbbb"]) by (right; left; reflexivity).
  specialize (H Hin). vm_compute in H. apply H. reflexivity.
Qed.

(** ** The deduplicator *)

Section DedupFacts.

Lemma nonempty_true (s : string) : nonempty s = true <-> s <> "".
Proof. destruct s; simpl; split; intros; congruence. Qed.

Lemma encode_char_nonempty (u : uchar) : exists a r, encode_char u = String a r.
Proof.
  destruct u as [c|b]; [|by eexists _, _]. unfold encode_char, encode_cp.
  destruct (c <? 128); [by eexists _, _|].
  destruct (c <? 2048); [by eexists _, _|].
  destruct (c <? 65536); by eexists _, _.
Qed.

Lemma encode_cons_nonempty (u : uchar) (l : list uchar) : encode (u :: l) <> "".
Proof.
  cbn [encode]. destruct (encode_char_nonempty u) as (a & r & ->). discriminate.
Qed.

(** The lower case of a string is empty only for the empty string. *)
Lemma lower_empty (s : string) : lower s = "" <-> s = "".
Proof.
  split; [|by intros ->]. destruct s as [|a r]; [done|]. intros H. exfalso.
  revert H. unfold lower, decode. cbn [decode_from].
  destruct (head_cp (String a r)) as [[c k]|]; cbn [lower_from].
  - destruct (c =? 931); [apply encode_cons_nonempty|].
    destruct (c =? 304); apply encode_cons_nonempty.
  - apply encode_cons_nonempty.
Qed.

Lemma has_text_key (f : dict) : has_text f -> fact_key f = Ok (key_of f).
Proof.
  unfold has_text, key_of, fact_key.
  destruct (dict_get f "fact" (PStr "")); simpl; intros H; try done.
Qed.

Lemma dict_get_absent (d : dict) (k : string) (v : pyval) :
  dict_has d k = false -> dict_get d k v = v.
Proof.
  induction d as [|[k' w] d IH]; simpl; [done|].
  destruct (String.eqb k' k); simpl; [done|]. apply IH.
Qed.

Lemma dict_get_present (d : dict) (k : string) (v w : pyval) :
  dict_has d k = true -> dict_get d k v = dict_get d k w.
Proof.
  induction d as [|[k' u] d IH]; simpl; [done|].
  destruct (String.eqb k' k); simpl; [done|]. apply IH.
Qed.

(** A fact with no text has the empty key. *)
Lemma blank_fact_key (f : dict) : blank_fact f -> key_of f = "".
Proof.
  unfold blank_fact, key_of, fact_key. intros [Habs | (s & Hs & Hblank)].
  - by rewrite dict_get_absent.
  - destruct (dict_has f "fact") eqn:E.
    + rewrite (dict_get_present f "fact" _ PNone E), Hs, Hblank. reflexivity.
    + rewrite dict_get_absent in Hs; done.
Qed.

(** The invariant of the loop: what is appended to [uniq] is the list
    of the first occurrences, in [facts], of the non-empty keys that
    are not in [seen]. *)
Lemma dedup_loop_spec (facts : list dict) :
  Forall has_text facts ->
  forall (seen : gset string) (uniq : list dict),
  exists kept,
    dedup_loop seen uniq facts = Ok (uniq ++ kept) /\
    sublist kept facts /\
    NoDup (map key_of kept) /\
    (forall f, In f kept -> key_of f <> "" /\ key_of f ∉ seen) /\
    (forall f, In f kept ->
       exists pre post, facts = pre ++ f :: post /\
                        forall g, In g pre -> key_of g <> key_of f) /\
    (forall f, In f facts -> key_of f <> "" -> key_of f ∉ seen ->
       In (key_of f) (map key_of kept)).
Proof.
  induction 1 as [|f0 rest Hf0 Hrest IH]; intros seen uniq.
  - exists []. rewrite app_nil_r. simpl.
    repeat split; try constructor; try done.
  - simpl. rewrite (has_text_key f0 Hf0). simpl.
    destruct (nonempty (key_of f0) && negb (bool_decide (key_of f0 ∈ seen)))
      eqn:Hkeep.
    + apply andb_true_iff in Hkeep as [Hne Hnew].
      apply nonempty_true in Hne.
      apply negb_true_iff, bool_decide_eq_false in Hnew.
      destruct (IH ({[ key_of f0 ]} ∪ seen) (uniq ++ [f0]))
        as (kept & Heq & Hsub & Hnd & Hkeys & Hfirst & Hall).
      exists (f0 :: kept). rewrite Heq, <- app_assoc. simpl.
      split; [done|]. split; [by constructor|].
      split.
      { constructor; [|done]. intros Hin. apply in_map_iff in Hin as (g & Hg & Hin).
        destruct (Hkeys g Hin) as [_ Hns]. apply Hns. rewrite Hg. set_solver. }
      split.
      { intros f [<- | Hin]; [done|].
        destruct (Hkeys f Hin) as [? Hns]. split; [done|]. set_solver. }
      split.
      { intros f [<- | Hin].
        - exists [], rest. split; [done|]. intros g [].
        - destruct (Hfirst f Hin) as (pre & post & -> & Hpre).
          exists (f0 :: pre), post. split; [done|].
          intros g [<- | Hg]; [|by apply Hpre].
          destruct (Hkeys f Hin) as [_ Hns]. intros E. apply Hns.
          rewrite <- E. set_solver. }
      intros f [<- | Hin] Hnef Hnsf; [by left|].
      destruct (decide (key_of f = key_of f0)) as [E|E]; [left; done|].
      right. apply Hall; [done|done|]. set_solver.
    + assert (Hskip : key_of f0 = "" \/ key_of f0 ∈ seen).
      { apply andb_false_iff in Hkeep as [Hk|Hk].
        - left. destruct (key_of f0); [done|discriminate].
        - right. apply negb_false_iff, bool_decide_eq_true in Hk. done. }
      destruct (IH seen uniq) as (kept & Heq & Hsub & Hnd & Hkeys & Hfirst & Hall).
      exists kept. split; [done|]. split; [by constructor|].
      split; [done|]. split; [done|]. split.
      { intros f Hin. destruct (Hfirst f Hin) as (pre & post & -> & Hpre).
        exists (f0 :: pre), post. split; [done|].
        intros g [<- | Hg]; [|by apply Hpre].
        destruct (Hkeys f Hin) as [Hne Hns]. intros E. rewrite E in Hskip.
        destruct Hskip; done. }
      intros f [<- | Hin] Hnef Hnsf; [destruct Hskip; done|].
      by apply Hall.
Qed.

End DedupFacts.

(** C5. On every list of facts (dictionaries whose text is a string or
    is missing), [deduplicate_facts] returns a list that is no longer than
    its input, is a subsequence of the input (so first-occurrence order is
    kept), has no two facts with the same lower-cased trimmed text, and
    whose every element is the first fact of the input with that key, with
    its other fields; every non-empty key of the input is represented. *)
Theorem C5_deduplicate_facts (facts : list dict) :
  Forall has_text facts ->
  exists out,
    deduplicate_facts facts = Ok out /\
    (length out <= length facts)%nat /\
    NoDup (map key_of out) /\
    sublist out facts /\
    (forall f, In f out ->
       exists pre post, facts = pre ++ f :: post /\
                        forall g, In g pre -> key_of g <> key_of f) /\
    (forall f, In f facts -> key_of f <> "" -> In (key_of f) (map key_of out)).
Proof.
  intros Hty.
  destruct (dedup_loop_spec facts Hty ∅ [])
    as (kept & Heq & Hsub & Hnd & Hkeys & Hfirst & Hall).
  exists kept. split; [exact Heq|].
  split; [by apply sublist_length|].
  split; [done|]. split; [done|]. split; [done|].
  intros f Hin Hne. apply Hall; [done|done|set_solver].
Qed.

Lemma sample_facts_have_text :
  Forall has_text [fact_a; fact_blank; fact_b; fact_absent; fact_a].
Proof. repeat constructor. Qed.

Lemma C5_deduplicate_facts_witness :
  exists out,
    deduplicate_facts [fact_a; fact_blank; fact_b; fact_absent; fact_a] = Ok out /\
    (length out <= 5)%nat /\
    NoDup (map key_of out) /\
    sublist out [fact_a; fact_blank; fact_b; fact_absent; fact_a] /\
    (forall f, In f out ->
       exists pre post,
         [fact_a; fact_blank; fact_b; fact_absent; fact_a] = pre ++ f :: post /\
         forall g, In g pre -> key_of g <> key_of f) /\
    (forall f, In f [fact_a; fact_blank; fact_b; fact_absent; fact_a] ->
       key_of f <> "" -> In (key_of f) (map key_of out)).
Proof.
  apply (C5_deduplicate_facts [fact_a; fact_blank; fact_b; fact_absent; fact_a]).
  repeat constructor.
Defined.

(** C10. [deduplicate_facts] drops every fact whose text is missing or is
    empty once trimmed: the output holds only facts with a non-empty
    trimmed text. *)
Theorem C10_blank_facts_dropped (facts : list dict) :
  Forall has_text facts ->
  exists out,
    deduplicate_facts facts = Ok out /\
    (forall f, blank_fact f -> ~ In f out) /\
    (forall f, In f out ->
       exists s, dict_get f "fact" (PStr "") = PStr s /\ strip s <> "").
Proof.
  intros Hty.
  destruct (dedup_loop_spec facts Hty ∅ [])
    as (kept & Heq & Hsub & Hnd & Hkeys & Hfirst & Hall).
  exists kept. split; [exact Heq|]. split.
  - intros f Hblank Hin. destruct (Hkeys f Hin) as [Hne _].
    by apply Hne, blank_fact_key.
  - intros f Hin. destruct (Hkeys f Hin) as [Hne _].
    unfold key_of, fact_key in Hne.
    destruct (dict_get f "fact" (PStr "")) as [| | | |s| |]; try done.
    exists s. split; [done|]. intros E. apply Hne. by rewrite E.
Qed.

Lemma C10_blank_facts_dropped_witness :
  exists out,
    deduplicate_facts [fact_a; fact_blank; fact_b; fact_absent; fact_a] = Ok out /\
    (forall f, blank_fact f -> ~ In f out) /\
    (forall f, In f out ->
       exists s, dict_get f "fact" (PStr "") = PStr s /\ strip s <> "").
Proof.
  apply (C10_blank_facts_dropped [fact_a; fact_blank; fact_b; fact_absent; fact_a]).
  repeat constructor.
Defined.

Example dedup_sample :
  deduplicate_facts [fact_a; fact_blank; fact_b; fact_absent; fact_a] = Ok [fact_a].
Proof. vm_compute. reflexivity. Qed.

(** ** The gateway *)

Lemma calls_app (t u : list event) : calls (t ++ u) = (calls t + calls u)%nat.
Proof.
  induction t as [|[] t IH]; simpl; [done|by rewrite IH|done|done].
Qed.

Lemma sleeps_app (t u : list event) : sleeps (t ++ u) = sleeps t ++ sleeps u.
Proof.
  induction t as [|[] t IH]; simpl; [done|done|by rewrite IH|done].
Qed.

Lemma logs_app (t u : list event) : logs (t ++ u) = logs t ++ logs u.
Proof.
  induction t as [|[] t IH]; simpl; [done|done|done|by rewrite IH].
Qed.

Lemma iobind_ok {A B} (m : io A) (k : A -> io B) (a : A) :
  snd m = Ok a -> iobind m k = after (fst m) (k a).
Proof. unfold iobind. by intros ->. Qed.

Lemma iobind_raise {A B} (m : io A) (k : A -> io B) (e : exn) :
  snd m = Raise e -> iobind m k = (fst m, Raise e).
Proof. unfold iobind. by intros ->. Qed.

Section GatewayFacts.
Variable json_loads : string -> option pyval.
Variable generate_content : model.
Variables prompt type : string.

Let call := _call json_loads generate_content prompt type.
Let loop := gen_loop json_loads generate_content prompt type.

Lemma clean_answer_trace (t : string) :
  calls (fst (clean_answer json_loads type t)) = 0%nat /\
  sleeps (fst (clean_answer json_loads type t)) = [].
Proof.
  unfold clean_answer.
  repeat match goal with |- context [if ?b then _ else _] => destruct b end;
    done.
Qed.

(** One attempt is one call of the model and no sleep. *)
Lemma call_trace (k : nat) :
  calls (fst (call k)) = 1%nat /\ sleeps (fst (call k)) = [].
Proof.
  unfold call, _call, iobind; simpl.
  destruct (generate_content prompt k) as [[[[t|]]|]|e]; simpl; try done.
  destruct (unusable t); simpl; [done|].
  pose proof (clean_answer_trace t) as [H1 H2]. by rewrite H1, H2.
Qed.

Lemma loop_step_ok (n k : nat) (delay : Z) (last : option exn) (s : string) :
  snd (call k) = Ok s -> loop (S n) k delay last = call k.
Proof. intros H. unfold loop, call in *. simpl. unfold catch. by rewrite H. Qed.

(** A failed attempt is logged, slept on and followed by the next
    one, with twice the delay. *)
Lemma loop_step_raise (n k : nat) (delay : Z) (last : option exn) (e : exn) :
  snd (call k) = Raise e ->
  loop (S n) k delay last =
    after (fst (call k) ++
           [EvLog (LogGenAIError (is_server_error e) k delay e); EvSleep delay])
          (loop n (S k) (delay * 2) (Some e)).
Proof.
  intros H. unfold loop, call in *. simpl. unfold catch. rewrite H.
  unfold after, iobind; simpl. by rewrite <- app_assoc.
Qed.

Lemma doubling (delay : Z) (N : nat) :
  delay :: map (fun k => delay * 2 * 2 ^ Z.of_nat k) (seq 0 N)
  = map (fun k => delay * 2 ^ Z.of_nat k) (seq 0 (S N)).
Proof.
  simpl. f_equal; [lia|]. rewrite <- seq_shift, map_map.
  apply map_ext. intros k. rewrite Nat2Z.inj_succ, Z.pow_succ_r; lia.
Qed.

Lemma loop_success (N : nat) :
  forall (n k : nat) (delay : Z) (last : option exn) (s : string),
  (N < n)%nat ->
  (forall j, (j < N)%nat -> exists e, snd (call (k + j)) = Raise e) ->
  snd (call (k + N)) = Ok s ->
  snd (loop n k delay last) = Ok s /\
  calls (fst (loop n k delay last)) = S N /\
  sleeps (fst (loop n k delay last))
    = map (fun j => delay * 2 ^ Z.of_nat j) (seq 0 N).
Proof.
  induction N as [|N IH]; intros n k delay last s Hn Hfail Hok.
  - destruct n as [|n]; [lia|]. rewrite Nat.add_0_r in Hok.
    rewrite (loop_step_ok _ _ _ _ _ Hok).
    pose proof (call_trace k) as [H1 H2]. rewrite H1, H2. done.
  - destruct n as [|n]; [lia|].
    destruct (Hfail 0%nat) as [e He]; [lia|]. rewrite Nat.add_0_r in He.
    rewrite (loop_step_raise _ _ _ _ _ He).
    destruct (IH n (S k) (delay * 2) (Some e) s) as (Hr & Hc & Hs).
    + lia.
    + intros j Hj. destruct (Hfail (S j)) as [e' He']; [lia|].
      exists e'. by rewrite <- He', Nat.add_succ_r.
    + by rewrite <- Hok, Nat.add_succ_r.
    + unfold after; cbn [fst snd]. split; [done|].
      rewrite !calls_app, !sleeps_app, Hc, Hs.
      pose proof (call_trace k) as [H1 H2]. rewrite H1, H2. cbn [calls sleeps app Nat.add].
      split; [done|]. apply doubling.
Qed.

Lemma loop_exhausted (n : nat) :
  forall (k : nat) (delay : Z) (last : option exn) (errs : nat -> exn),
  (forall j, (j < n)%nat -> snd (call (k + j)) = Raise (errs j)) ->
  snd (loop n k delay last)
    = Raise (GenAIFailure (match n with
                           | O => last
                           | S m => Some (errs m)
                           end) prompt) /\
  calls (fst (loop n k delay last)) = n /\
  sleeps (fst (loop n k delay last))
    = map (fun j => delay * 2 ^ Z.of_nat j) (seq 0 n).
Proof.
  induction n as [|n IH]; intros k delay last errs Hfail; [done|].
  assert (He : snd (call k) = Raise (errs 0%nat)).
  { rewrite <- (Hfail 0%nat); [by rewrite Nat.add_0_r|lia]. }
  rewrite (loop_step_raise _ _ _ _ _ He).
  destruct (IH (S k) (delay * 2) (Some (errs 0%nat)) (fun j => errs (S j)))
    as (Hr & Hc & Hs).
  { intros j Hj. rewrite <- Hfail; [by rewrite Nat.add_succ_r|lia]. }
  unfold after; cbn [fst snd]. split.
  - rewrite Hr. by destruct n.
  - rewrite !calls_app, !sleeps_app, Hc, Hs.
    pose proof (call_trace k) as [H1 H2]. rewrite H1, H2. cbn [calls sleeps app Nat.add].
    split; [done|]. apply doubling.
Qed.

End GatewayFacts.

(** C2. A call that fails on its first [N < 8] attempts and succeeds on
    the next one is made [N + 1] times, its result is returned, and the
    gateway has slept 1, 2, ..., 2^(N-1) seconds before the re-attempts;
    a call that fails eight times is made eight times and ends in the
    terminal error that carries the last error and the prompt, the
    gateway having doubled the delay after every failure; an exception of
    the call is a failure of the attempt whatever its class. *)
Theorem C2_gateway_retry (json_loads : string -> option pyval)
    (generate_content : model) (prompt type : string) :
  (forall (N : nat) (s : string),
      (N < 8)%nat ->
      forallb (attempt_fails json_loads generate_content prompt type) (seq 0 N) = true ->
      attempt_result json_loads generate_content prompt type N = Ok s ->
      snd (_gen json_loads (Some generate_content) prompt type) = Ok s /\
      calls (fst (_gen json_loads (Some generate_content) prompt type)) = (N + 1)%nat /\
      sleeps (fst (_gen json_loads (Some generate_content) prompt type))
        = map (fun k => 2 ^ Z.of_nat k) (seq 0 N)) /\
  (forallb (attempt_fails json_loads generate_content prompt type) (seq 0 8) = true ->
   exists e,
     attempt_result json_loads generate_content prompt type 7 = Raise e /\
     snd (_gen json_loads (Some generate_content) prompt type)
       = Raise (GenAIFailure (Some e) prompt) /\
     calls (fst (_gen json_loads (Some generate_content) prompt type)) = 8%nat /\
     sleeps (fst (_gen json_loads (Some generate_content) prompt type))
       = [1; 2; 4; 8; 16; 32; 64; 128]) /\
  (forall (k : nat) (e : exn),
      generate_content prompt k = Fails e ->
      attempt_result json_loads generate_content prompt type k = Raise e).
Proof.
  assert (Hfails : forall N,
    forallb (attempt_fails json_loads generate_content prompt type) (seq 0 N) = true ->
    forall j, (j < N)%nat ->
      exists e, snd (_call json_loads generate_content prompt type (0 + j)) = Raise e).
  { intros N H j Hj. rewrite forallb_forall in H.
    specialize (H j). rewrite in_seq in H. specialize (H ltac:(lia)).
    unfold attempt_fails, attempt_result in H. change (0 + j)%nat with j.
    destruct (snd (_call json_loads generate_content prompt type j)) as [a|e];
      simpl in H; [discriminate|by exists e]. }
  split; [|split].
  - intros N s HN Hall Hok. unfold _gen, max_retries.
    destruct (loop_success json_loads generate_content prompt type N
                (7 + 1) 0 1 None s) as (Hr & Hc & Hs); [lia|by apply Hfails|done|].
    split; [done|]. split; [rewrite Hc; lia|].
    rewrite Hs. apply map_ext. intros k. lia.
  - intros Hall. unfold _gen, max_retries.
    pose (errs := fun j =>
      match snd (_call json_loads generate_content prompt type j) with
      | Raise e => e
      | Ok _ => IndexError
      end).
    destruct (loop_exhausted json_loads generate_content prompt type (7 + 1)
                0 1 None errs) as (Hr & Hc & Hs).
    { intros j Hj. destruct (Hfails _ Hall j Hj) as [e He].
      change (0 + j)%nat with j in *. unfold errs. by rewrite He. }
    exists (errs 7%nat). split.
    { destruct (Hfails _ Hall 7%nat) as [e He]; [lia|].
      change (0 + 7)%nat with 7%nat in He.
      unfold attempt_result, errs. by rewrite He. }
    split; [exact Hr|]. split; [exact Hc|]. rewrite Hs. reflexivity.
  - intros k e Hk. unfold attempt_result, _call, iobind. simpl. by rewrite Hk.
Qed.

Lemma C2_gateway_retry_witness :
  (snd (_gen toy_json (Some flaky_model) "prompt" "default") = Ok "hello" /\
   calls (fst (_gen toy_json (Some flaky_model) "prompt" "default")) = 3%nat /\
   sleeps (fst (_gen toy_json (Some flaky_model) "prompt" "default")) = [1; 2]) /\
  (exists e,
     attempt_result toy_json down_model "prompt" "default" 7 = Raise e /\
     snd (_gen toy_json (Some down_model) "prompt" "default")
       = Raise (GenAIFailure (Some e) "prompt") /\
     calls (fst (_gen toy_json (Some down_model) "prompt" "default")) = 8%nat /\
     sleeps (fst (_gen toy_json (Some down_model) "prompt" "default"))
       = [1; 2; 4; 8; 16; 32; 64; 128]).
Proof.
  split.
  - apply (proj1 (C2_gateway_retry toy_json flaky_model "prompt" "default") 2%nat "hello");
      [lia | reflexivity | reflexivity].
  - apply (proj1 (proj2 (C2_gateway_retry toy_json down_model "prompt" "default"))).
    reflexivity.
Defined.

(** ** Response validation *)

Lemma unusable_iff (t : string) :
  unusable t = true <-> strip t = "" \/ strip t = "[]" \/ spec_apology t.
Proof.
  unfold unusable, spec_apology.
  rewrite !orb_true_iff, !String.eqb_eq. tauto.
Qed.

Section ValidationFacts.
Variable json_loads : string -> option pyval.

Let valid := is_valid_json json_loads.
Let invalid_json : exn := InternalServerError "Invalid JSON output for facts.".

(** The cleanup cascade of a fact-extraction answer, step by step. *)
Lemma clean_answer_cascade (t : string) :
  snd (clean_answer json_loads "fact_extraction" t) =
    if valid (strip t) then Ok (strip t)
    else if valid (spec_strip_fences (strip t))
         then Ok (spec_strip_fences (strip t))
         else match search_array (spec_strip_fences (strip t)) with
              | Some m => if valid m then Ok m else Raise invalid_json
              | None => Raise invalid_json
              end.
Proof.
  unfold clean_answer, spec_strip_fences, valid, invalid_json.
  change (String.eqb "fact_extraction" "fact_extraction") with true.
  cbv iota.
  destruct (is_valid_json json_loads (strip t)) eqn:E1; [done|].
  destruct (startswith (strip t) "```") eqn:Ef.
  - destruct (is_valid_json json_loads
                (strip (sub_fence_close (sub_fence_open (strip t))))) eqn:E2;
      simpl; [by rewrite E2|].
    destruct (search_array _) as [m|]; simpl.
    + destruct (is_valid_json json_loads m); done.
    + by rewrite E2.
  - rewrite E1. simpl.
    destruct (search_array (strip t)) as [m|]; simpl.
    + destruct (is_valid_json json_loads m); done.
    + by rewrite E1.
Qed.

Lemma clean_answer_fails_iff (t : string) :
  (exists e, snd (clean_answer json_loads "fact_extraction" t) = Raise e)
  <-> spec_not_json json_loads t.
Proof.
  rewrite clean_answer_cascade. unfold spec_not_json, spec_candidates.
  fold valid.
  destruct (valid (strip t)) eqn:E1.
  { split; [intros [e He]; discriminate|].
    intros H. specialize (H (strip t) ltac:(by left)). congruence. }
  destruct (valid (spec_strip_fences (strip t))) eqn:E2.
  { split; [intros [e He]; discriminate|].
    intros H. specialize (H (spec_strip_fences (strip t)) ltac:(right; by left)).
    congruence. }
  destruct (search_array (spec_strip_fences (strip t))) as [m|].
  - destruct (valid m) eqn:E3.
    + split; [intros [e He]; discriminate|].
      intros H. specialize (H m ltac:(right; right; by left)). congruence.
    + split; [|by eexists].
      intros _ c [<-|[<-|[<-|[]]]]; done.
  - split; [|by eexists].
    intros _ c [<-|[<-|[]]]; done.
Qed.

Lemma clean_answer_other (type t : string) :
  type <> "fact_extraction" ->
  clean_answer json_loads type t = ret (strip t).
Proof.
  intros H. unfold clean_answer.
  destruct (String.eqb type "fact_extraction") eqn:E; [|done].
  by apply String.eqb_eq in E.
Qed.

Lemma clean_answer_error (type t : string) (e : exn) :
  snd (clean_answer json_loads type t) = Raise e -> e = invalid_json.
Proof.
  destruct (string_dec type "fact_extraction") as [->|Hne].
  - rewrite clean_answer_cascade.
    repeat match goal with
           | |- context [if ?b then _ else _] => destruct b
           | |- context [match ?o with Some _ => _ | None => _ end] => destruct o
           end; intros H; by inversion H.
  - rewrite clean_answer_other by done. discriminate.
Qed.

End ValidationFacts.

(** C8. A response of the model makes the attempt fail exactly when it
    is empty or [None], its trimmed text is empty or is the empty array,
    it begins with an apology, or, for a fact extraction, none of the
    texts of the cleanup cascade is valid JSON. The failure is an
    [InternalServerError]; the loop logs it, sleeps and makes the next
    attempt instead of returning the text. A fact-extraction answer that
    is returned is valid JSON. *)
Theorem C8_response_validation (json_loads : string -> option pyval)
    (generate_content : model) (prompt type : string) (k : nat)
    (resp : option response) :
  generate_content prompt k = Returns resp ->
  ((exists e, attempt_result json_loads generate_content prompt type k = Raise e)
   <-> spec_retry json_loads type resp) /\
  (forall e,
     attempt_result json_loads generate_content prompt type k = Raise e ->
     is_server_error e = true /\
     forall (n : nat) (delay : Z) (last : option exn),
       gen_loop json_loads generate_content prompt type (S n) k delay last =
         after (fst (_call json_loads generate_content prompt type k) ++
                [EvLog (LogGenAIError true k delay e); EvSleep delay])
               (gen_loop json_loads generate_content prompt type n (S k)
                  (delay * 2) (Some e))) /\
  (forall s,
     attempt_result json_loads generate_content prompt type k = Ok s ->
     type = "fact_extraction" -> is_valid_json json_loads s = true).
Proof.
  intros Hresp.
  assert (Hcall : attempt_result json_loads generate_content prompt type k =
    match resp with
    | Some (mk_response (Some t)) =>
        if unusable t
        then Raise (InternalServerError (no_answer_message resp))
        else snd (clean_answer json_loads type t)
    | _ => Raise (InternalServerError (no_answer_message resp))
    end).
  { unfold attempt_result, _call, iobind. simpl. rewrite Hresp.
    destruct resp as [[[t|]]|]; simpl; try done.
    destruct (unusable t); simpl; [done|].
    by destruct (clean_answer json_loads type t) as [tr [a|e]]. }
  split; [|split].
  - rewrite Hcall. unfold spec_retry, spec_invalid_response.
    destruct resp as [[[t|]]|].
    + destruct (unusable t) eqn:Eu.
      * split; [|by eexists]. intros _. left. right. right.
        exists t. split; [done|]. by apply unusable_iff.
      * assert (Hu : ~ (strip t = "" \/ strip t = "[]" \/ spec_apology t)).
        { intros H. apply unusable_iff in H. congruence. }
        destruct (string_dec type "fact_extraction") as [->|Hne].
        -- rewrite clean_answer_fails_iff. split.
           ++ intros H. right. split; [done|]. by exists t.
           ++ intros [[H|[H|(t' & Ht' & H)]]|(_ & t' & Ht' & H)]; try done.
              ** injection Ht' as <-. done.
              ** by injection Ht' as <-.
        -- rewrite clean_answer_other by done. simpl. split.
           ++ intros [e He]. discriminate.
           ++ intros [[H|[H|(t' & Ht' & H)]]|(Ht & _)]; try done.
              injection Ht' as <-. done.
    + split; [|by eexists]. intros _. left. right. by left.
    + split; [|by eexists]. intros _. left. by left.
  - intros e He.
    assert (Hse : is_server_error e = true).
    { rewrite Hcall in He. destruct resp as [[[t|]]|]; try by inversion He.
      destruct (unusable t); [by inversion He|].
      by rewrite (clean_answer_error json_loads type t e He). }
    split; [done|]. intros n delay last.
    rewrite <- Hse. by apply loop_step_raise.
  - intros s Hs ->. rewrite Hcall in Hs.
    destruct resp as [[[t|]]|]; try done.
    destruct (unusable t); [done|].
    rewrite clean_answer_cascade in Hs.
    repeat match type of Hs with
           | context [if ?b then _ else _] => destruct b eqn:?
           | context [match ?o with Some _ => _ | None => _ end] => destruct o
           end; inversion Hs; by subst.
Qed.

Lemma C8_response_validation_witness :
  ((exists e, attempt_result toy_json fenced_model "prompt" "fact_extraction" 0 = Raise e)
   <-> spec_retry toy_json "fact_extraction" (Some (mk_response (Some fenced_array)))) /\
  (forall e,
     attempt_result toy_json fenced_model "prompt" "fact_extraction" 0 = Raise e ->
     is_server_error e = true /\
     forall (n : nat) (delay : Z) (last : option exn),
       gen_loop toy_json fenced_model "prompt" "fact_extraction" (S n) 0 delay last =
         after (fst (_call toy_json fenced_model "prompt" "fact_extraction" 0) ++
                [EvLog (LogGenAIError true 0 delay e); EvSleep delay])
               (gen_loop toy_json fenced_model "prompt" "fact_extraction" n 1
                  (delay * 2) (Some e))) /\
  (forall s,
     attempt_result toy_json fenced_model "prompt" "fact_extraction" 0 = Ok s ->
     "fact_extraction" = "fact_extraction" -> is_valid_json toy_json s = true).
Proof.
  apply (C8_response_validation toy_json fenced_model "prompt" "fact_extraction" 0%nat
           (Some (mk_response (Some fenced_array)))).
  reflexivity.
Defined.

Example fenced_answer_is_cleaned :
  snd (_gen toy_json (Some fenced_model) "prompt" "fact_extraction") = Ok "[1]".
Proof. vm_compute. reflexivity. Qed.

Example fenced_answer_is_kept_by_default :
  snd (_gen toy_json (Some fenced_model) "prompt" "default") = Ok fenced_array.
Proof. vm_compute. reflexivity. Qed.

(** ** The fact extractor *)

Lemma facts_loop_spec (elems : list pyval) :
  forall acc : list Fact,
    snd (facts_loop elems acc) = Ok (acc ++ well_formed elems) /\
    logs (fst (facts_loop elems acc)) = skipped elems /\
    calls (fst (facts_loop elems acc)) = 0%nat.
Proof.
  induction elems as [|f rest IH]; intros acc; simpl.
  - by rewrite app_nil_r.
  - unfold well_formed, skipped. simpl.
    destruct (build_fact f) as [x|e].
    + destruct (IH (acc ++ [x])) as (Hr & Hl & Hc).
      rewrite Hr, Hl, Hc, <- app_assoc. done.
    + destruct (IH acc) as (Hr & Hl & Hc).
      unfold iobind, after. simpl. rewrite Hr. simpl. rewrite Hl, Hc. done.
Qed.

(** C4, as the code has it. [extract_facts] ends as the gateway does
    when the gateway raises: the terminal error goes to the caller. When
    the gateway returns a text, a text that the repair cascade cannot
    decode gives the empty list and an error record in the log; a decoded
    value that can be iterated gives the facts of its well-formed
    elements, each of the others being skipped with a record in the log. *)
Theorem C4_extract_facts_degrades (json_loads : string -> option pyval)
    (PROMPT : string -> string) (client : option model) (chunk : string) :
  (forall e,
     snd (_gen json_loads client (PROMPT chunk) "fact_extraction") = Raise e ->
     extract_facts json_loads PROMPT client chunk
       = (fst (_gen json_loads client (PROMPT chunk) "fact_extraction"), Raise e)) /\
  (forall text,
     snd (_gen json_loads client (PROMPT chunk) "fact_extraction") = Ok text ->
     (truthy (repair_cascade json_loads text) = false ->
      extract_facts json_loads PROMPT client chunk
        = (fst (_gen json_loads client (PROMPT chunk) "fact_extraction")
             ++ [EvLog (LogExtractionFailed text)], Ok [])) /\
     (forall elems,
        truthy (repair_cascade json_loads text) = true ->
        iterate (repair_cascade json_loads text) = Ok elems ->
        snd (extract_facts json_loads PROMPT client chunk) = Ok (well_formed elems) /\
        logs (fst (extract_facts json_loads PROMPT client chunk))
          = logs (fst (_gen json_loads client (PROMPT chunk) "fact_extraction"))
              ++ skipped elems)).
Proof.
  split.
  - intros e He. unfold extract_facts. by rewrite (iobind_raise _ _ _ He).
  - intros text Ht. unfold extract_facts. rewrite (iobind_ok _ _ _ Ht).
    split.
    + intros Hf. rewrite Hf. reflexivity.
    + intros elems Htr Hit. rewrite Htr. simpl.
      unfold iobind at 1. unfold lift at 1. simpl. rewrite Hit. simpl.
      destruct (facts_loop_spec elems []) as (Hr & Hl & _).
      unfold lift, after. simpl. rewrite Hr, logs_app, Hl. done.
Qed.

(** The gateway's terminal error comes out of [extract_facts]. *)
Lemma C4_extract_facts_raises :
  snd (extract_facts toy_json (fun chunk => chunk) (Some down_model) "chunk")
    = Raise (GenAIFailure (Some (OtherException "unreachable")) "chunk").
Proof. vm_compute. reflexivity. Qed.

Lemma C4_extract_facts_degrades_witness :
  snd (extract_facts toy_json (fun chunk => chunk) (Some facts_model) "chunk")
    = Ok [mk_Fact "Chimie" PNone "L'eau bout" PNone] /\
  logs (fst (extract_facts toy_json (fun chunk => chunk) (Some facts_model) "chunk"))
    = [LogInvalidFactEntry (PDict [("topic", PNone); ("fact", PStr "x")]) AttributeError].
Proof.
  destruct (C4_extract_facts_degrades toy_json (fun chunk => chunk)
              (Some facts_model) "chunk") as [_ H].
  destruct (H "[facts]" ltac:(reflexivity)) as [_ H'].
  apply (H' (match two_entries with PList l => l | _ => [] end));
    reflexivity.
Defined.

(** A decoded value that is true and cannot be iterated (a number) ends
    [extract_facts] with a [TypeError]. *)
Example extract_facts_scalar :
  snd (extract_facts toy_json (fun chunk => chunk) (Some scalar_model) "chunk")
    = Raise TypeError.
Proof. vm_compute. reflexivity. Qed.

(** ** The csv reader and writer *)

Lemma str_app_cons (x : ascii) (a b : string) :
  String x a +:+ b = String x (a +:+ b).
Proof. reflexivity. Qed.

Lemma str_app_nil_l (b : string) : "" +:+ b = b.
Proof. reflexivity. Qed.

Lemma str_app_assoc (a b c : string) : (a +:+ b) +:+ c = a +:+ (b +:+ c).
Proof.
  induction a as [|x a IH]; [done|]. by rewrite !str_app_cons, IH.
Qed.

Lemma str_app_nil_r (a : string) : a +:+ "" = a.
Proof. induction a as [|x a IH]; [done|]. by rewrite str_app_cons, IH. Qed.

Lemma str_length_app (a b : string) :
  String.length (a +:+ b) = (String.length a + String.length b)%nat.
Proof.
  induction a as [|x a IH]; [done|]. rewrite str_app_cons. simpl. by rewrite IH.
Qed.

Lemma nonempty_snoc (a : string) (c : ascii) : nonempty (a +:+ String c "") = true.
Proof. by destruct a. Qed.

Lemma feed_app (p : parser) (a b : string) :
  feed p (a +:+ b) = bind (feed p a) (fun p' => feed p' b).
Proof.
  revert p. induction a as [|x a IH]; intros p; [done|].
  rewrite str_app_cons. cbn [feed].
  destruct (parse_process_char p (Ch x)); cbn [bind]; [apply IH|done].
Qed.

(** Reading line by line is reading character by character. *)
Lemma reader_from_run (s : string) :
  forall (cur : string) (p0 : parser),
    reader_from p0 (lines_aux cur s) =
      match feed p0 cur with
      | Ok p => run p (nonempty cur) s
      | Raise e => RowsError e
      end.
Proof.
  induction s as [|c r IH]; intros cur p0.
  - simpl. destruct cur as [|x cur]; [done|].
    cbn [reader_from]. unfold feed_line.
    destruct (feed p0 (String x cur)) as [p|e]; [|done].
    cbn [bind nonempty]. 
    destruct (parse_process_char p EOL) as [p'|e]; [|done].
    by destruct (is_start_record (st p')).
  - cbn [lines_aux run]. destruct (Ascii.eqb c LF) eqn:Ec.
    + cbn [reader_from]. unfold feed_line. rewrite feed_app.
      destruct (feed p0 cur) as [p|e]; [|done]. cbn [bind feed].
      destruct (parse_process_char p (Ch c)) as [p1|e]; [|done]. cbn [bind].
      destruct (parse_process_char p1 EOL) as [p2|e]; [|done].
      destruct (is_start_record (st p2)).
      * f_equal. by rewrite IH.
      * by rewrite IH.
    + rewrite IH, feed_app.
      destruct (feed p0 cur) as [p|e]; [|done]. cbn [bind feed].
      destruct (parse_process_char p (Ch c)) as [p1|e]; [|done]. cbn [bind].
      by rewrite nonempty_snoc.
Qed.

Lemma reader_run (text : string) : reader text = run parse_reset false text.
Proof. unfold reader, StringIO. by rewrite reader_from_run. Qed.

Lemma DQUOTE_not_LF : Ascii.eqb DQUOTE LF = false.
Proof. reflexivity. Qed.

Lemma run_cons (p : parser) (mid : bool) (c : ascii) (r : string) :
  run p mid (String c r) =
    match parse_process_char p (Ch c) with
    | Raise e => RowsError e
    | Ok p1 =>
        if Ascii.eqb c LF then
          match parse_process_char p1 EOL with
          | Raise e => RowsError e
          | Ok p2 =>
              if is_start_record (st p2)
              then RowsCons (fields p2) (run parse_reset false r)
              else run p2 false r
          end
        else run p1 true r
    end.
Proof. reflexivity. Qed.

Lemma add_char_room (s0 : state) (fs : list string) (g : string) (c : ascii) :
  field_ok (g +:+ String c "") ->
  parse_add_char (mk_parser s0 fs g) c = Ok (mk_parser s0 fs (g +:+ String c "")).
Proof.
  unfold field_ok, parse_add_char. rewrite str_length_app. cbn [st fields field].
  intros H. replace (field_limit <=? _)%N with false; [done|].
  symmetry. apply N.leb_gt. simpl in H. lia.
Qed.

Lemma field_ok_prefix (g f : string) : field_ok (g +:+ f) -> field_ok g.
Proof. unfold field_ok. rewrite str_length_app. lia. Qed.

(** Reading the doubled-quote encoding of [f] inside a quoted field
    adds [f] to the field. *)
Lemma run_escape (f : string) :
  forall (fs : list string) (g : string) (mid : bool) (rest : string),
    field_ok (g +:+ f) ->
    exists mid',
      run (mk_parser IN_QUOTED_FIELD fs g) mid (escape f +:+ rest)
      = run (mk_parser IN_QUOTED_FIELD fs (g +:+ f)) mid' rest.
Proof.
  induction f as [|c f IH]; intros fs g mid rest Hok.
  - exists mid. by rewrite str_app_nil_r.
  - assert (Hok' : field_ok ((g +:+ String c "") +:+ f)).
    { by rewrite str_app_assoc. }
    assert (Hadd : forall s0, parse_add_char (mk_parser s0 fs g) c
                     = Ok (mk_parser s0 fs (g +:+ String c ""))).
    { intros s0. apply add_char_room. by apply field_ok_prefix in Hok'. }
    destruct (IH fs (g +:+ String c "") true rest Hok') as [m1 H1].
    destruct (IH fs (g +:+ String c "") false rest Hok') as [m2 H2].
    rewrite str_app_assoc in H1, H2.
    rewrite str_app_cons, str_app_nil_l in H1, H2.
    cbn [escape]. destruct (Ascii.eqb c DQUOTE) eqn:Ec.
    + apply Ascii.eqb_eq in Ec. subst c. exists m1.
      rewrite !str_app_cons, run_cons.
      cbn [parse_process_char st]. rewrite Ascii.eqb_refl, DQUOTE_not_LF.
      rewrite run_cons. unfold set_st. cbn [parse_process_char st fields field].
      rewrite Ascii.eqb_refl, Hadd. cbn [bind]. rewrite DQUOTE_not_LF.
      unfold set_st. cbn [st fields field]. exact H1.
    + rewrite str_app_cons, run_cons.
      cbn [parse_process_char st]. rewrite Ec, Hadd.
      destruct (Ascii.eqb c LF).
      * exists m2. cbn [parse_process_char st is_start_record]. exact H2.
      * exists m1. exact H1.
Qed.

(** Reading a written row gives the row. *)
Lemma run_join_fields (fs : list string) :
  forall (got : list string) (s0 : state) (mid : bool) (rest : string),
    fs <> [] -> Forall field_ok fs ->
    (s0 = START_FIELD \/ (s0 = START_RECORD /\ got = [])) ->
    run (mk_parser s0 got "") mid (writerow fs +:+ rest)
    = RowsCons (got ++ fs) (run parse_reset false rest).
Proof.
  induction fs as [|f fs IH]; intros got s0 mid rest Hne Hok Hs0; [done|].
  apply Forall_cons_iff in Hok as [Hf Hfs].
  assert (Hopen : forall tail,
    run (mk_parser s0 got "") mid (String DQUOTE tail)
    = run (mk_parser IN_QUOTED_FIELD got "") true tail).
  { intros tail. rewrite run_cons, DQUOTE_not_LF.
    by destruct Hs0 as [->|[-> ->]]. }
  assert (Hclose : forall m tail,
    run (mk_parser IN_QUOTED_FIELD got f) m (String DQUOTE tail)
    = run (mk_parser QUOTE_IN_QUOTED_FIELD got f) true tail).
  { intros m tail. by rewrite run_cons, DQUOTE_not_LF. }
  destruct fs as [|f' fs].
  - unfold writerow. cbn [join_fields]. unfold quote_field.
    rewrite !str_app_cons, Hopen, !str_app_assoc.
    destruct (run_escape f got "" true
                (String DQUOTE "" +:+ str_CRLF +:+ rest) Hf) as [m ->].
    rewrite str_app_nil_l, str_app_cons, Hclose. unfold str_CRLF.
    rewrite !str_app_cons, str_app_nil_l, !run_cons. by cbn.
  - assert (Hne' : f' :: fs <> []) by done.
    revert IH Hfs Hne'. generalize (f' :: fs) as fs'. intros fs' IH Hfs Hne'.
    unfold writerow in *.
    replace (join_fields (f :: fs'))
      with (quote_field f +:+ String COMMA (join_fields fs'))
      by (by destruct fs').
    unfold quote_field.
    rewrite !str_app_cons, Hopen, !str_app_assoc.
    destruct (run_escape f got "" true
                (String DQUOTE "" +:+
                 String COMMA (join_fields fs') +:+ str_CRLF +:+ rest) Hf)
      as [m ->].
    rewrite str_app_nil_l, !str_app_cons, Hclose, str_app_nil_l, run_cons.
    cbn [parse_process_char st].
    change (Ascii.eqb COMMA DQUOTE) with false.
    change (Ascii.eqb COMMA COMMA) with true.
    change (Ascii.eqb COMMA LF) with false.
    cbv iota. unfold set_st, parse_save_field. cbn [fields field st].
    rewrite <- str_app_assoc.
    rewrite (IH (got ++ [f]) START_FIELD true rest); [|done|done|by left].
    by rewrite <- app_assoc.
Qed.

Lemma to_list_rows_of (l : list (list string)) : to_list (rows_of l) = Ok l.
Proof. induction l as [|r l IH]; simpl; [done|by rewrite IH]. Qed.

(** What the writer wrote, the reader reads. *)
Lemma reader_writer (l : list (list string)) :
  Forall row_ok l ->
  reader (concat_str (map writerow l)) = rows_of l.
Proof.
  rewrite reader_run. induction 1 as [|r l [Hne Hok] Hl IH]; [done|].
  cbn [map concat_str rows_of].
  rewrite (run_join_fields r [] START_RECORD false); [|done|done|by right].
  by rewrite IH.
Qed.

Lemma field_ok_empty : field_ok "".
Proof. unfold field_ok, field_limit. simpl. lia. Qed.

Lemma save_field_ok (p : parser) (s0 : state) :
  parser_ok p -> parser_ok (set_st (parse_save_field p) s0).
Proof.
  intros [Hfs Hf]. split; simpl; [|apply field_ok_empty].
  apply Forall_app. split; [done|by constructor].
Qed.

Lemma add_char_ok (p p' : parser) (c : ascii) (s0 : state) :
  parser_ok p -> parse_add_char p c = Ok p' -> parser_ok (set_st p' s0).
Proof.
  intros [Hfs Hf]. unfold parse_add_char.
  destruct (field_limit <=? N.of_nat (String.length (field p)))%N eqn:E; [done|].
  intros [= <-]. split; simpl; [done|].
  unfold field_ok. rewrite str_length_app. simpl.
  apply N.leb_gt in E. lia.
Qed.

Lemma set_st_ok (p : parser) (s0 : state) : parser_ok p -> parser_ok (set_st p s0).
Proof. by intros [? ?]. Qed.

Lemma set_st_id (p : parser) : set_st p (st p) = p.
Proof. by destruct p. Qed.

Lemma process_char_ok (p p' : parser) (c : input) :
  parser_ok p -> parse_process_char p c = Ok p' -> parser_ok p'.
Proof.
  intros Hp. unfold parse_process_char, start_field.
  assert (Hsave := save_field_ok p).
  assert (Hset := set_st_ok p).
  assert (Hsave' : parser_ok (parse_save_field p)).
  { rewrite <- (set_st_id (parse_save_field p)). apply Hsave, Hp. }
  assert (Hadd : forall a q, parse_add_char p a = Ok q -> parser_ok q).
  { intros a q Hq. rewrite <- (set_st_id q).
    eapply add_char_ok; [exact Hp|exact Hq]. }
  assert (Hadd' : forall a q s0 s1,
    parse_add_char (set_st p s0) a = Ok q -> parser_ok (set_st q s1)).
  { intros a q s0 s1 Hq. eapply add_char_ok; [|exact Hq]. by apply Hset. }
  destruct (st p), c as [a|];
    repeat match goal with
           | |- context [if ?b then _ else _] => destruct b
           end;
    try (intros [= <-]; by auto);
    try (destruct (parse_add_char _ a) as [q|e] eqn:Hq; simpl;
         intros [= <-]; by eauto using add_char_ok);
    try done.
Qed.

Lemma feed_ok (line : string) :
  forall p p', parser_ok p -> feed p line = Ok p' -> parser_ok p'.
Proof.
  induction line as [|c line IH]; intros p p' Hp; simpl.
  - by intros [= <-].
  - destruct (parse_process_char p (Ch c)) as [p1|e] eqn:E; simpl; [|done].
    apply IH. by eapply process_char_ok.
Qed.

Lemma parse_reset_ok : parser_ok parse_reset.
Proof. split; [constructor|apply field_ok_empty]. Qed.

Lemma reader_from_ok (lines : list string) :
  forall p l,
    parser_ok p ->
    to_list (reader_from p lines) = Ok l -> Forall (Forall field_ok) l.
Proof.
  induction lines as [|line lines IH]; intros p l Hp.
  - simpl. unfold end_of_input.
    destruct (nonempty (field p) || is_in_quoted_field (st p)); simpl.
    + intros [= <-]. constructor; [|constructor].
      apply Forall_app. split; [apply Hp|constructor; [apply Hp|constructor]].
    + intros [= <-]. constructor.
  - simpl. unfold feed_line.
    destruct (feed p line) as [p1|e] eqn:E1; simpl; [|done].
    destruct (parse_process_char p1 EOL) as [p2|e] eqn:E2; simpl; [|done].
    assert (Hp2 : parser_ok p2).
    { eapply process_char_ok; [|exact E2]. by eapply feed_ok. }
    destruct (is_start_record (st p2)); simpl.
    + destruct (to_list (reader_from parse_reset lines)) as [l'|e] eqn:E3;
        simpl; [|done].
      intros [= <-]. constructor; [apply Hp2|].
      by apply (IH parse_reset l' parse_reset_ok).
    + by apply IH.
Qed.

(** ** The editable card rows *)

Lemma length_pad6 (r : list string) : length (pad6 r) = 6%nat.
Proof.
  unfold pad6. rewrite length_firstn, length_app, repeat_length. lia.
Qed.

Lemma pad6_id (r : list string) : length r = 6%nat -> pad6 r = r.
Proof.
  intros H. unfold pad6. rewrite <- H, firstn_app, Nat.sub_diag, firstn_all.
  simpl. by rewrite app_nil_r.
Qed.

Lemma pad6_ok (r : list string) : Forall field_ok r -> row_ok (pad6 r).
Proof.
  intros H. split.
  - intros E. pose proof (length_pad6 r) as Hl. by rewrite E in Hl.
  - unfold pad6. apply Forall_take, Forall_app. split; [done|].
    repeat constructor; apply field_ok_empty.
Qed.

Lemma header_ok : row_ok header.
Proof.
  split; [done|]. repeat constructor; unfold field_ok, field_limit; simpl; lia.
Qed.

(** What [_parse_cards_to_rows] gives: the header, then the rows of the
    text after the first, each made six fields long. *)
Lemma parse_cards_shape (csv_text : string) :
  exists l, _parse_cards_to_rows csv_text = header :: map pad6 l /\
            Forall (Forall field_ok) l.
Proof.
  unfold _parse_cards_to_rows.
  destruct (to_list (reader csv_text)) as [l|e] eqn:E.
  - assert (Hl : Forall (Forall field_ok) l).
    { by apply (reader_from_ok _ _ _ parse_reset_ok E). }
    destruct l as [|r l]; [by exists []|].
    exists l. split; [done|]. by apply Forall_cons_iff in Hl as [_ ?].
  - by exists [].
Qed.

Lemma rows_to_csv_text_cons (first : list string) (l : list (list string)) :
  _rows_to_csv_text (first :: l)
  = concat_str (map writerow (header :: map pad6 l)).
Proof. unfold _rows_to_csv_text. cbn [tl map concat_str]. by rewrite map_map. Qed.

(** Parsing the text written for a deck gives the deck, its rows made
    six fields long. *)
Lemma parse_written (first : list string) (l : list (list string)) :
  Forall (Forall field_ok) l ->
  _parse_cards_to_rows (_rows_to_csv_text (first :: l)) = header :: map pad6 l.
Proof.
  intros Hl. rewrite rows_to_csv_text_cons. unfold _parse_cards_to_rows.
  rewrite reader_writer, to_list_rows_of.
  - cbn [tl]. rewrite map_map. f_equal. apply map_ext.
    intros r. apply pad6_id, length_pad6.
  - constructor; [apply header_ok|].
    apply Forall_map. eapply Forall_impl; [|exact Hl].
    intros r Hr. by apply pad6_ok.
Qed.

(** C9. The card rows are read with the header first and six fields per
    row, short rows being completed with empty strings and long rows cut;
    they are written with the header line first and every field between
    quotes, the quotes of a field doubled; and the rows read from a text
    are read again unchanged from the text written for them, as is a card
    whose answer holds quotes. *)
Theorem C9_card_rows_round_trip (csv_text : string) :
  (exists rows,
     _parse_cards_to_rows csv_text = header :: rows /\
     Forall (fun r => length r = 6%nat) rows) /\
  (forall first rows,
     _rows_to_csv_text (first :: rows)
     = writerow header +:+ concat_str (map (fun r => writerow (pad6 r)) rows)) /\
  (forall fs, writerow fs = join_fields fs +:+ str_CRLF) /\
  (forall f, quote_field f = Q +:+ escape f +:+ Q) /\
  pad6 ["a"; "b"] = ["a"; "b"; ""; ""; ""; ""] /\
  pad6 ["1"; "2"; "3"; "4"; "5"; "6"; "7"] = ["1"; "2"; "3"; "4"; "5"; "6"] /\
  _parse_cards_to_rows (_rows_to_csv_text (_parse_cards_to_rows csv_text))
    = _parse_cards_to_rows csv_text /\
  quote_field he_said_hi = Q +:+ "He said " +:+ Q +:+ Q +:+ "hi" +:+ Q +:+ Q +:+ Q /\
  _parse_cards_to_rows (_rows_to_csv_text [header; quoted_card])
    = [header; quoted_card].
Proof.
  destruct (parse_cards_shape csv_text) as (l & Hparse & Hl).
  split.
  { exists (map pad6 l). split; [done|].
    apply Forall_map, Forall_forall. intros r _. apply length_pad6. }
  split; [done|]. split; [done|]. split; [done|].
  split; [done|]. split; [done|]. split.
  { rewrite Hparse, parse_written.
    - f_equal. rewrite map_map. apply map_ext. intros r.
      apply pad6_id, length_pad6.
    - apply Forall_map. eapply Forall_impl; [|exact Hl].
      intros r Hr. by apply pad6_ok. }
  split; [reflexivity|]. vm_compute. reflexivity.
Qed.

(** ** The reconciliation *)

Lemma index_nth (r : row) (i : nat) :
  (i < length r)%nat -> index r i = Ok (nth i r "").
Proof.
  intros H. unfold index.
  destruct (nth_error r i) as [x|] eqn:E.
  - by rewrite (nth_error_nth _ _ _ E).
  - apply nth_error_None in E. lia.
Qed.

Lemma index_short (r : row) (i : nat) :
  (length r <= i)%nat -> index r i = Raise IndexError.
Proof.
  intros H. unfold index. by rewrite (proj2 (nth_error_None r i) H).
Qed.

Lemma changed_fields_diff (names : list (nat * string)) (o v : row) :
  Forall (fun n => (fst n < length o)%nat /\ (fst n < length v)%nat) names ->
  changed_fields names o v = Ok (diff names o v).
Proof.
  induction 1 as [|[i name] names [Ho Hv] Hn IH]; [done|].
  cbn [changed_fields]. simpl in Ho, Hv.
  rewrite (index_nth _ _ Ho), (index_nth _ _ Hv), IH. cbn [bind].
  unfold diff. cbn [filter fst]. f_equal.
  destruct (decide (nth i o "" <> nth i v "")) as [Hne|Heq].
  - apply String.eqb_neq in Hne. by rewrite Hne.
  - assert (E : nth i o "" = nth i v "") by (by destruct (string_dec (nth i o "") (nth i v ""))).
    apply String.eqb_eq in E. by rewrite E.
Qed.

Lemma six_fields (names : list (nat * string)) (o v : row) :
  length o = 6%nat -> length v = 6%nat ->
  Forall (fun n => (fst n < 6)%nat) names ->
  changed_fields names o v = Ok (diff names o v).
Proof.
  intros Ho Hv Hn. apply changed_fields_diff.
  eapply Forall_impl; [|exact Hn]. intros n Hlt. simpl in Hlt. lia.
Qed.

Lemma answer_fields_range : Forall (fun n => (fst n < 6)%nat) answer_fields.
Proof. repeat constructor; simpl; lia. Qed.

Lemma all_fields_range : Forall (fun n => (fst n < 6)%nat) all_fields.
Proof. repeat constructor; simpl; lia. Qed.

(** For rows of six fields, the slices from the answer on differ
    exactly when one of the three fields differs. *)
Lemma tail_differs (o v : row) :
  length o = 6%nat -> length v = 6%nat ->
  (skipn 3 o <> skipn 3 v <-> diff answer_fields o v <> []).
Proof.
  intros Ho Hv.
  destruct o as [|o0 [|o1 [|o2 [|o3 [|o4 [|o5 [|]]]]]]]; try done.
  destruct v as [|v0 [|v1 [|v2 [|v3 [|v4 [|v5 [|]]]]]]]; try done.
  unfold diff, answer_fields. cbn [skipn filter fst nth].
  destruct (String.eqb_spec o3 v3) as [E3|E3];
    destruct (String.eqb_spec o4 v4) as [E4|E4];
    destruct (String.eqb_spec o5 v5) as [E5|E5]; subst; cbn;
    split; intros H; try done; congruence.
Qed.

(** *** The dictionaries of cards *)

Lemma dict_set_keys (d : list (key * row)) (k : key) (r : row) (k' : key) :
  In k' (map fst (dict_set d k r)) <-> k' = k \/ In k' (map fst d).
Proof.
  induction d as [|[k0 r0] d IH]; simpl; [naive_solver|].
  destruct (decide (k0 = k)) as [->|Hne]; simpl; [naive_solver|].
  rewrite IH. naive_solver.
Qed.

Lemma dict_set_in (d : list (key * row)) (k : key) (r : row) (k' : key) (r' : row) :
  In (k', r') (dict_set d k r) -> (k' = k /\ r' = r) \/ In (k', r') d.
Proof.
  induction d as [|[k0 r0] d IH]; simpl; [naive_solver|].
  destruct (decide (k0 = k)) as [->|Hne]; simpl; naive_solver.
Qed.

Lemma dict_set_wf (cards : list row) (d : list (key * row)) (k : key) (r : row) :
  dict_wf cards d -> In r cards -> card_key r = Some k ->
  dict_wf cards (dict_set d k r).
Proof.
  intros [Hnd Hin] Hr Hk. split.
  - clear Hin. induction d as [|[k0 r0] d IH]; simpl.
    + constructor; [by intros []|constructor].
    + apply NoDup_cons_iff in Hnd as [Hk0 Hnd].
      destruct (decide (k0 = k)) as [->|Hne]; simpl.
      * by constructor.
      * constructor; [|by apply IH].
        rewrite dict_set_keys. naive_solver.
  - intros k' r' H. apply dict_set_in in H as [[-> ->]|H]; [done|by apply Hin].
Qed.

Lemma cards_dict_wf (cards : list row) : dict_wf cards (cards_dict cards).
Proof.
  unfold cards_dict.
  assert (Hgen : forall cs d,
    (forall r, In r cs -> In r cards) -> dict_wf cards d ->
    dict_wf cards
      (fold_left (fun d r => match card_key r with
                             | Some k => dict_set d k r
                             | None => d
                             end) cs d)).
  { induction cs as [|c cs IH]; intros d Hcs Hd; simpl; [done|].
    apply IH; [intros r Hr; apply Hcs; by right|].
    destruct (card_key c) as [k|] eqn:Ek; [|done].
    apply dict_set_wf; [done|apply Hcs; by left|done]. }
  apply Hgen; [done|]. split; [constructor|by intros k r []].
Qed.

Lemma dict_lookup_in (d : list (key * row)) (k : key) (v : row) :
  dict_lookup d k = Some v -> In (k, v) d.
Proof.
  induction d as [|[k0 r0] d IH]; simpl; [done|].
  destruct (decide (k0 = k)) as [->|Hne]; [intros [= ->]; by left|].
  intros H. right. by apply IH.
Qed.

Lemma dict_in_lookup (d : list (key * row)) (k : key) (v : row) :
  NoDup (map fst d) -> In (k, v) d -> dict_lookup d k = Some v.
Proof.
  induction d as [|[k0 r0] d IH]; simpl; [done|].
  intros Hnd. apply NoDup_cons_iff in Hnd as [Hk0 Hnd].
  intros [[= -> ->]|Hin].
  - by destruct (decide (k = k)).
  - destruct (decide (k0 = k)) as [->|Hne]; [|by apply IH].
    exfalso. apply Hk0. apply in_map_iff. by exists (k, v).
Qed.

Lemma dict_lookup_none (d : list (key * row)) (k : key) :
  dict_lookup d k = None <-> ~ In k (map fst d).
Proof.
  induction d as [|[k0 r0] d IH]; simpl; [naive_solver|].
  destruct (decide (k0 = k)) as [->|Hne]; [naive_solver|].
  rewrite IH. naive_solver.
Qed.

(** The rows of a dictionary of cards are pairwise distinct: a row
    holds its key. *)
Lemma dict_values_nodup (cards : list row) (d : list (key * row)) :
  dict_wf cards d -> NoDup (map snd d).
Proof.
  intros [Hnd Hin]. induction d as [|[k0 r0] d IH]; simpl; [constructor|].
  apply NoDup_cons_iff in Hnd as [Hk0 Hnd].
  constructor.
  - intros H. apply in_map_iff in H as ([k r] & Hr & H). simpl in Hr. subst r.
    destruct (Hin k0 r0 ltac:(by left)) as [_ E0].
    destruct (Hin k r0 ltac:(by right)) as [_ E1].
    assert (k = k0) by congruence. subst k.
    apply Hk0, in_map_iff. by exists (k0, r0).
  - apply IH; [done|]. intros k r H. apply Hin. by right.
Qed.

Lemma dict_six (cards : list row) (k : key) (r : row) :
  six cards -> In (k, r) (cards_dict cards) -> length r = 6%nat.
Proof.
  intros H6 Hin. destruct (cards_dict_wf cards) as [_ Hwf].
  destruct (Hwf k r Hin) as [Hr _].
  unfold six in H6. rewrite Forall_forall in H6. by apply H6.
Qed.

(** *** Exact matches *)

Lemma exact_loop_spec (od : list (key * row)) (items : list (key * row)) :
  (forall k o, dict_lookup od k = Some o -> length o = 6%nat) ->
  (forall k v, In (k, v) items -> length v = 6%nat) ->
  forall s, exists s',
    exact_loop od items s = Ok s' /\
    rewritten_cards s' = rewritten_cards s ++ flat_map (exact_record od) items /\
    unchanged_count s'
      = (unchanged_count s + length (filter (exact_unchanged od) items))%nat /\
    (forall k, k ∈ matched_keys s' <->
               k ∈ matched_keys s \/
               (In k (map fst items) /\ dict_lookup od k <> None)).
Proof.
  intros Hod. induction items as [|[k v] items IH]; intros Hit s.
  - exists s. simpl. rewrite app_nil_r, Nat.add_0_r. naive_solver.
  - assert (Hit' : forall k v, In (k, v) items -> length v = 6%nat).
    { intros k' v' H. eapply Hit. by right. }
    assert (Hv : length v = 6%nat) by (eapply Hit; by left).
    cbn [exact_loop flat_map filter map fst].
    unfold exact_record at 1, exact_unchanged at 1. cbn [fst snd].
    destruct (dict_lookup od k) as [o|] eqn:Ek.
    + assert (Ho : length o = 6%nat) by (by eapply Hod).
      pose proof (tail_differs o v Ho Hv) as Htail.
      rewrite (six_fields answer_fields o v Ho Hv answer_fields_range).
      cbn [bind].
      destruct (decide (skipn 3 o <> skipn 3 v)) as [Hd|Hd].
      * apply Htail in Hd.
        destruct (IH Hit' (mk_exact
                    (rewritten_cards s ++ [(o, v, diff answer_fields o v, 100%float)])
                    (unchanged_count s) ({[ k ]} ∪ matched_keys s)))
          as (s' & Hs' & Hrw & Hun & Hm).
        exists s'. split; [done|]. simpl in Hrw, Hun, Hm.
        destruct (diff answer_fields o v) as [|c cs] eqn:Ed; [done|].
        split; [by rewrite Hrw, <- app_assoc|].
        split; [done|].
        intros k'. rewrite Hm, elem_of_union, elem_of_singleton.
        split; [|intros [?|[[<-|?] ?]]; naive_solver].
        intros [[->|?]|[? ?]]; [|naive_solver|naive_solver].
        right. split; [by left|congruence].
      * assert (Hnil : diff answer_fields o v = []).
        { destruct (diff answer_fields o v) eqn:Ed; [done|].
          exfalso. apply Hd, Htail. done. }
        destruct (IH Hit' (mk_exact (rewritten_cards s) (S (unchanged_count s))
                    ({[ k ]} ∪ matched_keys s)))
          as (s' & Hs' & Hrw & Hun & Hm).
        exists s'. split; [done|]. simpl in Hrw, Hun, Hm. rewrite Hnil.
        split; [done|]. split; [simpl; lia|].
        intros k'. rewrite Hm, elem_of_union, elem_of_singleton.
        split; [|intros [?|[[<-|?] ?]]; naive_solver].
        intros [[->|?]|[? ?]]; [|naive_solver|naive_solver].
        right. split; [by left|congruence].
    + destruct (IH Hit' s) as (s' & Hs' & Hrw & Hun & Hm).
      exists s'. split; [done|]. split; [done|]. split; [done|].
      intros k'. rewrite Hm. split; [naive_solver|].
      intros [?|[[<-|?] ?]]; naive_solver.
Qed.

(** *** Fuzzy matches *)

Lemma enumerate_from_in {A} (l : list A) :
  forall n i x,
    In (i, x) (enumerate_from n l) <->
    (n <= i)%nat /\ nth_error l (i - n) = Some x.
Proof.
  induction l as [|y l IH]; intros n i x; simpl.
  - split; [done|]. intros [_ H]. by destruct (i - n)%nat.
  - rewrite IH. split.
    + intros [[= <- <-]|[Hle Hnth]].
      * split; [lia|]. by rewrite Nat.sub_diag.
      * split; [lia|]. replace (i - n)%nat with (S (i - S n)) by lia. done.
    + intros [Hle Hnth]. destruct (decide (i = n)) as [->|Hne].
      * left. rewrite Nat.sub_diag in Hnth. simpl in Hnth. congruence.
      * right. split; [lia|].
        replace (i - n)%nat with (S (i - S n)) in Hnth by lia. done.
Qed.

Lemma enumerate_snd {A} (l : list A) :
  forall n, map snd (enumerate_from n l) = l.
Proof. induction l as [|y l IH]; intros n; simpl; [done|by rewrite IH]. Qed.

Lemma enumerate_in_row {A} (l : list A) (i : nat) (x : A) :
  In (i, x) (enumerate l) -> In x l.
Proof.
  unfold enumerate. rewrite enumerate_from_in. intros [_ H].
  by apply nth_error_In in H.
Qed.

Lemma enumerate_row_in {A} (l : list A) (x : A) :
  In x l -> exists i, In (i, x) (enumerate l).
Proof.
  intros H. apply In_nth_error in H as [i Hi]. exists i.
  unfold enumerate. rewrite enumerate_from_in. split; [lia|].
  by rewrite Nat.sub_0_r.
Qed.

Lemma enumerate_functional {A} (l : list A) (i : nat) (x y : A) :
  In (i, x) (enumerate l) -> In (i, y) (enumerate l) -> x = y.
Proof.
  unfold enumerate. rewrite !enumerate_from_in. intros [_ Hx] [_ Hy]. congruence.
Qed.

Lemma enumerate_injective {A} (l : list A) (i j : nat) (x : A) :
  NoDup l -> In (i, x) (enumerate l) -> In (j, x) (enumerate l) -> i = j.
Proof.
  unfold enumerate. rewrite !enumerate_from_in, !Nat.sub_0_r.
  intros Hnd [_ Hi] [_ Hj].
  eapply (proj1 (NoDup_nth_error l) Hnd); [|congruence].
  apply nth_error_Some. congruence.
Qed.

Lemma NoDup_map_filter {A B} (f : A -> B) (P : A -> bool) (l : list A) :
  NoDup (map f l) -> NoDup (map f (filter P l)).
Proof.
  induction l as [|x l IH]; simpl; [done|].
  intros H. apply NoDup_cons_iff in H as [Hx Hl].
  destruct (P x); simpl; [|by apply IH].
  constructor; [|by apply IH].
  intros Hin. apply Hx. apply in_map_iff in Hin as (y & Hy & Hin).
  apply filter_In in Hin as [Hin _]. apply in_map_iff. by exists y.
Qed.

(** *** The order of the scores *)

Lemma SFcompare_lex (f1 f2 : spec_float) :
  SFcompare f1 f2 =
    match lex f1, lex f2 with
    | Some a, Some b => Some (lexcmp a b)
    | _, _ => None
    end.
Proof.
  destruct f1 as [s1|s1| |s1 m1 e1], f2 as [s2|s2| |s2 m2 e2];
    try destruct s1; try destruct s2; try reflexivity.
  cbn [SFcompare lex lexcmp]. change (-1 ?= -1) with Eq. cbv iota.
  rewrite Z.compare_opp, (Z.compare_antisym e1 e2).
  destruct (e1 ?= e2); reflexivity.
Qed.

Lemma lexcmp_lt (a b : Z * Z * Z) : lexcmp a b = Lt <-> lt3 a b.
Proof.
  destruct a as [[c1 x1] y1], b as [[c2 x2] y2]. unfold lexcmp, lt3.
  destruct (Z.compare_spec c1 c2), (Z.compare_spec x1 x2), (Z.compare_spec y1 y2);
    split; intros Hx; try discriminate; try reflexivity; try lia.
Qed.

Lemma lexcmp_le (a b : Z * Z * Z) : lexcmp a b <> Gt <-> ~ lt3 b a.
Proof.
  destruct a as [[c1 x1] y1], b as [[c2 x2] y2]. unfold lexcmp, lt3.
  destruct (Z.compare_spec c1 c2), (Z.compare_spec x1 x2), (Z.compare_spec y1 y2);
    split; intros Hx; try discriminate; try congruence; try lia.
Qed.

Lemma ltb_rank (x y : float) :
  PrimFloat.ltb x y = true <->
  exists a b, rank x = Some a /\ rank y = Some b /\ lt3 a b.
Proof.
  rewrite ltb_spec. unfold SFltb, rank. rewrite SFcompare_lex.
  destruct (lex (Prim2SF x)) as [a|], (lex (Prim2SF y)) as [b|];
    try (split; [discriminate|intros (? & ? & ? & ? & ?); discriminate]).
  split.
  - intros H. exists a, b. split; [done|]. split; [done|].
    apply lexcmp_lt. by destruct (lexcmp a b).
  - intros (a' & b' & [= <-] & [= <-] & H). apply lexcmp_lt in H. by rewrite H.
Qed.

Lemma leb_rank (x y : float) :
  PrimFloat.leb x y = true <->
  exists a b, rank x = Some a /\ rank y = Some b /\ ~ lt3 b a.
Proof.
  rewrite leb_spec. unfold SFleb, rank. rewrite SFcompare_lex.
  destruct (lex (Prim2SF x)) as [a|], (lex (Prim2SF y)) as [b|];
    try (split; [discriminate|intros (? & ? & ? & ? & ?); discriminate]).
  split.
  - intros H. exists a, b. split; [done|]. split; [done|].
    apply lexcmp_le. by destruct (lexcmp a b).
  - intros (a' & b' & [= <-] & [= <-] & H). apply lexcmp_le in H.
    by destruct (lexcmp a b).
Qed.

Lemma eqb_rank (x : float) :
  PrimFloat.eqb x x = true -> exists a, rank x = Some a.
Proof.
  rewrite eqb_spec. unfold SFeqb, rank. rewrite SFcompare_lex.
  destruct (lex (Prim2SF x)) as [a|]; [by exists a|discriminate].
Qed.

Lemma lt3_trans a b c : lt3 a b -> lt3 b c -> lt3 a c.
Proof. destruct a as [[? ?] ?], b as [[? ?] ?], c as [[? ?] ?]. unfold lt3. lia. Qed.

Lemma lt3_irrefl a : ~ lt3 a a.
Proof. destruct a as [[? ?] ?]. unfold lt3. lia. Qed.

Lemma lt3_total a b c : ~ lt3 a b -> ~ lt3 b c -> ~ lt3 a c.
Proof. destruct a as [[? ?] ?], b as [[? ?] ?], c as [[? ?] ?]. unfold lt3. lia. Qed.

(** A candidate that replaces the best one stays ahead of what the best
    one was ahead of. *)
Lemma ltb_raise (a b c : float) :
  PrimFloat.ltb a b = false -> PrimFloat.ltb a c = true -> PrimFloat.ltb c b = false.
Proof.
  intros Hab Hac. apply ltb_rank in Hac as (ra & rc & Ha & Hc & Hlt).
  apply not_true_is_false. intros Hcb.
  apply ltb_rank in Hcb as (rc' & rb & Hc' & Hb & Hlt').
  rewrite Hc in Hc'. injection Hc' as <-.
  assert (PrimFloat.ltb a b = true); [|congruence].
  apply ltb_rank. exists ra, rb. split; [done|]. split; [done|].
  by eapply lt3_trans.
Qed.

Lemma ltb_irrefl (a : float) : PrimFloat.ltb a a = false.
Proof.
  apply not_true_is_false. intros H.
  apply ltb_rank in H as (ra & ra' & Ha & Ha' & Hlt).
  rewrite Ha in Ha'. injection Ha' as <-. by apply lt3_irrefl in Hlt.
Qed.

(** What the best score does not reach, no score below it reaches. *)
Lemma below_threshold (t b s : float) :
  PrimFloat.eqb b b = true ->
  PrimFloat.ltb b s = false -> PrimFloat.leb t b = false ->
  PrimFloat.leb t s = false.
Proof.
  intros Hb Hbs Htb. apply eqb_rank in Hb as [rb Hb].
  apply not_true_is_false. intros Hts.
  apply leb_rank in Hts as (rt & rs & Ht & Hs & Hle).
  assert (PrimFloat.leb t b = true); [|congruence].
  apply leb_rank. exists rt, rb. split; [done|]. split; [done|].
  intros Hlt. 
  assert (Hnbs : ~ lt3 rb rs).
  { intros H. assert (PrimFloat.ltb b s = true); [|congruence].
    apply ltb_rank. by exists rb, rs. }
  destruct rt as [[? ?] ?], rs as [[? ?] ?], rb as [[? ?] ?]. unfold lt3 in *. lia.
Qed.

Section FuzzyFacts.
Variable token_sort_ratio : string -> string -> Z.
Variable partial_ratio : string -> string -> Z.

Let score := score_of token_sort_ratio partial_ratio.

Lemma pair_score_six (o v : row) :
  length o = 6%nat -> length v = 6%nat ->
  pair_score token_sort_ratio partial_ratio o v = Ok (score o v).
Proof.
  intros Ho Hv. unfold pair_score.
  rewrite !index_nth by lia. reflexivity.
Qed.

(** The candidate the inner loop ends with is the one it started with
    or an unused row of the list, with its score and its changed
    fields. *)
Lemma inner_loop_spec (o : row) (used : gset nat) (items : list (nat * row)) :
  length o = 6%nat ->
  (forall i v, In (i, v) items -> length v = 6%nat) ->
  forall b, exists b',
    inner_loop token_sort_ratio partial_ratio o used items b = Ok b' /\
    (b' = b \/
     exists i v, In (i, v) items /\ (i ∉ used) /\
                 b' = mk_best (Some (i, v)) (score o v) (diff all_fields o v)).
Proof.
  intros Ho. induction items as [|[i v] items IH]; intros Hit b.
  - exists b. by split; [|left].
  - assert (Hit' : forall i v, In (i, v) items -> length v = 6%nat).
    { intros i' v' H. eapply Hit. by right. }
    assert (Hv : length v = 6%nat) by (eapply Hit; by left).
    cbn [inner_loop].
    destruct (bool_decide (i ∈ used)) eqn:Eu.
    + destruct (IH Hit' b) as (b' & Hb' & Hcase).
      exists b'. split; [done|]. destruct Hcase as [->|(i' & v' & ? & ? & ?)];
        [by left|]. right. exists i', v'. split; [by right|done].
    + apply bool_decide_eq_false in Eu.
      rewrite (pair_score_six o v Ho Hv).
      rewrite (six_fields all_fields o v Ho Hv all_fields_range).
      cbn [bind].
      destruct (PrimFloat.ltb (best_score b) (score o v)).
      * destruct (IH Hit' (mk_best (Some (i, v)) (score o v) (diff all_fields o v)))
          as (b' & Hb' & Hcase).
        exists b'. split; [done|]. right.
        destruct Hcase as [->|(i' & v' & ? & ? & ?)].
        -- exists i, v. split; [by left|done].
        -- exists i', v'. split; [by right|done].
      * destruct (IH Hit' b) as (b' & Hb' & Hcase).
        exists b'. split; [done|]. destruct Hcase as [->|(i' & v' & ? & ? & ?)];
          [by left|]. right. exists i', v'. split; [by right|done].
Qed.

Lemma threshold_not_reached_by_zero :
  PrimFloat.leb similarity_threshold (best_score no_match) = false.
Proof. reflexivity. Qed.

Lemma outer_loop_spec (uv : list row) :
  NoDup uv ->
  (forall v, In v uv -> length v = 6%nat) ->
  forall rest s,
    (forall o, In o rest -> length o = 6%nat) ->
    claims uv s ->
    exists s',
      outer_loop token_sort_ratio partial_ratio uv rest s = Ok s' /\
      claims uv s' /\
      Permutation (map original_of (fuzzy_rewritten s') ++ removed_cards s')
                  (map original_of (fuzzy_rewritten s) ++ removed_cards s ++ rest) /\
      (forall rec, In rec (fuzzy_rewritten s') ->
                   In rec (fuzzy_rewritten s) \/
                   (In (original_of rec) rest /\ fuzzy_record token_sort_ratio partial_ratio uv rec)) /\
      (forall o, In o rest ->
                 (forall v, In v uv ->
                            PrimFloat.leb similarity_threshold (score o v) = false) ->
                 In o (removed_cards s')) /\
      (forall o, In o (removed_cards s) -> In o (removed_cards s')).
Proof.
  intros Hnd Huv. induction rest as [|o rest IH]; intros s Hrest Hcl.
  - exists s. split; [done|]. split; [done|].
    rewrite app_nil_r. split; [done|]. split; [by left|]. split; [by intros ? []|done].
  - assert (Ho : length o = 6%nat) by (apply Hrest; by left).
    assert (Hrest' : forall o', In o' rest -> length o' = 6%nat).
    { intros o' H. apply Hrest. by right. }
    cbn [outer_loop].
    destruct (inner_loop_spec o (used_verified_indices s) (enumerate uv) Ho
                ltac:(intros i v H; apply Huv; by eapply enumerate_in_row)
                no_match) as (b & Hb & Hcase).
    rewrite Hb. cbn [bind].
    destruct (PrimFloat.leb similarity_threshold (best_score b)) eqn:Eth.
    + destruct Hcase as [->|(i & v & Hin & Hunused & ->)];
        [by rewrite threshold_not_reached_by_zero in Eth|].
      cbn [best_match best_score best_changed_fields] in *.
      set (rec := (o, v, diff all_fields o v, score o v)).
      assert (Hv : In v uv) by (by eapply enumerate_in_row).
      assert (Hfresh : ~ In v (map verified_of (fuzzy_rewritten s))).
      { intros H. apply Hunused. apply Hcl. by exists v. }
      assert (Hcl' : claims uv (mk_fuzzy (fuzzy_rewritten s ++ [rec])
                                  (removed_cards s)
                                  ({[ i ]} ∪ used_verified_indices s))).
      { destruct Hcl as [Hnd' Hused]. split; cbn [fuzzy_rewritten used_verified_indices].
        - rewrite map_app. apply NoDup_app; [done| |].
          + repeat constructor. by intros [].
          + intros x Hx [<-|[]]. by apply Hfresh.
        - intros j. rewrite elem_of_union, elem_of_singleton, Hused, map_app.
          split.
          + intros [->|(w & ? & ?)].
            * exists v. split; [done|]. apply in_or_app. right. by left.
            * exists w. split; [done|]. apply in_or_app. by left.
          + intros (w & Hjw & Hw). apply in_app_or in Hw as [Hw|[<-|[]]].
            * right. by exists w.
            * left. by eapply (enumerate_injective uv j i). }
      destruct (IH _ Hrest' Hcl') as (s' & Hs' & Hcl'' & Hperm & Hrecs & Hrem & Hmono).
      exists s'. split; [done|]. split; [done|].
      cbn [fuzzy_rewritten removed_cards] in *. split.
      { etrans; [exact Hperm|]. rewrite map_app, <- app_assoc.
        apply Permutation_app_head. cbn [map app original_of rec fst].
        apply Permutation_middle. }
      split.
      { intros r Hr. destruct (Hrecs r Hr) as [H|[H1 H2]].
        - apply in_app_or in H as [H|[<-|[]]]; [by left|].
          right. split; [by left|]. by exists o, v.
        - right. split; [by right|done]. }
      split; [|done].
      intros o' [<-|Ho'] Hlow; [|by apply Hrem].
      rewrite (Hlow v Hv) in Eth. done.
    + destruct (IH (mk_fuzzy (fuzzy_rewritten s) (removed_cards s ++ [o])
                      (used_verified_indices s)) Hrest' Hcl)
        as (s' & Hs' & Hcl'' & Hperm & Hrecs & Hrem & Hmono).
      exists s'. split; [done|]. split; [done|].
      cbn [fuzzy_rewritten removed_cards] in *. split.
      { etrans; [exact Hperm|]. by rewrite <- app_assoc. }
      split.
      { intros r Hr. destruct (Hrecs r Hr) as [H|[H1 H2]]; [by left|].
        right. split; [by right|done]. }
      split.
      * intros o' [<-|Ho'] Hlow; [|by apply Hrem].
        apply Hmono, in_or_app. right. by left.
      * intros o' Ho'. apply Hmono, in_or_app. by left.
Qed.

(** The rows never claimed, with the rows claimed, are the unpaired
    verified rows. *)
Lemma never_claimed_spec (uv : list row) (s : fuzzy_state) :
  NoDup uv -> claims uv s ->
  (forall v, In v (map verified_of (fuzzy_rewritten s)) -> In v uv) ->
  Permutation (map verified_of (fuzzy_rewritten s)
               ++ never_claimed uv (used_verified_indices s)) uv.
Proof.
  intros Hnd [Hndv Hused] Hsub.
  assert (Hadd : forall v, In v (never_claimed uv (used_verified_indices s)) <->
                           In v uv /\ ~ In v (map verified_of (fuzzy_rewritten s))).
  { intros v. unfold never_claimed. rewrite in_map_iff. split.
    - intros ([i w] & Hw & Hin). simpl in Hw. subst w.
      apply filter_In in Hin as [Hin Hun]. simpl in Hun.
      apply negb_true_iff, bool_decide_eq_false in Hun.
      split; [by eapply enumerate_in_row|].
      intros Hv. apply Hun, Hused. by exists v.
    - intros [Hv Hnot]. destruct (enumerate_row_in uv v Hv) as [i Hi].
      exists (i, v). split; [done|]. apply filter_In. split; [done|].
      simpl. apply negb_true_iff, bool_decide_eq_false.
      intros Hu. apply Hused in Hu as (w & Hiw & Hw).
      apply Hnot. by rewrite (enumerate_functional uv i v w). }
  apply Stdlib.Sorting.Permutation.NoDup_Permutation; [|done|].
  - apply NoDup_app; [done| |].
    + unfold never_claimed. apply NoDup_map_filter.
      unfold enumerate. by rewrite enumerate_snd.
    + intros v Hv Hv'. apply Hadd in Hv' as [_ Hnot]. by apply Hnot.
  - intros v. rewrite in_app_iff, Hadd. split.
    + intros [Hv|[Hv _]]; [by apply Hsub|done].
    + intros Hv.
      destruct (in_dec (list_eq_dec string_dec) v
                  (map verified_of (fuzzy_rewritten s))); [by left|by right].
Qed.

Lemma only_in_in (a b : list (key * row)) (r : row) :
  In r (only_in a b) -> exists k, In (k, r) a.
Proof.
  unfold only_in. rewrite in_map_iff. intros ([k r'] & Hr & Hin).
  simpl in Hr. subst r'. apply filter_In in Hin as [Hin _]. by exists k.
Qed.

(** The keys matched by the exact pass are the keys of both decks, so
    the rows left unpaired are the rows whose key the other deck does not
    have. *)
Lemma unpaired_only_in (od vd : list (key * row)) (M : gset key) :
  (forall k, k ∈ M <-> In k (map fst vd) /\ dict_lookup od k <> None) ->
  unpaired od M = only_in od vd /\ unpaired vd M = only_in vd od.
Proof.
  intros HM. unfold unpaired, only_in. split; f_equal; apply filter_ext_in.
  - intros [k r] Hin. cbn [fst].
    assert (Hk : dict_lookup od k <> None).
    { rewrite dict_lookup_none. intros H. apply H, in_map_iff. by exists (k, r). }
    destruct (dict_lookup vd k) as [v|] eqn:E.
    + apply negb_false_iff, bool_decide_eq_true, HM. split; [|done].
      apply dict_lookup_in in E. apply in_map_iff. by exists (k, v).
    + apply negb_true_iff, bool_decide_eq_false. rewrite HM.
      intros [H _]. by apply dict_lookup_none in E.
  - intros [k v] Hin. cbn [fst].
    assert (Hk : In k (map fst vd)).
    { apply in_map_iff. by exists (k, v). }
    destruct (dict_lookup od k) as [o|] eqn:E.
    + apply negb_false_iff, bool_decide_eq_true, HM. split; [done|congruence].
    + apply negb_true_iff, bool_decide_eq_false. rewrite HM.
      intros [_ H]. done.
Qed.

(** On decks of six-field rows the reconciliation is the exact pass,
    as the specification words it, followed by the fuzzy pass over the
    rows left unpaired. *)
Lemma reconcile_six (oc vc : list row) :
  six oc -> six vc ->
  reconcile token_sort_ratio partial_ratio oc vc =
    bind (outer_loop token_sort_ratio partial_ratio
            (only_in (cards_dict vc) (cards_dict oc))
            (only_in (cards_dict oc) (cards_dict vc)) (mk_fuzzy [] [] ∅))
      (fun f =>
         Ok (mk_report (removed_cards f)
               (never_claimed (only_in (cards_dict vc) (cards_dict oc))
                  (used_verified_indices f))
               (flat_map (exact_record (cards_dict oc)) (cards_dict vc))
               (fuzzy_rewritten f)
               (length (filter (exact_unchanged (cards_dict oc)) (cards_dict vc))))).
Proof.
  intros Ho Hv. unfold reconcile.
  destruct (exact_loop_spec (cards_dict oc) (cards_dict vc)
              ltac:(intros k o H; apply dict_lookup_in in H;
                    exact (dict_six oc k o Ho H))
              ltac:(intros k v H; exact (dict_six vc k v Hv H))
              (mk_exact [] 0 ∅)) as (e & He & Hrw & Hun & Hm).
  rewrite He. cbn [bind]. cbn in Hrw, Hun.
  destruct (unpaired_only_in (cards_dict oc) (cards_dict vc) (matched_keys e))
    as [-> ->].
  { intros k. rewrite Hm. cbn. set_solver. }
  by rewrite Hrw, Hun.
Qed.

Lemma only_in_nodup (cards : list row) (b : list (key * row)) :
  NoDup (only_in (cards_dict cards) b).
Proof.
  unfold only_in. apply NoDup_map_filter.
  apply (dict_values_nodup cards), cards_dict_wf.
Qed.

Lemma only_in_six (cards : list row) (b : list (key * row)) (r : row) :
  six cards -> In r (only_in (cards_dict cards) b) -> length r = 6%nat.
Proof.
  intros H6 Hin. apply only_in_in in Hin as [k Hin].
  exact (dict_six cards k r H6 Hin).
Qed.

(** What the reconciliation reports on decks of six-field rows. *)
Lemma reconcile_spec (oc vc : list row) :
  six oc -> six vc ->
  exists r,
    reconcile token_sort_ratio partial_ratio oc vc = Ok r /\
    rewritten r = flat_map (exact_record (cards_dict oc)) (cards_dict vc) /\
    unchanged r = length (filter (exact_unchanged (cards_dict oc)) (cards_dict vc)) /\
    (forall rec, In rec (fuzzy r) ->
       In (original_of rec) (only_in (cards_dict oc) (cards_dict vc)) /\
       fuzzy_record token_sort_ratio partial_ratio
         (only_in (cards_dict vc) (cards_dict oc)) rec) /\
    Permutation (map original_of (fuzzy r) ++ removed r)
                (only_in (cards_dict oc) (cards_dict vc)) /\
    Permutation (map verified_of (fuzzy r) ++ added r)
                (only_in (cards_dict vc) (cards_dict oc)) /\
    (forall o, In o (only_in (cards_dict oc) (cards_dict vc)) ->
       (forall v, In v (only_in (cards_dict vc) (cards_dict oc)) ->
          PrimFloat.leb similarity_threshold (score o v) = false) ->
       In o (removed r)).
Proof.
  intros Ho Hv. rewrite (reconcile_six oc vc Ho Hv).
  set (uo := only_in (cards_dict oc) (cards_dict vc)).
  set (uv := only_in (cards_dict vc) (cards_dict oc)).
  destruct (outer_loop_spec uv (only_in_nodup vc _)
              ltac:(intros v H; exact (only_in_six vc _ v Hv H))
              uo (mk_fuzzy [] [] ∅)
              ltac:(intros o H; exact (only_in_six oc _ o Ho H)))
    as (f & Hf & Hcl & Hperm & Hrecs & Hrem & _).
  { split; [constructor|]. intros i. cbn. split; [set_solver|]. by intros (v & _ & []). }
  rewrite Hf. cbn [bind]. eexists. split; [done|].
  cbn [rewritten unchanged fuzzy removed added].
  cbn [fuzzy_rewritten removed_cards map app] in Hperm, Hrecs.
  split; [done|]. split; [done|].
  assert (Hfz : forall rec, In rec (fuzzy_rewritten f) ->
                            In (original_of rec) uo /\ fuzzy_record token_sort_ratio partial_ratio uv rec).
  { intros rec Hrec. by destruct (Hrecs rec Hrec) as [[]|?]. }
  split; [done|]. split; [done|]. split; [|done].
  apply never_claimed_spec; [apply only_in_nodup|done|].
  intros v Hin. apply in_map_iff in Hin as (rec & <- & Hrec).
  destruct (Hfz rec Hrec) as [_ (o & v' & -> & Hv' & _)]. done.
Qed.

(** The inner loop keeps the best score: no unused row of the list
    scores above the candidate it ends with. *)
Lemma inner_loop_best (o : row) (used : gset nat) (items : list (nat * row)) :
  length o = 6%nat ->
  (forall i v, In (i, v) items -> length v = 6%nat) ->
  forall b b',
    inner_loop token_sort_ratio partial_ratio o used items b = Ok b' ->
    (forall x, PrimFloat.ltb (best_score b) x = false ->
               PrimFloat.ltb (best_score b') x = false) /\
    (forall i v, In (i, v) items -> i ∉ used ->
                 PrimFloat.ltb (best_score b') (score o v) = false).
Proof.
  intros Ho. induction items as [|[i v] items IH]; intros Hit b b' Hrun.
  - injection Hrun as <-. split; [done|]. by intros ? ? [].
  - assert (Hit' : forall i v, In (i, v) items -> length v = 6%nat).
    { intros i' v' H. eapply Hit. by right. }
    assert (Hv : length v = 6%nat) by (eapply Hit; by left).
    cbn [inner_loop] in Hrun.
    destruct (bool_decide (i ∈ used)) eqn:Eu.
    + destruct (IH Hit' b b' Hrun) as [Hmono Hbest]. split; [done|].
      intros j w [[= <- <-]|Hin] Hj; [|by eapply Hbest].
      by apply bool_decide_eq_true in Eu.
    + rewrite (pair_score_six o v Ho Hv) in Hrun.
      rewrite (six_fields all_fields o v Ho Hv all_fields_range) in Hrun.
      cbn [bind] in Hrun.
      destruct (PrimFloat.ltb (best_score b) (score o v)) eqn:Elt.
      * destruct (IH Hit' _ b' Hrun) as [Hmono Hbest].
        cbn [best_score] in Hmono. split.
        -- intros x Hx. apply Hmono. by eapply ltb_raise.
        -- intros j w [[= <- <-]|Hin] Hj; [|by eapply Hbest].
           apply Hmono, ltb_irrefl.
      * destruct (IH Hit' b b' Hrun) as [Hmono Hbest]. split; [done|].
        intros j w [[= <- <-]|Hin] Hj; [|by eapply Hbest].
        by apply Hmono.
Qed.

(** The outer loop pairs each original row with its best candidate: a
    row never claimed scores no higher, for the original row of a fuzzy
    record, than the row the record pairs it with, and below the
    threshold for a removed row. *)
Lemma outer_loop_best (uv : list row) :
  (forall v, In v uv -> length v = 6%nat) ->
  forall rest s s',
    (forall o, In o rest -> length o = 6%nat) ->
    outer_loop token_sort_ratio partial_ratio uv rest s = Ok s' ->
    used_verified_indices s ⊆ used_verified_indices s' /\
    (forall rec, In rec (fuzzy_rewritten s') ->
       In rec (fuzzy_rewritten s) \/
       forall i v, In (i, v) (enumerate uv) -> i ∉ used_verified_indices s' ->
                   PrimFloat.ltb (score_in rec) (score (original_of rec) v) = false) /\
    ((forall o v, PrimFloat.eqb (score o v) (score o v) = true) ->
     forall o, In o (removed_cards s') ->
       In o (removed_cards s) \/
       forall i v, In (i, v) (enumerate uv) -> i ∉ used_verified_indices s' ->
                   PrimFloat.leb similarity_threshold (score o v) = false).
Proof.
  intros Huv. induction rest as [|o rest IH]; intros s s' Hrest Hrun.
  - injection Hrun as <-. split; [done|]. split; [by left|]. by left.
  - assert (Ho : length o = 6%nat) by (apply Hrest; by left).
    assert (Hrest' : forall o', In o' rest -> length o' = 6%nat).
    { intros o' H. apply Hrest. by right. }
    assert (Hit : forall i v, In (i, v) (enumerate uv) -> length v = 6%nat).
    { intros i v H. apply Huv. by eapply enumerate_in_row. }
    cbn [outer_loop] in Hrun.
    destruct (inner_loop_spec o (used_verified_indices s) (enumerate uv) Ho Hit
                no_match) as (b & Hb & Hcase).
    destruct (inner_loop_best o (used_verified_indices s) (enumerate uv) Ho Hit
                no_match b Hb) as [_ Hbest].
    rewrite Hb in Hrun. cbn [bind] in Hrun.
    destruct (PrimFloat.leb similarity_threshold (best_score b)) eqn:Eth.
    + destruct Hcase as [->|(i & v & Hin & Hunused & ->)];
        [by rewrite threshold_not_reached_by_zero in Eth|].
      cbn [best_match best_score best_changed_fields] in *.
      destruct (IH _ s' Hrest' Hrun) as (Hsub & Hfz & Hrm).
      cbn [fuzzy_rewritten removed_cards used_verified_indices] in *.
      split; [set_solver|]. split; [|done].
      intros rec Hrec. destruct (Hfz rec Hrec) as [H|H]; [|by right].
      apply in_app_or in H as [H|[<-|[]]]; [by left|]. right.
      intros j w Hjw Hj. cbn [score_in original_of fst snd].
      apply (Hbest j w Hjw). set_solver.
    + destruct (IH _ s' Hrest' Hrun) as (Hsub & Hfz & Hrm).
      cbn [fuzzy_rewritten removed_cards used_verified_indices] in *.
      split; [done|]. split; [done|].
      intros Hnum o' Ho'. destruct (Hrm Hnum o' Ho') as [H|H]; [|by right].
      apply in_app_or in H as [H|[<-|[]]]; [by left|]. right.
      intros j w Hjw Hj.
      apply (below_threshold similarity_threshold (best_score b)); [| |done].
      * destruct Hcase as [->|(i & v & _ & _ & ->)]; [done|]. apply Hnum.
      * apply (Hbest j w Hjw). set_solver.
Qed.

(** On decks of six-field rows, a row reported as added scores no
    higher against the original row of a fuzzy record than the row the
    record pairs it with; and, the scores being numbers, a row reported as
    removed and a row reported as added score below the threshold. *)
Lemma reconcile_best (oc vc : list row) (r : report) :
  six oc -> six vc ->
  reconcile token_sort_ratio partial_ratio oc vc = Ok r ->
  (forall rec v, In rec (fuzzy r) -> In v (added r) ->
     PrimFloat.ltb (score_in rec) (score (original_of rec) v) = false) /\
  ((forall o v, PrimFloat.eqb (score o v) (score o v) = true) ->
   forall o v, In o (removed r) -> In v (added r) ->
     PrimFloat.leb similarity_threshold (score o v) = false).
Proof.
  intros Ho Hv. rewrite (reconcile_six oc vc Ho Hv).
  set (uo := only_in (cards_dict oc) (cards_dict vc)).
  set (uv := only_in (cards_dict vc) (cards_dict oc)).
  destruct (outer_loop token_sort_ratio partial_ratio uv uo (mk_fuzzy [] [] ∅))
    as [f|e] eqn:Hf; [|discriminate].
  cbn [bind]. intros [= <-]. cbn [fuzzy removed added].
  destruct (outer_loop_best uv
              ltac:(intros v H; exact (only_in_six vc _ v Hv H))
              uo (mk_fuzzy [] [] ∅) f
              ltac:(intros o H; exact (only_in_six oc _ o Ho H)) Hf)
    as (_ & Hfz & Hrm).
  cbn [fuzzy_rewritten removed_cards] in Hfz, Hrm.
  assert (Hadd : forall v, In v (never_claimed uv (used_verified_indices f)) ->
                 exists i, In (i, v) (enumerate uv) /\ i ∉ used_verified_indices f).
  { intros v. unfold never_claimed. rewrite in_map_iff.
    intros ([i w] & Hw & Hin). simpl in Hw. subst w.
    apply filter_In in Hin as [Hin Hun]. simpl in Hun.
    apply negb_true_iff, bool_decide_eq_false in Hun. by exists i. }
  split.
  - intros rec v Hrec Hin. apply Hadd in Hin as (i & Hi & Hun).
    destruct (Hfz rec Hrec) as [[]|H]. by apply (H i v).
  - intros Hnum o v Hrem Hin. apply Hadd in Hin as (i & Hi & Hun).
    destruct (Hrm Hnum o Hrem) as [[]|H]. by apply (H i v).
Qed.

End FuzzyFacts.

(** *** Logging and the value returned *)

Lemma fields6_six (card : row) : length card = 6%nat -> fields6 card = Ok card.
Proof.
  intros H.
  destruct card as [|f0 [|f1 [|f2 [|f3 [|f4 [|f5 [|]]]]]]]; try done.
Qed.

Lemma log_cards_six (mk : list string -> log_record) (cards : list row) :
  six cards ->
  log_cards mk cards = (map (fun c => EvLog (mk c)) cards, Ok tt).
Proof.
  induction 1 as [|c cards Hc Hcs IH]; [done|].
  cbn [log_cards map]. rewrite (fields6_six c Hc), IH. reflexivity.
Qed.

Lemma log_rewrites_six (l : list rewrite) :
  Forall (fun rec => length (original_of rec) = 6%nat /\
                     length (verified_of rec) = 6%nat) l ->
  log_rewrites l = (map rewrite_line l, Ok tt).
Proof.
  induction 1 as [|[[[o v] ch] sc] l [Ho Hv] Hl IH]; [done|].
  cbn [log_rewrites map]. cbn in Ho, Hv.
  rewrite (fields6_six o Ho), (fields6_six v Hv), IH. reflexivity.
Qed.

Lemma exact_record_six (oc vc : list row) (rec : rewrite) :
  six oc -> six vc ->
  In rec (flat_map (exact_record (cards_dict oc)) (cards_dict vc)) ->
  exists k o v,
    dict_lookup (cards_dict oc) k = Some o /\ In (k, v) (cards_dict vc) /\
    diff answer_fields o v <> [] /\
    rec = (o, v, diff answer_fields o v, 100%float) /\
    length o = 6%nat /\ length v = 6%nat.
Proof.
  intros Ho Hv Hin. apply in_flat_map in Hin as ([k v] & Hkv & Hin).
  unfold exact_record in Hin. cbn [fst snd] in Hin.
  destruct (dict_lookup (cards_dict oc) k) as [o|] eqn:E; [|done].
  destruct (diff answer_fields o v) as [|c cs] eqn:Ed; [done|].
  destruct Hin as [<-|[]]. exists k, o, v. rewrite Ed.
  repeat split; try done.
  - apply dict_lookup_in in E. exact (dict_six oc k o Ho E).
  - exact (dict_six vc k v Hv Hkv).
Qed.

Section VerifierFacts.
Variable token_sort_ratio : string -> string -> Z.
Variable partial_ratio : string -> string -> Z.
Variable json_loads : string -> option pyval.
Variable PROMPT : string -> string -> string.

Let verify := verify_csv token_sort_ratio partial_ratio json_loads PROMPT.

(** The log of a report whose rows all have six fields is written
    without an exception. *)
Lemma log_report_six (oc vc : list row) (r : report) :
  six oc -> six vc ->
  reconcile token_sort_ratio partial_ratio oc vc = Ok r ->
  snd (log_report r) = Ok tt.
Proof.
  intros Ho Hv Hr.
  destruct (reconcile_spec token_sort_ratio partial_ratio oc vc Ho Hv)
    as (r' & Hr' & Hrw & Hun & Hfz & Hpo & Hpv & _).
  rewrite Hr in Hr'. injection Hr' as <-.
  assert (Hrem : six (removed r)).
  { apply Forall_forall. intros o Hin.
    apply (only_in_six oc (cards_dict vc)); [done|].
    eapply Permutation_in; [exact Hpo|]. apply in_or_app. by right. }
  assert (Hadd : six (added r)).
  { apply Forall_forall. intros v Hin.
    apply (only_in_six vc (cards_dict oc)); [done|].
    eapply Permutation_in; [exact Hpv|]. apply in_or_app. by right. }
  assert (Hrecs : Forall (fun rec => length (original_of rec) = 6%nat /\
                                     length (verified_of rec) = 6%nat)
                    (rewritten r ++ fuzzy r)).
  { apply Forall_app. split; apply Forall_forall; intros rec Hin.
    - rewrite Hrw in Hin.
      destruct (exact_record_six oc vc rec Ho Hv Hin)
        as (k & o & v & _ & _ & _ & -> & ? & ?). done.
    - destruct (Hfz rec Hin) as [Horig (o & v & -> & Hvin & _)].
      split; [exact (only_in_six oc _ _ Ho Horig)|exact (only_in_six vc _ _ Hv Hvin)]. }
  unfold log_report, iobind.
  rewrite (log_cards_six _ _ Hrem). cbn [snd fst after].
  rewrite (log_cards_six _ _ Hadd). cbn [snd fst after].
  rewrite (log_rewrites_six _ Hrecs). reflexivity.
Qed.

(** The fail-safe of [verify_csv], and what it returns on decks of
    six-field rows. *)
Lemma verify_csv_returns (client : option model) (full_text csv_text : string) :
  (forall e, read_cards csv_text = Raise e ->
     verify client full_text csv_text
       = ([EvLog (LogCsvParseError true e)], Ok csv_text)) /\
  (forall oc verified e,
     read_cards csv_text = Ok oc ->
     snd (_gen json_loads client (PROMPT full_text csv_text) "default") = Ok verified ->
     read_cards verified = Raise e ->
     snd (verify client full_text csv_text) = Ok csv_text) /\
  (forall oc verified vc,
     read_cards csv_text = Ok oc ->
     snd (_gen json_loads client (PROMPT full_text csv_text) "default") = Ok verified ->
     read_cards verified = Ok vc ->
     six oc -> six vc ->
     snd (verify client full_text csv_text) = Ok verified).
Proof.
  unfold verify, verify_csv. split; [|split].
  - intros e ->. reflexivity.
  - intros oc verified e -> Hg Hv. rewrite (iobind_ok _ _ _ Hg), Hv. reflexivity.
  - intros oc verified vc -> Hg Hv Ho6 Hv6.
    rewrite (iobind_ok _ _ _ Hg), Hv.
    destruct (reconcile_spec token_sort_ratio partial_ratio oc vc Ho6 Hv6)
      as (r & Hr & _).
    pose proof (log_report_six oc vc r Ho6 Hv6 Hr) as Hlog.
    unfold after. cbn [snd]. unfold iobind at 1. unfold lift at 1. cbn [snd fst].
    rewrite Hr. unfold after. cbn [snd]. unfold iobind at 1. rewrite Hlog. reflexivity.
Qed.

End VerifierFacts.

(** C3. The original deck [card_a1] and the answer [short_row_answer]
    both parse, and [verify_csv] ends with an [IndexError] raised while
    the changed fields are listed: it returns neither text. *)
Theorem C3_short_row_raises (token_sort_ratio partial_ratio : string -> string -> Z)
    (json_loads : string -> option pyval) (PROMPT : string -> string -> string)
    (full_text : string) :
  read_cards (deck [card_a1]) = Ok [card_a1] /\
  read_cards (strip short_row_answer) = Ok [["Math"; "Algebra"; "Q1"; "A2"]] /\
  snd (_gen json_loads (Some (answering short_row_answer))
         (PROMPT full_text (deck [card_a1])) "default") = Ok (strip short_row_answer) /\
  snd (verify_csv token_sort_ratio partial_ratio json_loads PROMPT
         (Some (answering short_row_answer)) full_text (deck [card_a1]))
    = Raise IndexError.
Proof.
  split; [by vm_compute|]. split; [by vm_compute|]. split; [by vm_compute|].
  assert (Hg : snd (_gen json_loads (Some (answering short_row_answer))
                      (PROMPT full_text (deck [card_a1])) "default")
               = Ok (strip short_row_answer)) by (by vm_compute).
  unfold verify_csv.
  replace (read_cards (deck [card_a1])) with (Ok [card_a1]) by (by vm_compute).
  rewrite (iobind_ok _ _ _ Hg).
  replace (read_cards (strip short_row_answer))
    with (Ok [["Math"; "Algebra"; "Q1"; "A2"]]) by (by vm_compute).
  reflexivity.
Qed.

(** C6. On decks of six-field rows the reconciliation succeeds, and a
    key of both decks gives a record "rewritten, score 100" that lists the
    fields among Answer, Source and Details that differ when there is one,
    and no record (the pair is counted as unchanged) otherwise. For the
    deck [card_a1] verified as [card_a2] the log holds one rewritten
    record with the changed field Answer, the summary counts no removed
    and no added card, and the text returned is the verified text. *)
Theorem C6_exact_matches (token_sort_ratio partial_ratio : string -> string -> Z)
    (json_loads : string -> option pyval) (PROMPT : string -> string -> string)
    (original_cards verified_cards : list row) :
  (six original_cards -> six verified_cards ->
   exists r,
     reconcile token_sort_ratio partial_ratio original_cards verified_cards = Ok r /\
     unchanged r =
       length (filter (exact_unchanged (cards_dict original_cards))
                 (cards_dict verified_cards)) /\
     (forall rec, In rec (rewritten r) -> snd rec = 100%float) /\
     forall k o v,
       dict_lookup (cards_dict original_cards) k = Some o ->
       dict_lookup (cards_dict verified_cards) k = Some v ->
       match diff answer_fields o v with
       | [] =>
           exact_unchanged (cards_dict original_cards) (k, v) = true /\
           forall rec, In rec (rewritten r) ->
                       ~ (original_of rec = o /\ verified_of rec = v)
       | changed => In (o, v, changed, 100%float) (rewritten r)
       end) /\
  verify_csv token_sort_ratio partial_ratio json_loads PROMPT
    (Some (answering (deck [card_a2]))) "source" (deck [card_a1])
  = ([EvCall (PROMPT "source" (deck [card_a1])) 0;
      EvLog (LogRewrote true 100 ["Answer"] card_a1 card_a2);
      EvLog (LogSummary 0 0 1 0 0)],
     Ok (strip (deck [card_a2]))).
Proof.
  split.
  - intros Ho Hv.
    destruct (reconcile_spec token_sort_ratio partial_ratio
                original_cards verified_cards Ho Hv)
      as (r & Hr & Hrw & Hun & _).
    exists r. split; [done|]. split; [done|]. split.
    { intros rec Hin. rewrite Hrw in Hin.
      destruct (exact_record_six _ _ rec Ho Hv Hin)
        as (k & o & v & _ & _ & _ & -> & _). done. }
    intros k o v Hko Hkv.
    destruct (diff answer_fields o v) as [|c cs] eqn:Ed.
    + split.
      * unfold exact_unchanged. cbn [fst snd]. by rewrite Hko, Ed.
      * intros rec Hin [Eo Ev]. rewrite Hrw in Hin.
        destruct (exact_record_six _ _ rec Ho Hv Hin)
          as (k' & o' & v' & _ & _ & Hd & -> & _).
        cbn in Eo, Ev. subst. by apply Hd.
    + rewrite Hrw. apply in_flat_map. exists (k, v).
      split; [by apply dict_lookup_in|].
      unfold exact_record. cbn [fst snd]. rewrite Hko, Ed. by left.
  - assert (Hg : _gen json_loads (Some (answering (deck [card_a2])))
                   (PROMPT "source" (deck [card_a1])) "default"
                 = ([EvCall (PROMPT "source" (deck [card_a1])) 0],
                    Ok (strip (deck [card_a2])))) by (by vm_compute).
    unfold verify_csv.
    replace (read_cards (deck [card_a1])) with (Ok [card_a1]) by (by vm_compute).
    unfold iobind at 1. rewrite Hg. cbn [snd fst].
    replace (read_cards (strip (deck [card_a2]))) with (Ok [card_a2])
      by (by vm_compute).
    reflexivity.
Qed.

Lemma C6_exact_matches_witness :
  exists r,
    reconcile (always 0) (always 0) [card_a1] [card_a2] = Ok r /\
    unchanged r =
      length (filter (exact_unchanged (cards_dict [card_a1])) (cards_dict [card_a2])) /\
    (forall rec, In rec (rewritten r) -> snd rec = 100%float) /\
    forall k o v,
      dict_lookup (cards_dict [card_a1]) k = Some o ->
      dict_lookup (cards_dict [card_a2]) k = Some v ->
      match diff answer_fields o v with
      | [] =>
          exact_unchanged (cards_dict [card_a1]) (k, v) = true /\
          forall rec, In rec (rewritten r) ->
                      ~ (original_of rec = o /\ verified_of rec = v)
      | changed => In (o, v, changed, 100%float) (rewritten r)
      end.
Proof.
  apply (proj1 (C6_exact_matches (always 0) (always 0) toy_json
                  (fun a b => a +:+ b) [card_a1] [card_a2]));
    repeat constructor.
Defined.

Lemma percent_in (z : Z) : 0 <= z <= 100 -> In z percent.
Proof.
  intros H. unfold percent. apply in_map_iff. exists (Z.to_nat z).
  split; [lia|]. apply in_seq. lia.
Qed.

(** Checked on the 101^3 triples of percentages: a blend that reaches
    the threshold is above zero. *)
Lemma threshold_positive_check :
  forallb (fun a =>
    forallb (fun b =>
      forallb (fun c =>
        implb (PrimFloat.leb similarity_threshold (overall_sim a b c))
              (PrimFloat.ltb 0%float (overall_sim a b c)))
        percent) percent) percent = true.
Proof. vm_compute. reflexivity. Qed.

Lemma threshold_positive (a b c : Z) :
  0 <= a <= 100 -> 0 <= b <= 100 -> 0 <= c <= 100 ->
  PrimFloat.leb similarity_threshold (overall_sim a b c) = true ->
  PrimFloat.ltb 0%float (overall_sim a b c) = true.
Proof.
  intros Ha Hb Hc Hth. pose proof threshold_positive_check as H.
  rewrite forallb_forall in H. specialize (H a (percent_in a Ha)).
  rewrite forallb_forall in H. specialize (H b (percent_in b Hb)).
  rewrite forallb_forall in H. specialize (H c (percent_in c Hc)).
  by rewrite Hth in H.
Qed.

(** Checked on the 101^3 triples of percentages: a blend is a number. *)
Lemma number_check :
  forallb (fun a =>
    forallb (fun b =>
      forallb (fun c =>
        PrimFloat.eqb (overall_sim a b c) (overall_sim a b c))
        percent) percent) percent = true.
Proof. vm_compute. reflexivity. Qed.

Lemma score_number (token_sort_ratio partial_ratio : string -> string -> Z) :
  percentage token_sort_ratio -> percentage partial_ratio ->
  forall o v,
    PrimFloat.eqb (score_of token_sort_ratio partial_ratio o v)
                  (score_of token_sort_ratio partial_ratio o v) = true.
Proof.
  intros Ht Hp o v. unfold score_of.
  set (q1 := normalize_text (nth 2 o "")). set (q2 := normalize_text (nth 2 v "")).
  set (t1 := normalize_text (nth 0 o "")). set (t2 := normalize_text (nth 0 v "")).
  pose proof number_check as H.
  rewrite forallb_forall in H.
  specialize (H (token_sort_ratio q1 q2) (percent_in _ (Ht q1 q2))).
  rewrite forallb_forall in H.
  specialize (H (partial_ratio q1 q2) (percent_in _ (Hp q1 q2))).
  rewrite forallb_forall in H.
  exact (H (token_sort_ratio t1 t2) (percent_in _ (Ht t1 t2))).
Qed.

(** One unpaired original row and one unpaired verified row whose score
    reaches the threshold: one fuzzy record, nothing removed, nothing
    added. *)
Lemma single_pair (token_sort_ratio partial_ratio : string -> string -> Z)
    (o v : row) :
  length o = 6%nat -> length v = 6%nat ->
  percentage token_sort_ratio -> percentage partial_ratio ->
  PrimFloat.leb similarity_threshold
    (score_of token_sort_ratio partial_ratio o v) = true ->
  outer_loop token_sort_ratio partial_ratio [v] [o] (mk_fuzzy [] [] ∅)
    = Ok (mk_fuzzy [(o, v, diff all_fields o v,
                     score_of token_sort_ratio partial_ratio o v)] []
            ({[ 0%nat ]} ∪ ∅)) /\
  never_claimed [v] ({[ 0%nat ]} ∪ ∅) = [].
Proof.
  intros Ho Hv Ht Hp Hth. split.
  - cbn [outer_loop enumerate enumerate_from inner_loop used_verified_indices].
    rewrite bool_decide_eq_false_2 by set_solver.
    rewrite (pair_score_six token_sort_ratio partial_ratio o v Ho Hv).
    rewrite (six_fields all_fields o v Ho Hv all_fields_range).
    cbn [bind best_score no_match].
    unfold score_of in *. rewrite threshold_positive; [|apply Ht|apply Hp|apply Ht|done].
    cbn [best_score best_match best_changed_fields bind].
    rewrite Hth. reflexivity.
  - unfold never_claimed. cbn [enumerate enumerate_from filter fst].
    rewrite bool_decide_eq_true_2 by set_solver. reflexivity.
Qed.

(** C7. On decks of six-field rows: every fuzzy record pairs an
    unpaired original row with an unpaired verified row, carries their
    weighted score, which is at least 80, and lists the fields that differ
    among the six; each unpaired original row is in exactly one of the
    fuzzy records and the removed rows, each unpaired verified row in
    exactly one of the fuzzy records and the added rows; an original row
    that no unpaired verified row matches at 80 or more is removed; one
    reworded card whose score reaches 80 gives one fuzzy record, nothing
    removed and nothing added; the row a fuzzy record pairs with an
    original row has the best score among the rows left: no added row
    scores higher against that original row; and, the scorers giving
    percentages, no removed row and added row score 80 or more, so that a
    pair that could be matched is not reported as a removal and an
    addition. *)
Theorem C7_fuzzy_matches (token_sort_ratio partial_ratio : string -> string -> Z)
    (original_cards verified_cards : list row) :
  six original_cards -> six verified_cards ->
  exists r,
    reconcile token_sort_ratio partial_ratio original_cards verified_cards = Ok r /\
    (forall rec, In rec (fuzzy r) ->
       In (original_of rec)
          (only_in (cards_dict original_cards) (cards_dict verified_cards)) /\
       fuzzy_record token_sort_ratio partial_ratio
         (only_in (cards_dict verified_cards) (cards_dict original_cards)) rec) /\
    Permutation (map original_of (fuzzy r) ++ removed r)
      (only_in (cards_dict original_cards) (cards_dict verified_cards)) /\
    Permutation (map verified_of (fuzzy r) ++ added r)
      (only_in (cards_dict verified_cards) (cards_dict original_cards)) /\
    (forall o,
       In o (only_in (cards_dict original_cards) (cards_dict verified_cards)) ->
       (forall v,
          In v (only_in (cards_dict verified_cards) (cards_dict original_cards)) ->
          PrimFloat.leb similarity_threshold
            (score_of token_sort_ratio partial_ratio o v) = false) ->
       In o (removed r)) /\
    (forall o v,
       only_in (cards_dict original_cards) (cards_dict verified_cards) = [o] ->
       only_in (cards_dict verified_cards) (cards_dict original_cards) = [v] ->
       percentage token_sort_ratio -> percentage partial_ratio ->
       PrimFloat.leb similarity_threshold
         (score_of token_sort_ratio partial_ratio o v) = true ->
       fuzzy r = [(o, v, diff all_fields o v,
                   score_of token_sort_ratio partial_ratio o v)] /\
       removed r = [] /\ added r = []) /\
    (forall rec v, In rec (fuzzy r) -> In v (added r) ->
       PrimFloat.ltb (score_in rec)
         (score_of token_sort_ratio partial_ratio (original_of rec) v) = false) /\
    (percentage token_sort_ratio -> percentage partial_ratio ->
     forall o v, In o (removed r) -> In v (added r) ->
       PrimFloat.leb similarity_threshold
         (score_of token_sort_ratio partial_ratio o v) = false).
Proof.
  intros Ho Hv.
  destruct (reconcile_spec token_sort_ratio partial_ratio
              original_cards verified_cards Ho Hv)
    as (r & Hr & _ & _ & Hfz & Hpo & Hpv & Hrem).
  destruct (reconcile_best token_sort_ratio partial_ratio
              original_cards verified_cards r Ho Hv Hr) as [Hbest Hlow].
  exists r. split; [done|]. split; [done|]. split; [done|]. split; [done|].
  split; [done|].
  split; [|split; [done|intros Ht Hp; by apply Hlow, score_number]].
  intros o v Huo Huv Ht Hp Hth.
  rewrite (reconcile_six _ _ _ _ Ho Hv), Huo, Huv in Hr.
  assert (Ho6 : length o = 6%nat).
  { apply (only_in_six original_cards (cards_dict verified_cards)); [done|].
    rewrite Huo. by left. }
  assert (Hv6 : length v = 6%nat).
  { apply (only_in_six verified_cards (cards_dict original_cards)); [done|].
    rewrite Huv. by left. }
  destruct (single_pair token_sort_ratio partial_ratio o v Ho6 Hv6 Ht Hp Hth)
    as [Hloop Hnone].
  rewrite Hloop in Hr. cbn [bind] in Hr. injection Hr as <-.
  cbn [fuzzy removed added fuzzy_rewritten removed_cards used_verified_indices].
  by rewrite Hnone.
Qed.

Lemma C7_fuzzy_matches_witness :
  exists r,
    reconcile (always 90) (always 90) [card_digits] [card_words] = Ok r /\
    (forall rec, In rec (fuzzy r) ->
       In (original_of rec)
          (only_in (cards_dict [card_digits]) (cards_dict [card_words])) /\
       fuzzy_record (always 90) (always 90)
         (only_in (cards_dict [card_words]) (cards_dict [card_digits])) rec) /\
    Permutation (map original_of (fuzzy r) ++ removed r)
      (only_in (cards_dict [card_digits]) (cards_dict [card_words])) /\
    Permutation (map verified_of (fuzzy r) ++ added r)
      (only_in (cards_dict [card_words]) (cards_dict [card_digits])) /\
    (forall o,
       In o (only_in (cards_dict [card_digits]) (cards_dict [card_words])) ->
       (forall v,
          In v (only_in (cards_dict [card_words]) (cards_dict [card_digits])) ->
          PrimFloat.leb similarity_threshold (score_of (always 90) (always 90) o v)
            = false) ->
       In o (removed r)) /\
    (forall o v,
       only_in (cards_dict [card_digits]) (cards_dict [card_words]) = [o] ->
       only_in (cards_dict [card_words]) (cards_dict [card_digits]) = [v] ->
       percentage (always 90) -> percentage (always 90) ->
       PrimFloat.leb similarity_threshold (score_of (always 90) (always 90) o v)
         = true ->
       fuzzy r = [(o, v, diff all_fields o v, score_of (always 90) (always 90) o v)] /\
       removed r = [] /\ added r = []) /\
    (forall rec v, In rec (fuzzy r) -> In v (added r) ->
       PrimFloat.ltb (score_in rec)
         (score_of (always 90) (always 90) (original_of rec) v) = false) /\
    (percentage (always 90) -> percentage (always 90) ->
     forall o v, In o (removed r) -> In v (added r) ->
       PrimFloat.leb similarity_threshold (score_of (always 90) (always 90) o v)
         = false).
Proof.
  apply (C7_fuzzy_matches (always 90) (always 90) [card_digits] [card_words]);
    repeat constructor.
Defined.

(** The reworded card, with scorers that give 90: one fuzzy record. *)
Example reworded_question :
  verify_csv (always 90) (always 90) toy_json (fun a b => a +:+ b)
    (Some (answering (deck [card_words]))) "source" (deck [card_digits])
  = ([EvCall ("source" +:+ deck [card_digits]) 0;
      EvLog (LogRewrote false 90 ["Question"] card_digits card_words);
      EvLog (LogSummary 0 0 1 1 0)],
     Ok (strip (deck [card_words]))).
Proof. vm_compute. reflexivity. Qed.

Example normalize_sample :
  normalize_text ("  What IS " +:+ String BACKSLASH "(x^2"
                  +:+ String BACKSLASH "), then?! ")
  = "what is MATH then".
Proof. vm_compute. reflexivity. Qed.

(** A fuzzy record whose score is exactly 100 is written to the log
    with the note of an exact match. *)
Example fuzzy_hundred_logged_as_exact :
  logs (fst (verify_csv (always 100) (always 100) toy_json (fun a b => a +:+ b)
               (Some (answering (deck [["math"; "S"; "Q"; "A"; ""; ""]])))
               "source" (deck [["Math"; "S"; "Q"; "A"; ""; ""]])))
  = [LogRewrote true 100 ["Topic"] ["Math"; "S"; "Q"; "A"; ""; ""]
       ["math"; "S"; "Q"; "A"; ""; ""];
     LogSummary 0 0 1 1 0].
Proof. vm_compute. reflexivity. Qed.


(* ================================================================== *)
(** * Part III: further properties of the code                         *)
(* ================================================================== *)

(** ** The chunker: windows and buffers *)

Lemma clamp_index_nonneg (len : nat) (i : Z) :
  0 <= i -> clamp_index len i = Nat.min (Z.to_nat i) len.
Proof.
  intros Hi. unfold clamp_index.
  destruct (i <? 0) eqn:E; [apply Z.ltb_lt in E; lia|]. lia.
Qed.

(** A slice that starts at a non-negative index and spans a
    non-negative number of elements. *)
Lemma slice_window {A} (l : list A) (i w : Z) :
  0 <= i -> 0 <= w ->
  slice l i (i + w) = take (Z.to_nat w) (drop (Z.to_nat i) l).
Proof.
  intros Hi Hw. unfold slice. rewrite !clamp_index_nonneg by lia.
  destruct (decide (Z.to_nat i <= length l)%nat) as [Hle|Hgt].
  - replace (Nat.min (Z.to_nat i) (length l)) with (Z.to_nat i) by lia.
    destruct (decide (Z.to_nat (i + w) <= length l)%nat) as [Hle2|Hgt2].
    + by replace (Nat.min (Z.to_nat (i + w)) (length l) - Z.to_nat i)%nat
        with (Z.to_nat w) by lia.
    + replace (Nat.min (Z.to_nat (i + w)) (length l) - Z.to_nat i)%nat
        with (length (drop (Z.to_nat i) l)) by (rewrite length_drop; lia).
      rewrite firstn_all. symmetry. apply take_ge. rewrite length_drop. lia.
  - replace (Nat.min (Z.to_nat i) (length l)) with (length l) by lia.
    rewrite !drop_ge by lia. by rewrite !take_nil.
Qed.

Lemma split_loop_windows (fuel : nat) (tokens : list Z) (win stride : Z) :
  1 <= win -> 1 <= stride <= win ->
  forall i parts,
    0 <= i ->
    split_loop fuel tokens win stride i = Some parts ->
    Forall (fun part => (1 <= length part)%nat /\ Z.of_nat (length part) <= win) parts /\
    (forall j t, (Z.to_nat i <= j)%nat -> tokens !! j = Some t ->
                 exists part, In part parts /\ In t part) /\
    (stride = win -> concat parts = drop (Z.to_nat i) tokens).
Proof.
  intros Hw Hs. induction fuel as [|fuel IH]; intros i parts Hi Hrun; [done|].
  cbn [split_loop] in Hrun.
  destruct (i <? Z.of_nat (length tokens)) eqn:Ei.
  - apply Z.ltb_lt in Ei.
    assert (Hpart : slice tokens i (i + win)
                    = take (Z.to_nat win) (drop (Z.to_nat i) tokens))
      by (apply slice_window; lia).
    rewrite Hpart in Hrun.
    set (part := take (Z.to_nat win) (drop (Z.to_nat i) tokens)) in *.
    assert (Hlen : (1 <= length part)%nat /\ Z.of_nat (length part) <= win).
    { unfold part. rewrite length_take, length_drop. lia. }
    assert (Hin : forall j t, (Z.to_nat i <= j)%nat -> (j < Z.to_nat (i + win))%nat ->
                              tokens !! j = Some t -> In t part).
    { intros j t Hj Hj' Ht. apply list_elem_of_In, list_elem_of_lookup.
      exists (j - Z.to_nat i)%nat. unfold part.
      rewrite lookup_take_lt by lia. rewrite lookup_drop.
      by replace (Z.to_nat i + (j - Z.to_nat i))%nat with j by lia. }
    destruct (Z.of_nat (length tokens) <=? i + win) eqn:Eend.
    + apply Z.leb_le in Eend. injection Hrun as <-. split; [by constructor|].
      split.
      * intros j t Hj Ht. exists part. split; [by left|].
        apply (Hin j t Hj); [|done]. apply lookup_lt_Some in Ht. lia.
      * intros _. cbn [concat]. rewrite app_nil_r. unfold part.
        apply take_ge. rewrite length_drop. lia.
    + apply Z.leb_gt in Eend.
      destruct (split_loop fuel tokens win stride (i + stride)) as [rest|] eqn:Er;
        [|done].
      injection Hrun as <-.
      destruct (IH (i + stride) rest ltac:(lia) Er) as (Hall & Hcov & Hcat).
      split; [by constructor|]. split.
      * intros j t Hj Ht.
        destruct (decide (j < Z.to_nat (i + stride))%nat) as [Hlt|Hge].
        -- exists part. split; [by left|]. apply (Hin j t Hj); [lia|done].
        -- destruct (Hcov j t ltac:(lia) Ht) as (q & Hq & Htq).
           exists q. split; [by right|done].
      * intros ->. cbn [concat]. rewrite (Hcat eq_refl). unfold part.
        replace (Z.to_nat (i + win)) with (Z.to_nat i + Z.to_nat win)%nat by lia.
        rewrite <- drop_drop. apply take_drop.
  - injection Hrun as <-. split; [constructor|]. split.
    + intros j t Hj Ht. apply lookup_lt_Some in Ht. apply Z.ltb_ge in Ei. lia.
    + intros _. apply Z.ltb_ge in Ei. cbn [concat]. symmetry. apply drop_ge. lia.
Qed.

Lemma split_long_tokens_parts (tokens : list Z) (win ovlp : Z) :
  1 <= win -> 0 <= ovlp ->
  exists parts,
    split_long_tokens tokens win ovlp = Some parts /\
    Forall (fun part => (1 <= length part)%nat /\ Z.of_nat (length part) <= win) parts /\
    (forall t, In t tokens -> exists part, In part parts /\ In t part) /\
    (ovlp = 0 -> concat parts = tokens).
Proof.
  intros Hw Ho. destruct (split_long_tokens_total tokens win ovlp) as [parts Hp].
  exists parts. split; [done|].
  unfold split_long_tokens in Hp. destruct tokens as [|t0 tokens].
  - injection Hp as <-. split; [constructor|]. split; [by intros ? []|done].
  - destruct (split_loop_windows _ _ win (Z.max 1 (win - ovlp)) Hw ltac:(lia)
                0 parts ltac:(lia) Hp) as (Hall & Hcov & Hcat).
    split; [done|]. split.
    + intros t Ht. apply list_elem_of_In, list_elem_of_lookup in Ht as [j Hj].
      apply (Hcov j t); [lia|done].
    + intros ->. apply Hcat. lia.
Qed.

(** X1. [split_long_tokens] with a window of at least one token and a
    non-negative overlap: it returns windows; every window holds at
    least one token and at most [win]; every token of the list is in a
    window; and without overlap the windows, put end to end, are the
    list. *)
Theorem split_long_tokens_windows (tokens : list Z) (win ovlp : Z) :
  1 <= win -> 0 <= ovlp ->
  exists parts,
    split_long_tokens tokens win ovlp = Some parts /\
    Forall (fun part => (1 <= length part)%nat /\ Z.of_nat (length part) <= win) parts /\
    (forall t, In t tokens -> exists part, In part parts /\ In t part) /\
    (ovlp = 0 -> concat parts = tokens).
Proof. exact (split_long_tokens_parts tokens win ovlp). Qed.

Lemma split_long_tokens_windows_witness :
  exists parts,
    split_long_tokens [1; 2; 3; 4; 5; 6; 7] 3 1 = Some parts /\
    Forall (fun part => (1 <= length part)%nat /\ Z.of_nat (length part) <= 3) parts /\
    (forall t, In t [1; 2; 3; 4; 5; 6; 7] -> exists part, In part parts /\ In t part) /\
    (1 = 0 -> concat parts = [1; 2; 3; 4; 5; 6; 7]).
Proof. apply (split_long_tokens_windows [1; 2; 3; 4; 5; 6; 7] 3 1); lia. Defined.

Example split_long_tokens_sample :
  split_long_tokens [1; 2; 3; 4; 5; 6; 7] 3 1 = Some [[1; 2; 3]; [3; 4; 5]; [5; 6; 7]].
Proof. reflexivity. Qed.

Section BufferFacts.
Variable tok : string -> list Z.
Variable detok : list Z -> string.
Variable max_tokens overlap : Z.
Hypothesis two : 2 <= max_tokens.
Hypothesis positive : 1 <= overlap.

Let ov := clamp_overlap max_tokens overlap.
Let sep := tok blank_line.
Let B := buffer_bound tok max_tokens overlap.

Let well (b : list Z) : Prop := (1 <= length b)%nat /\ Z.of_nat (length b) <= B.

(** What the main loop keeps: the chunks are the decodings of buffers
    within the bound, and so is the buffer being filled. *)
Let kept (st : acc) (bufs : list (list Z)) : Prop :=
  chunks st = map (flush detok) bufs /\ Forall well bufs /\
  Z.of_nat (length (buf st)) <= B.

Lemma clamp_overlap_range : 1 <= ov <= max_tokens / 2.
Proof.
  unfold ov, clamp_overlap.
  assert (1 <= max_tokens / 2) by (apply Z.div_le_lower_bound; lia). lia.
Qed.

Lemma bound_above : max_tokens + Z.of_nat (length sep) <= B /\ ov <= max_tokens.
Proof.
  pose proof clamp_overlap_range as Hov.
  assert (max_tokens / 2 <= max_tokens) by (apply Z.div_le_upper_bound; lia).
  unfold B, buffer_bound. fold ov sep. lia.
Qed.

Lemma length_last_n_le (b : list Z) :
  Z.of_nat (length (last_n b ov)) <= ov \/ last_n b ov = b /\ Z.of_nat (length b) <= ov.
Proof.
  pose proof clamp_overlap_range as Hov.
  destruct (decide (ov < Z.of_nat (length b))) as [Hlt|Hge].
  - left. rewrite length_last_n; lia.
  - right. unfold last_n.
    replace (ov <? Z.of_nat (length b)) with false by (symmetry; apply Z.ltb_ge; lia).
    rewrite andb_false_r. split; [done|lia].
Qed.

Lemma chunk_step_kept (st st' : acc) (bufs : list (list Z)) (p : string) :
  kept st bufs ->
  chunk_step tok detok max_tokens ov sep st p = Some st' ->
  exists bufs', kept st' bufs'.
Proof.
  intros (Hch & Hall & Hbuf) Hstep.
  pose proof clamp_overlap_range as Hov. pose proof bound_above as [HB Hovm].
  unfold chunk_step in Hstep.
  destruct (max_tokens <? Z.of_nat (length (tok p))) eqn:Elong.
  - destruct (split_long_tokens_parts (tok p) max_tokens ov ltac:(lia) ltac:(lia))
      as (windows & Hw & Hwin & _).
    rewrite Hw in Hstep. injection Hstep as <-.
    assert (Hwell : Forall well windows).
    { eapply Forall_impl; [|exact Hwin]. intros w [? ?]. split; [done|lia]. }
    destruct (buf st) as [|t b] eqn:Eb.
    + exists (bufs ++ windows). split; [|split].
      * cbn [chunks]. by rewrite Hch, map_app.
      * by apply Forall_app.
      * cbn [buf length]. lia.
    + exists (bufs ++ [t :: b] ++ windows). split; [|split].
      * cbn [chunks]. by rewrite Hch, !map_app, <- app_assoc.
      * apply Forall_app. split; [done|]. apply Forall_app. split; [|done].
        constructor; [|constructor]. split; [cbn [length]; lia|done].
      * cbn [buf length]. lia.
  - apply Z.ltb_ge in Elong. injection Hstep as <-.
    destruct (buf st) as [|t b] eqn:Eb.
    + exists bufs. split; [done|]. split; [done|].
      cbn [buf]. rewrite Eb. cbn [app]. rewrite length_app. lia.
    + destruct (max_tokens <?
                Z.of_nat (length (t :: b))
                + (Z.of_nat (length (tok p)) + Z.of_nat (length sep))) eqn:Efull.
      * exists (bufs ++ [t :: b]). split; [|split].
        -- cbn [chunks]. by rewrite Hch, map_app.
        -- apply Forall_app. split; [done|].
           constructor; [|constructor]. split; [cbn [length]; lia|done].
        -- cbn [buf]. rewrite !length_app.
           destruct (length_last_n_le (t :: b)) as [H|[-> H]];
             unfold B, buffer_bound; fold ov sep; lia.
      * apply Z.ltb_ge in Efull. exists bufs. split; [by rewrite Eb|]. split; [done|].
        rewrite Eb. cbn [buf]. rewrite !length_app. lia.
Qed.

Lemma chunk_loop_kept (ps : list string) :
  forall st st' bufs,
    kept st bufs ->
    chunk_loop tok detok max_tokens ov sep st ps = Some st' ->
    exists bufs', kept st' bufs'.
Proof.
  induction ps as [|p ps IH]; intros st st' bufs Hk Hrun.
  - injection Hrun as <-. by exists bufs.
  - cbn [chunk_loop] in Hrun.
    destruct (chunk_step tok detok max_tokens ov sep st p) as [st1|] eqn:E1; [|done].
    destruct (chunk_step_kept st st1 bufs p Hk E1) as [bufs1 Hk1].
    exact (IH st1 st' bufs1 Hk1 Hrun).
Qed.

Lemma chunk_text_buffers (text : string) :
  exists bufs,
    chunk_text tok detok text max_tokens overlap = Some (map (flush detok) bufs) /\
    Forall (fun b => (1 <= length b)%nat /\
                     Z.of_nat (length b) <= buffer_bound tok max_tokens overlap) bufs.
Proof.
  unfold chunk_text, chunk_run. fold ov sep.
  destruct (chunk_loop_total tok detok max_tokens ov sep (paragraphs text)
              (mk_acc [] [])) as [st Hst].
  rewrite Hst.
  destruct (chunk_loop_kept (paragraphs text) (mk_acc [] []) st [])
    as (bufs & Hch & Hall & Hbuf); [|done|].
  { split; [done|]. split; [constructor|]. cbn [buf length].
    pose proof bound_above. lia. }
  destruct (buf st) as [|t b] eqn:Eb.
  - exists bufs. by rewrite Hch.
  - exists (bufs ++ [t :: b]). split.
    + by rewrite Hch, map_app.
    + apply Forall_app. split; [done|].
      constructor; [|constructor]. split; [cbn [length]; lia|done].
Qed.

End BufferFacts.

(** X2. With at least two tokens a chunk and a positive overlap, every
    chunk [chunk_text] returns is the trimmed decoding of a buffer of at
    least one token and at most [max_tokens], plus the overlap (as it is
    clamped to half of [max_tokens]), plus the tokens of the separator. *)
Theorem chunk_text_buffer_bound (tok : string -> list Z) (detok : list Z -> string)
    (text : string) (max_tokens overlap : Z) :
  2 <= max_tokens -> 1 <= overlap ->
  exists bufs,
    chunk_text tok detok text max_tokens overlap = Some (map (flush detok) bufs) /\
    Forall (fun b => (1 <= length b)%nat /\
                     Z.of_nat (length b)
                     <= max_tokens + Z.min overlap (max_tokens / 2)
                        + Z.of_nat (length (tok blank_line))) bufs.
Proof.
  intros Hm Ho.
  destruct (chunk_text_buffers tok detok max_tokens overlap Hm Ho text)
    as (bufs & Hrun & Hall).
  exists bufs. split; [done|].
  eapply Forall_impl; [|exact Hall]. intros b [H1 H2]. split; [done|].
  unfold buffer_bound, clamp_overlap in H2.
  assert (1 <= max_tokens / 2) by (apply Z.div_le_lower_bound; lia). lia.
Qed.

Lemma chunk_text_buffer_bound_witness :
  exists bufs,
    chunk_text char_tok char_detok two_paragraphs 6 3
      = Some (map (flush char_detok) bufs) /\
    Forall (fun b => (1 <= length b)%nat /\
                     Z.of_nat (length b)
                     <= 6 + Z.min 3 (6 / 2)
                        + Z.of_nat (length (char_tok blank_line))) bufs.
Proof.
  apply (chunk_text_buffer_bound char_tok char_detok two_paragraphs 6 3); lia.
Defined.

Lemma chunk_loop_fits (tok : string -> list Z) (detok : list Z -> string)
    (max_tokens ov : Z) (cs : list string) (ps : list string) :
  forall b,
    Z.of_nat (length b) + Z.of_nat (length (held tok ps)) <= max_tokens ->
    chunk_loop tok detok max_tokens ov (tok blank_line) (mk_acc cs b) ps
    = Some (mk_acc cs (b ++ held tok ps)).
Proof.
  induction ps as [|p ps IH]; intros b Hfit.
  - cbn [chunk_loop held map concat]. by rewrite app_nil_r.
  - unfold held in Hfit. cbn [map concat] in Hfit. fold (held tok ps) in Hfit.
    rewrite !length_app in Hfit.
    cbn [chunk_loop]. unfold chunk_step. cbn [buf chunks].
    replace (max_tokens <? Z.of_nat (length (tok p))) with false
      by (symmetry; apply Z.ltb_ge; lia).
    assert (Hst : match b with
                  | [] => mk_acc cs b
                  | _ :: _ =>
                      if max_tokens <?
                         Z.of_nat (length b)
                         + (Z.of_nat (length (tok p))
                            + Z.of_nat (length (tok blank_line)))
                      then mk_acc (cs ++ [flush detok b]) (last_n b ov)
                      else mk_acc cs b
                  end = mk_acc cs b).
    { destruct b as [|t b]; [done|].
      by replace (max_tokens <? _) with false by (symmetry; apply Z.ltb_ge; lia). }
    rewrite Hst. cbn [buf chunks].
    rewrite IH by (rewrite !length_app; lia).
    unfold held. cbn [map concat]. by rewrite <- !app_assoc.
Qed.

(** X3. A text whose paragraphs, with the separator after each, hold no
    more than [max_tokens] tokens in all comes back as one chunk, the
    trimmed decoding of these tokens; a text with no paragraph comes back
    as no chunk at all. *)
Theorem chunk_text_single_chunk (tok : string -> list Z) (detok : list Z -> string)
    (text : string) (max_tokens overlap : Z) :
  Z.of_nat (length (held tok (paragraphs text))) <= max_tokens ->
  chunk_text tok detok text max_tokens overlap
  = Some (match held tok (paragraphs text) with
          | [] => []
          | b => [flush detok b]
          end) /\
  (paragraphs text = [] ->
   chunk_text tok detok text max_tokens overlap = Some []).
Proof.
  intros Hfit.
  assert (Hrun : chunk_text tok detok text max_tokens overlap
                 = Some (match held tok (paragraphs text) with
                         | [] => []
                         | b => [flush detok b]
                         end)).
  { unfold chunk_text, chunk_run. rewrite chunk_loop_fits by (cbn [length]; lia).
    cbn [buf chunks app]. by destruct (held tok (paragraphs text)). }
  split; [done|]. intros Hnone. rewrite Hrun. by rewrite Hnone.
Qed.

Lemma chunk_text_single_chunk_witness :
  chunk_text char_tok char_detok two_paragraphs 12 3
  = Some (match held char_tok (paragraphs two_paragraphs) with
          | [] => []
          | b => [flush char_detok b]
          end) /\
  (paragraphs two_paragraphs = [] ->
   chunk_text char_tok char_detok two_paragraphs 12 3 = Some []).
Proof.
  apply (chunk_text_single_chunk char_tok char_detok two_paragraphs 12 3).
  vm_compute. discriminate.
Defined.

Example chunk_text_small_sample :
  chunk_text char_tok char_detok two_paragraphs 12 3 = Some [two_paragraphs] /\
  chunk_text char_tok char_detok (" " +:+ blank_line +:+ str_LF) 12 3 = Some [].
Proof. split; reflexivity. Qed.

(** ** The deduplicator: what it raises, and running it twice *)

Lemma has_text_dec (f : dict) : {has_text f} + {~ has_text f}.
Proof.
  unfold has_text. destruct (dict_get f "fact" (PStr "")); auto.
Defined.

Lemma fact_key_no_text (f : dict) : ~ has_text f -> fact_key f = Raise AttributeError.
Proof.
  unfold has_text, fact_key. destruct (dict_get f "fact" (PStr "")); tauto.
Qed.

Lemma dedup_loop_raises (facts : list dict) :
  Exists (fun f => ~ has_text f) facts ->
  forall seen uniq, dedup_loop seen uniq facts = Raise AttributeError.
Proof.
  induction facts as [|f rest IH]; intros Hex seen uniq.
  - by apply Exists_nil in Hex.
  - cbn [dedup_loop]. destruct (has_text_dec f) as [Hf|Hf].
    + rewrite (has_text_key f Hf). cbn [bind].
      apply Exists_cons in Hex as [Hex|Hex]; [done|].
      destruct (nonempty (key_of f) && negb (bool_decide (key_of f ∈ seen)));
        by apply IH.
    + by rewrite (fact_key_no_text f Hf).
Qed.

(** A list of facts with a text, whose keys are distinct, not empty and
    not seen yet, is kept as it is. *)
Lemma dedup_loop_fixed (facts : list dict) :
  Forall has_text facts ->
  NoDup (map key_of facts) ->
  forall (seen : gset string) (uniq : list dict),
    (forall f, In f facts -> key_of f <> "" /\ key_of f ∉ seen) ->
    dedup_loop seen uniq facts = Ok (uniq ++ facts).
Proof.
  induction 1 as [|f rest Hf Hrest IH]; intros Hnd seen uniq Hkeys.
  - cbn [dedup_loop]. by rewrite app_nil_r.
  - cbn [map] in Hnd. apply NoDup_cons_iff in Hnd as [Hnew Hnd].
    cbn [dedup_loop]. rewrite (has_text_key f Hf). cbn [bind].
    destruct (Hkeys f ltac:(by left)) as [Hne Hns].
    replace (nonempty (key_of f)) with true
      by (symmetry; by apply nonempty_true).
    rewrite bool_decide_eq_false_2 by done. cbn [andb negb].
    rewrite IH; [by rewrite <- app_assoc|done|].
    intros g Hg. destruct (Hkeys g ltac:(by right)) as [Hgne Hgns].
    split; [done|]. intros Hin. apply elem_of_union in Hin as [Hin|Hin]; [|done].
    apply elem_of_singleton in Hin. apply Hnew. rewrite <- Hin.
    apply in_map_iff. by exists g.
Qed.

Lemma deduplicate_facts_cases (facts : list dict) :
  (Forall has_text facts <-> exists out, deduplicate_facts facts = Ok out) /\
  (Exists (fun f => ~ has_text f) facts <->
   deduplicate_facts facts = Raise AttributeError).
Proof.
  assert (Hcase : Forall has_text facts \/ Exists (fun f => ~ has_text f) facts).
  { induction facts as [|f rest IH]; [left; constructor|].
    destruct (has_text_dec f) as [Hf|Hf]; [|right; by left].
    destruct IH as [IH|IH]; [left; by constructor|right; by right]. }
  unfold deduplicate_facts. split; split.
  - intros Hall. destruct (dedup_loop_spec facts Hall ∅ []) as (kept & Hk & _).
    by exists kept.
  - intros [out Hout]. destruct Hcase as [H|H]; [done|].
    rewrite (dedup_loop_raises facts H) in Hout. discriminate.
  - intros H. exact (dedup_loop_raises facts H ∅ []).
  - intros Hr. destruct Hcase as [H|H]; [|done].
    destruct (dedup_loop_spec facts H ∅ []) as (kept & Hk & _).
    rewrite Hk in Hr. discriminate.
Qed.

(** X4. [deduplicate_facts] returns a list exactly when the text of
    every fact is a string (a missing text counts as the empty string);
    one fact whose text is something else, a JSON null or a number, makes
    it raise [AttributeError], whatever the other facts are. *)
Theorem deduplicate_facts_raises_iff (facts : list dict) :
  (Forall has_text facts <-> exists out, deduplicate_facts facts = Ok out) /\
  (Exists (fun f => ~ has_text f) facts <->
   deduplicate_facts facts = Raise AttributeError).
Proof. exact (deduplicate_facts_cases facts). Qed.

Example deduplicate_facts_null_text :
  deduplicate_facts [fact_a; [("topic", PStr "Physics"); ("fact", PNone)]]
  = Raise AttributeError.
Proof. reflexivity. Qed.

(** X5. Deduplicating twice changes nothing: the list
    [deduplicate_facts] returns is returned as it is when it is given
    back to it. *)
Theorem deduplicate_facts_idempotent (facts out : list dict) :
  deduplicate_facts facts = Ok out -> deduplicate_facts out = Ok out.
Proof.
  intros Hout.
  assert (Hall : Forall has_text facts).
  { apply (proj1 (deduplicate_facts_cases facts)). by exists out. }
  unfold deduplicate_facts in *.
  destruct (dedup_loop_spec facts Hall ∅ [])
    as (kept & Hk & Hsub & Hnd & Hkeys & _).
  rewrite Hk in Hout. injection Hout as <-. cbn [app].
  apply (dedup_loop_fixed kept); [|done|done].
  apply Forall_forall. intros f Hf. rewrite Forall_forall in Hall. apply Hall.
  apply list_elem_of_In. apply list_elem_of_In in Hf. by eapply elem_of_sublist.
Qed.

Lemma deduplicate_facts_idempotent_witness :
  deduplicate_facts [fact_a] = Ok [fact_a].
Proof.
  apply (deduplicate_facts_idempotent
           [fact_a; fact_blank; fact_b; fact_absent; fact_a] [fact_a]).
  reflexivity.
Defined.

(** ** Trimmed strings *)

Lemma starts_length (w l : list ascii) :
  starts w l = true -> (length w <= length l)%nat.
Proof.
  revert l. induction w as [|a w IH]; intros [|b l]; cbn [starts length];
    try done; try lia.
  intros H. apply andb_true_iff in H as [_ H]. apply IH in H. lia.
Qed.

Lemma starts_app (w x y : list ascii) :
  starts w x = true -> starts w (x ++ y) = true.
Proof.
  revert x. induction w as [|a w IH]; intros [|b x]; cbn [starts app]; try done.
  intros H. apply andb_true_iff in H as [H1 H2]. by rewrite H1, IH.
Qed.

Lemma code_len_zero (K : list (list ascii)) (l : list ascii) :
  Forall (fun w => w <> []) K ->
  (code_len K l = O <-> forall w, In w K -> starts w l = false).
Proof.
  unfold code_len. induction 1 as [|v K Hv HK IH]; cbn [find].
  - split; [by intros _ w []|done].
  - destruct (starts v l) eqn:E.
    + split.
      * intros H. destruct v; [done|discriminate].
      * intros H. rewrite (H v) in E; [done|by left].
    + rewrite IH. split.
      * intros H w [<-|Hw]; [done|by apply H].
      * intros H w Hw. apply H. by right.
Qed.

Lemma code_len_le (K : list (list ascii)) (l : list ascii) :
  (code_len K l <= length l)%nat.
Proof.
  unfold code_len. destruct (find _ K) as [w|] eqn:E; [|lia].
  apply find_some in E as [_ E]. by apply starts_length.
Qed.

Lemma lstrip_from_drop (K : list (list ascii)) (l : list ascii) :
  forall k, lstrip_from K k l = lstrip_from K O (drop k l).
Proof.
  induction l as [|a r IH]; intros [|k]; try done.
  cbn [lstrip_from drop]. apply IH.
Qed.

Lemma lstrip_unfold (K : list (list ascii)) (l : list ascii) :
  lstrip_from K O l
  = match code_len K l with
    | O => l
    | S k => lstrip_from K O (drop (S k) l)
    end.
Proof.
  destruct l as [|a r].
  - pose proof (code_len_le K []) as H. cbn [length] in H.
    by replace (code_len K []) with O by lia.
  - cbn [lstrip_from]. destruct (code_len K (a :: r)) as [|k]; [done|].
    cbn [drop]. apply lstrip_from_drop.
Qed.

Section StripFacts.
Variable K : list (list ascii).
Hypothesis K_nonempty : Forall (fun w => w <> []) K.

(** What is left begins with no code, and is the end of the list. *)
Lemma lstrip_spec (n : nat) :
  forall l, (length l <= n)%nat ->
    (exists p, l = p ++ lstrip_from K O l) /\ code_len K (lstrip_from K O l) = O.
Proof.
  induction n as [|n IH]; intros l Hn.
  - destruct l; [|cbn [length] in Hn; lia]. split; [by exists []|].
    pose proof (code_len_le K []) as H. cbn [lstrip_from length] in *. lia.
  - rewrite lstrip_unfold. destruct (code_len K l) as [|k] eqn:E.
    + split; [by exists []|done].
    + pose proof (code_len_le K l) as Hle.
      destruct (IH (drop (S k) l)) as [[p Hp] Hz].
      { rewrite length_drop. lia. }
      split; [|done]. exists (take (S k) l ++ p).
      rewrite <- app_assoc, <- Hp. by rewrite take_drop.
Qed.

Lemma lstrip_fixed (l : list ascii) : code_len K l = O -> lstrip_from K O l = l.
Proof. intros H. by rewrite lstrip_unfold, H. Qed.

Lemma code_len_app (x y : list ascii) :
  code_len K (x ++ y) = O -> code_len K x = O.
Proof.
  rewrite !code_len_zero by done. intros H w Hw.
  destruct (starts w x) eqn:E; [|done].
  specialize (H w Hw). by rewrite (starts_app w x y E) in H.
Qed.

End StripFacts.

Lemma space_codes_nonempty : Forall (fun w => w <> []) space_codes.
Proof. repeat constructor; discriminate. Qed.

Lemma space_codes_rev_nonempty :
  Forall (fun w => w <> []) (map (@rev ascii) space_codes).
Proof. repeat constructor; discriminate. Qed.

(** Trimming twice is trimming once. *)
Lemma strip_idem (s : string) : strip (strip s) = strip s.
Proof.
  unfold strip, lstrip, rstrip.
  rewrite !list_ascii_of_string_of_list_ascii.
  set (b := list_ascii_of_string s).
  set (t := rev (lstrip_from (map (@rev ascii) space_codes) O (rev b))).
  destruct (lstrip_spec space_codes (length t) t ltac:(lia)) as [[p Hp] Hl].
  destruct (lstrip_spec (map (@rev ascii) space_codes) (length (rev b)) (rev b)
              ltac:(lia)) as [_ Hr].
  assert (Hback : lstrip_from (map (@rev ascii) space_codes) O
                    (rev (lstrip_from space_codes O t))
                  = rev (lstrip_from space_codes O t)).
  { apply lstrip_fixed.
    apply (code_len_app _ space_codes_rev_nonempty _ (rev p)).
    rewrite <- rev_app_distr, <- Hp. unfold t. by rewrite rev_involutive. }
  rewrite Hback, rev_involutive.
  by rewrite (lstrip_fixed space_codes _ Hl).
Qed.

Lemma unusable_strip (t : string) : unusable (strip t) = unusable t.
Proof. unfold unusable. by rewrite strip_idem. Qed.

Lemma usable_nonempty (t : string) : unusable t = false -> strip t <> "".
Proof.
  unfold unusable. intros H E. rewrite E in H. done.
Qed.

(** ** The gateway: what it returns *)

Section AnswerFacts.
Variable json_loads : string -> option pyval.
Variable generate_content : model.
Variables prompt type : string.

(** An attempt that succeeds has been given a usable answer and returns
    what the cleanup makes of it. *)
Lemma call_answer (k : nat) (s : string) :
  snd (_call json_loads generate_content prompt type k) = Ok s ->
  exists t,
    generate_content prompt k = Returns (Some (mk_response (Some t))) /\
    unusable t = false /\
    snd (clean_answer json_loads type t) = Ok s.
Proof.
  unfold _call, iobind. cbn [emit snd fst after].
  destruct (generate_content prompt k) as [[[[t|]]|]|e]; try done.
  destruct (unusable t) eqn:Eu; [done|]. intros H. by exists t.
Qed.

Lemma gen_loop_answer (n : nat) :
  forall (k : nat) (delay : Z) (last : option exn) (s : string),
    snd (gen_loop json_loads generate_content prompt type n k delay last) = Ok s ->
    exists j t,
      (k <= j < k + n)%nat /\
      generate_content prompt j = Returns (Some (mk_response (Some t))) /\
      unusable t = false /\
      snd (clean_answer json_loads type t) = Ok s.
Proof.
  induction n as [|n IH]; intros k delay last s Hs; [done|].
  cbn [gen_loop] in Hs. unfold catch in Hs.
  destruct (snd (_call json_loads generate_content prompt type k)) as [s'|e] eqn:Ec.
  - rewrite Ec in Hs. injection Hs as ->.
    destruct (call_answer k s Ec) as (t & Ht & Hu & Hc).
    exists k, t. split; [lia|done].
  - unfold iobind, after in Hs. cbn [emit snd fst] in Hs.
    destruct (IH (S k) (delay * 2) (Some e) s Hs) as (j & t & Hj & Ht).
    exists j, t. split; [lia|done].
Qed.

End AnswerFacts.

Lemma gen_answer (json_loads : string -> option pyval)
    (client : option model) (prompt type s : string) :
  snd (_gen json_loads client prompt type) = Ok s ->
  exists generate_content j t,
    client = Some generate_content /\ (j < 8)%nat /\
    generate_content prompt j = Returns (Some (mk_response (Some t))) /\
    unusable t = false /\
    (type <> "fact_extraction" ->
     s = strip t /\ s <> "" /\ strip s = s /\ unusable s = false) /\
    (type = "fact_extraction" -> is_valid_json json_loads s = true).
Proof.
  unfold _gen. destruct client as [gc|]; [|done]. intros Hs.
  destruct (gen_loop_answer json_loads gc prompt type _ _ _ _ _ Hs)
    as (j & t & Hj & Ht & Hu & Hc).
  exists gc, j, t. split; [done|]. split; [unfold max_retries in Hj; lia|].
  split; [done|]. split; [done|]. split.
  - intros Hty. rewrite (clean_answer_other json_loads type t Hty) in Hc.
    injection Hc as <-. split; [done|]. split; [by apply usable_nonempty|].
    split; [apply strip_idem|by rewrite unusable_strip].
  - intros ->. revert Hc. unfold clean_answer. cbn [String.eqb Ascii.eqb].
    repeat match goal with
           | |- context [if ?b then _ else _] => destruct b eqn:?
           end; cbn [ret snd]; intros [= <-]; try done;
      repeat match goal with
             | H : negb _ = false |- _ => apply negb_false_iff in H
             | H : negb _ = true |- _ => apply negb_true_iff in H
             end; try done; try congruence.
Qed.

(** X6. What the gateway returns comes from one answer of the model,
    among the first eight attempts, that is neither empty, nor the empty
    array, nor an apology. For a request that is not a fact extraction it
    is this answer, trimmed: never the empty string, and usable in its
    turn. For a fact extraction it is valid JSON. *)
Theorem gateway_returns_a_usable_answer (json_loads : string -> option pyval)
    (client : option model) (prompt type s : string) :
  snd (_gen json_loads client prompt type) = Ok s ->
  exists generate_content j t,
    client = Some generate_content /\ (j < 8)%nat /\
    generate_content prompt j = Returns (Some (mk_response (Some t))) /\
    unusable t = false /\
    (type <> "fact_extraction" ->
     s = strip t /\ s <> "" /\ strip s = s /\ unusable s = false) /\
    (type = "fact_extraction" -> is_valid_json json_loads s = true).
Proof. exact (gen_answer json_loads client prompt type s). Qed.

Lemma gateway_returns_a_usable_answer_witness :
  exists generate_content j t,
    Some flaky_model = Some generate_content /\ (j < 8)%nat /\
    generate_content "prompt" j = Returns (Some (mk_response (Some t))) /\
    unusable t = false /\
    ("default" <> "fact_extraction" ->
     "hello" = strip t /\ "hello" <> "" /\ strip "hello" = "hello"
     /\ unusable "hello" = false) /\
    ("default" = "fact_extraction" -> is_valid_json toy_json "hello" = true).
Proof.
  apply (gateway_returns_a_usable_answer toy_json (Some flaky_model)
           "prompt" "default" "hello").
  reflexivity.
Defined.

(** ** The card generator *)

(** X7. [generate_csv]: a density level other than 1 and 3 is taken
    for the level 2, and no custom addition for the empty one; without a
    client it raises the missing-key error before any call; and the text
    it returns is a trimmed answer of the model, never the empty string. *)
Theorem generate_csv_defaults (json_loads : string -> option pyval)
    (PROMPT : string -> string -> string -> string -> string)
    (json_dumps : list Fact -> string)
    (client : option model) (facts : list Fact) (reverse : bool)
    (density_level : Z) (custom_add : option string) :
  (density_level <> 1 -> density_level <> 3 ->
   generate_csv json_loads PROMPT json_dumps client facts reverse density_level
     custom_add
   = generate_csv json_loads PROMPT json_dumps client facts reverse 2 custom_add) /\
  generate_csv json_loads PROMPT json_dumps client facts reverse density_level None
  = generate_csv json_loads PROMPT json_dumps client facts reverse density_level
      (Some "") /\
  generate_csv json_loads PROMPT json_dumps None facts reverse density_level
    custom_add = ([], Raise MissingApiKey) /\
  (forall s,
     snd (generate_csv json_loads PROMPT json_dumps client facts reverse
            density_level custom_add) = Ok s ->
     s <> "" /\ strip s = s /\ unusable s = false).
Proof.
  split; [|split; [reflexivity|split; [reflexivity|]]].
  - intros H1 H3.
    assert (Hnote : density_note density_level = density_note 2).
    { unfold density_note.
      destruct (density_level =? 1) eqn:E1; [apply Z.eqb_eq in E1; lia|].
      destruct (density_level =? 3) eqn:E3; [apply Z.eqb_eq in E3; lia|].
      by destruct (density_level =? 2). }
    unfold generate_csv. by rewrite Hnote.
  - intros s Hs. unfold generate_csv in Hs.
    destruct (gen_answer _ _ _ _ _ Hs) as (gc & j & t & _ & _ & _ & _ & Hd & _).
    assert (Hty : "default" <> "fact_extraction") by discriminate.
    destruct (Hd Hty) as (_ & ? & ? & ?). done.
Qed.

Example generate_csv_sample :
  generate_csv toy_json (fun d r f c => d +:+ "|" +:+ r +:+ "|" +:+ f +:+ "|" +:+ c)
    (fun _ => "[]") (Some (answering (" " +:+ deck [card_a1]))) [] false 7 None
  = ([EvCall ("Normal density: one card per atomic fact."
              +:+ "|- Do not create reversed versions.|[]|") 0],
     Ok (strip (deck [card_a1]))).
Proof. vm_compute. reflexivity. Qed.

(** ** The fact extractor: the facts it builds *)

Lemma build_fact_trimmed (f : pyval) (x : Fact) :
  build_fact f = Ok x ->
  strip (topic x) = topic x /\ strip (fact x) = fact x /\
  exists items, f = PDict items /\
                subtopic x = dict_get items "subtopic" PNone /\
                source x = dict_get items "source" PNone.
Proof.
  unfold build_fact, get_stripped, get_any. destruct f as [| | | | | |items]; try done.
  destruct (dict_get items "topic" (PStr "")) as [| | | |t| |]; try done.
  destruct (dict_get items "fact" (PStr "")) as [| | | |fa| |]; try done.
  cbn [bind]. intros [= <-]. cbn [topic fact subtopic source].
  split; [apply strip_idem|]. split; [apply strip_idem|]. by exists items.
Qed.

Lemma well_formed_trimmed (elems : list pyval) (x : Fact) :
  In x (well_formed elems) ->
  exists f, In f elems /\ build_fact f = Ok x.
Proof.
  unfold well_formed. rewrite in_flat_map. intros (f & Hf & Hx).
  exists f. split; [done|]. destruct (build_fact f) as [y|e]; [|done].
  destruct Hx as [->|[]]. done.
Qed.

Lemma well_formed_length (elems : list pyval) :
  (length (well_formed elems) + length (skipped elems))%nat = length elems.
Proof.
  induction elems as [|f rest IH]; [done|].
  unfold well_formed, skipped in *. cbn [flat_map length].
  rewrite !length_app. destruct (build_fact f); cbn [length]; lia.
Qed.

Lemma extract_facts_built (json_loads : string -> option pyval)
    (PROMPT : string -> string) (client : option model) (chunk : string)
    (facts : list Fact) :
  snd (extract_facts json_loads PROMPT client chunk) = Ok facts ->
  Forall (fun x => strip (topic x) = topic x /\ strip (fact x) = fact x) facts /\
  exists text elems,
    snd (_gen json_loads client (PROMPT chunk) "fact_extraction") = Ok text /\
    (facts = [] \/ iterate (repair_cascade json_loads text) = Ok elems) /\
    (forall x, In x facts -> exists items, In (PDict items) elems /\
                                           build_fact (PDict items) = Ok x) /\
    (length facts <= length elems)%nat.
Proof.
  unfold extract_facts. intros Hs.
  destruct (snd (_gen json_loads client (PROMPT chunk) "fact_extraction"))
    as [text|e] eqn:Hg; [|by rewrite (iobind_raise _ _ _ Hg) in Hs].
  rewrite (iobind_ok _ _ _ Hg) in Hs. unfold after in Hs. cbn [snd] in Hs.
  destruct (truthy (repair_cascade json_loads text)) eqn:Ht; cbn [negb] in Hs.
  - unfold iobind at 1 in Hs. unfold lift at 1 in Hs. cbn [snd fst] in Hs.
    destruct (iterate (repair_cascade json_loads text)) as [elems|e] eqn:Hi;
      [|done].
    unfold after in Hs. cbn [snd] in Hs.
    destruct (facts_loop_spec elems []) as (Hr & _). rewrite Hr in Hs.
    injection Hs as <-. cbn [app].
    assert (Hfrom : forall x, In x (well_formed elems) ->
                              exists items, In (PDict items) elems /\
                                            build_fact (PDict items) = Ok x).
    { intros x Hx. destruct (well_formed_trimmed elems x Hx) as (f & Hf & Hb).
      destruct (build_fact_trimmed f x Hb) as (_ & _ & items & -> & _).
      by exists items. }
    split.
    + apply Forall_forall. intros x Hx.
      destruct (Hfrom x Hx) as (items & _ & Hb).
      destruct (build_fact_trimmed _ x Hb) as (? & ? & _). done.
    + exists text, elems. split; [done|]. split; [by right|]. split; [done|].
      pose proof (well_formed_length elems). lia.
  - cbn [iobind emit snd fst after ret] in Hs. injection Hs as <-.
    split; [constructor|]. exists text, []. split; [done|]. split; [by left|].
    split; [by intros ? []|done].
Qed.

(** X8. The facts [extract_facts] returns are built from the objects of
    the decoded answer, at most one for each element: the topic and the
    text of each are trimmed strings, so that an object whose topic or
    text is not a string gives no fact. *)
Theorem extract_facts_trimmed (json_loads : string -> option pyval)
    (PROMPT : string -> string) (client : option model) (chunk : string)
    (facts : list Fact) :
  snd (extract_facts json_loads PROMPT client chunk) = Ok facts ->
  Forall (fun x => strip (topic x) = topic x /\ strip (fact x) = fact x) facts /\
  exists text elems,
    snd (_gen json_loads client (PROMPT chunk) "fact_extraction") = Ok text /\
    (facts = [] \/ iterate (repair_cascade json_loads text) = Ok elems) /\
    (forall x, In x facts -> exists items, In (PDict items) elems /\
                                           build_fact (PDict items) = Ok x) /\
    (length facts <= length elems)%nat.
Proof. exact (extract_facts_built json_loads PROMPT client chunk facts). Qed.

Lemma extract_facts_trimmed_witness :
  Forall (fun x => strip (topic x) = topic x /\ strip (fact x) = fact x)
    [mk_Fact "Chimie" PNone "L'eau bout" PNone] /\
  exists text elems,
    snd (_gen toy_json (Some facts_model) "chunk" "fact_extraction") = Ok text /\
    ([mk_Fact "Chimie" PNone "L'eau bout" PNone] = [] \/
     iterate (repair_cascade toy_json text) = Ok elems) /\
    (forall x, In x [mk_Fact "Chimie" PNone "L'eau bout" PNone] ->
               exists items, In (PDict items) elems /\
                             build_fact (PDict items) = Ok x) /\
    (length [mk_Fact "Chimie" PNone "L'eau bout" PNone] <= length elems)%nat.
Proof.
  apply (extract_facts_trimmed toy_json (fun chunk => chunk) (Some facts_model)
           "chunk" [mk_Fact "Chimie" PNone "L'eau bout" PNone]).
  reflexivity.
Defined.

(** ** The verifier: the dictionaries of cards *)

Lemma cards_dict_keyed_from (cards : list row) :
  forall d,
    fold_left (fun d r => match card_key r with
                          | Some k => dict_set d k r
                          | None => d
                          end) (filter keyed cards) d
    = fold_left (fun d r => match card_key r with
                            | Some k => dict_set d k r
                            | None => d
                            end) cards d.
Proof.
  induction cards as [|r cards IH]; intros d; [done|].
  cbn [filter fold_left]. unfold keyed at 1.
  destruct (card_key r) as [k|] eqn:E; [|apply IH].
  cbn [fold_left]. rewrite E. apply IH.
Qed.

Lemma cards_dict_keyed (cards : list row) :
  cards_dict (filter keyed cards) = cards_dict cards.
Proof. apply cards_dict_keyed_from. Qed.

(** X9. Rows of fewer than three fields, such as the empty rows the
    reader gives for blank lines, take no part in the reconciliation: the
    report is the one of the decks without them. *)
Theorem reconcile_ignores_short_rows
    (token_sort_ratio partial_ratio : string -> string -> Z)
    (original_cards verified_cards : list row) :
  reconcile token_sort_ratio partial_ratio original_cards verified_cards
  = reconcile token_sort_ratio partial_ratio
      (filter keyed original_cards) (filter keyed verified_cards).
Proof. unfold reconcile. by rewrite !cards_dict_keyed. Qed.

Example reconcile_blank_lines :
  reconcile (always 0) (always 0) [[]; card_a1; ["x"; "y"]] [card_a2; []]
  = reconcile (always 0) (always 0) [card_a1] [card_a2].
Proof. reflexivity. Qed.

Lemma dict_lookup_set (d : list (key * row)) (k k' : key) (r : row) :
  dict_lookup (dict_set d k' r) k
  = if decide (k' = k) then Some r else dict_lookup d k.
Proof.
  induction d as [|[k0 v0] d IH]; cbn [dict_set dict_lookup].
  - done.
  - destruct (decide (k0 = k')) as [->|Hne]; cbn [dict_lookup].
    + by destruct (decide (k' = k)).
    + destruct (decide (k0 = k)) as [->|Hne'].
      * by rewrite decide_False by done.
      * exact IH.
Qed.

Lemma find_snoc {A} (P : A -> bool) (l : list A) (x : A) :
  find P (l ++ [x])
  = match find P l with
    | Some y => Some y
    | None => if P x then Some x else None
    end.
Proof.
  induction l as [|y l IH]; cbn [app find]; [done|].
  by destruct (P y).
Qed.

Lemma cards_dict_last_from (cards : list row) (k : key) :
  forall d,
    dict_lookup (fold_left (fun d r => match card_key r with
                                       | Some k => dict_set d k r
                                       | None => d
                                       end) cards d) k
    = match last_with_key cards k with
      | Some r => Some r
      | None => dict_lookup d k
      end.
Proof.
  unfold last_with_key. induction cards as [|r cards IH]; intros d; [done|].
  cbn [fold_left rev]. rewrite IH, find_snoc.
  destruct (find _ (rev cards)) as [x|]; [done|].
  destruct (card_key r) as [k'|] eqn:E.
  - rewrite dict_lookup_set.
    destruct (decide (k' = k)) as [->|Hne].
    + by rewrite bool_decide_eq_true_2.
    + rewrite bool_decide_eq_false_2; [done|]. congruence.
  - by rewrite bool_decide_eq_false_2.
Qed.

(** X10. When several rows of a deck have the same Topic, Subtopic and
    Question, the dictionary of the verifier keeps the last of them: it
    is the only one the reconciliation compares; and a key is in the
    dictionary exactly when a row of the deck has it. *)
Theorem cards_dict_keeps_last_row (cards : list row) (k : key) :
  dict_lookup (cards_dict cards) k = last_with_key cards k /\
  (dict_lookup (cards_dict cards) k = None <->
   forall r, In r cards -> card_key r <> Some k).
Proof.
  assert (Hl : dict_lookup (cards_dict cards) k = last_with_key cards k).
  { unfold cards_dict. rewrite cards_dict_last_from.
    by destruct (last_with_key cards k). }
  split; [done|]. rewrite Hl. unfold last_with_key. split.
  - intros Hnone r Hr Hk.
    apply in_rev in Hr. pose proof (find_none _ _ Hnone r Hr) as Hf.
    cbv beta in Hf. by rewrite bool_decide_eq_true_2 in Hf.
  - intros Hall. destruct (find _ (rev cards)) as [r|] eqn:E; [|done].
    apply find_some in E as [Hin Hk]. apply bool_decide_eq_true in Hk.
    apply in_rev in Hin. by destruct (Hall r Hin).
Qed.

Example cards_dict_duplicate_key :
  cards_dict [card_a1; card_digits; card_a2]
  = [(("Math", "Algebra", "Q1"), card_a2); (("T", "S", "What is 2+2?"), card_digits)].
Proof. reflexivity. Qed.

(** ** The verifier: what the summary counts *)

Lemma only_in_both_length (a b : list (key * row)) :
  (length (only_in a b) + length (both a b))%nat = length a.
Proof.
  unfold only_in, both. rewrite length_map.
  induction a as [|kv a IH]; [done|]. cbn [filter].
  destruct (dict_lookup b (fst kv)); cbn [length]; lia.
Qed.

(** Every item of the verified dictionary is counted once: rewritten,
    unchanged, or without a partner. *)
Lemma exact_pass_counts (od items : list (key * row)) :
  (length (flat_map (exact_record od) items)
   + length (filter (exact_unchanged od) items))%nat
  = length (both items od).
Proof.
  unfold both. induction items as [|[k v] items IH]; [done|].
  cbn [flat_map filter]. rewrite length_app.
  unfold exact_record at 1, exact_unchanged at 1. cbn [fst snd].
  destruct (dict_lookup od k) as [o|]; [|cbn [length]; lia].
  destruct (diff answer_fields o v); cbn [length]; lia.
Qed.

Lemma both_keys (a b : list (key * row)) (k : key) :
  In k (map fst (both a b)) <-> In k (map fst a) /\ In k (map fst b).
Proof.
  unfold both. rewrite !in_map_iff. split.
  - intros ([k' v] & <- & Hin). apply filter_In in Hin as [Hin Hb]. cbn [fst] in *.
    split; [by exists (k', v)|].
    destruct (dict_lookup b k') as [w|] eqn:E; [|done].
    apply dict_lookup_in in E. by exists (k', w).
  - intros [([k' v] & <- & Hin) Hb]. cbn [fst] in *.
    exists (k', v). split; [done|]. apply filter_In. split; [done|]. cbn [fst].
    destruct (dict_lookup b k') eqn:E; [done|].
    apply dict_lookup_none in E. destruct E. by apply in_map_iff.
Qed.

Lemma both_length (a b : list (key * row)) :
  NoDup (map fst a) -> NoDup (map fst b) ->
  length (both a b) = length (both b a).
Proof.
  intros Ha Hb.
  rewrite <- (length_map fst (both a b)), <- (length_map fst (both b a)).
  apply Permutation_length.
  apply Stdlib.Sorting.Permutation.NoDup_Permutation.
  - by apply NoDup_map_filter.
  - by apply NoDup_map_filter.
  - intros k. rewrite !both_keys. tauto.
Qed.

Lemma reconcile_counts
    (token_sort_ratio partial_ratio : string -> string -> Z)
    (oc vc : list row) :
  six oc -> six vc ->
  exists r,
    reconcile token_sort_ratio partial_ratio oc vc = Ok r /\
    (unchanged r + length (rewritten r) + length (fuzzy r) + length (removed r))%nat
    = length (cards_dict oc) /\
    (unchanged r + length (rewritten r) + length (fuzzy r) + length (added r))%nat
    = length (cards_dict vc).
Proof.
  intros Ho Hv.
  destruct (reconcile_spec token_sort_ratio partial_ratio oc vc Ho Hv)
    as (r & Hr & Hrw & Hun & _ & Hpo & Hpv & _).
  exists r. split; [done|].
  apply Permutation_length in Hpo, Hpv.
  rewrite length_app, length_map in Hpo, Hpv.
  pose proof (exact_pass_counts (cards_dict oc) (cards_dict vc)) as Hex.
  rewrite <- Hrw, <- Hun in Hex.
  pose proof (only_in_both_length (cards_dict oc) (cards_dict vc)) as H1.
  pose proof (only_in_both_length (cards_dict vc) (cards_dict oc)) as H2.
  pose proof (both_length (cards_dict oc) (cards_dict vc)
                (proj1 (cards_dict_wf oc)) (proj1 (cards_dict_wf vc))) as H3.
  lia.
Qed.

(** X11. On decks of six-field rows the numbers of the summary add up:
    the unchanged, the rewritten (the fuzzy ones among them) and the
    removed cards are as many as the keys of the original deck; the
    unchanged, the rewritten and the added cards as many as the keys of
    the verified deck. *)
Theorem summary_counts_every_card
    (token_sort_ratio partial_ratio : string -> string -> Z)
    (original_cards verified_cards : list row) :
  six original_cards -> six verified_cards ->
  exists r,
    reconcile token_sort_ratio partial_ratio original_cards verified_cards = Ok r /\
    (unchanged r + length (rewritten r) + length (fuzzy r) + length (removed r))%nat
    = length (cards_dict original_cards) /\
    (unchanged r + length (rewritten r) + length (fuzzy r) + length (added r))%nat
    = length (cards_dict verified_cards).
Proof.
  exact (reconcile_counts token_sort_ratio partial_ratio original_cards verified_cards).
Qed.

Lemma summary_counts_every_card_witness :
  exists r,
    reconcile (always 90) (always 90) [card_digits; card_a1] [card_words; card_a2]
      = Ok r /\
    (unchanged r + length (rewritten r) + length (fuzzy r) + length (removed r))%nat
    = length (cards_dict [card_digits; card_a1]) /\
    (unchanged r + length (rewritten r) + length (fuzzy r) + length (added r))%nat
    = length (cards_dict [card_words; card_a2]).
Proof.
  apply (summary_counts_every_card (always 90) (always 90)
           [card_digits; card_a1] [card_words; card_a2]);
    repeat constructor.
Defined.

(** ** The verifier: a deck that comes back as it was *)

Lemma diff_same (names : list (nat * string)) (o : row) : diff names o o = [].
Proof.
  unfold diff. induction names as [|n names IH]; [done|].
  cbn [filter]. by rewrite String.eqb_refl.
Qed.

Lemma only_in_self (d : list (key * row)) : only_in d d = [].
Proof.
  unfold only_in.
  assert (H : forall l, (forall kv, In kv l -> In kv d) ->
                        filter (fun kv => match dict_lookup d (fst kv) with
                                          | Some _ => false
                                          | None => true
                                          end) l = []).
  { induction l as [|[k v] l IH]; intros Hl; [done|]. cbn [filter fst].
    destruct (dict_lookup d k) eqn:E.
    - apply IH. intros kv Hkv. apply Hl. by right.
    - apply dict_lookup_none in E. destruct E. apply in_map_iff.
      exists (k, v). split; [done|]. apply Hl. by left. }
  by rewrite H.
Qed.

Lemma exact_self (d : list (key * row)) :
  NoDup (map fst d) ->
  flat_map (exact_record d) d = [] /\ filter (exact_unchanged d) d = d.
Proof.
  intros Hnd.
  assert (H : forall l, (forall kv, In kv l -> In kv d) ->
                        flat_map (exact_record d) l = [] /\
                        filter (exact_unchanged d) l = l).
  { induction l as [|[k v] l IH]; intros Hl; [done|].
    destruct IH as [IH1 IH2]; [intros kv Hkv; apply Hl; by right|].
    cbn [flat_map filter]. unfold exact_record at 1, exact_unchanged at 1.
    cbn [fst snd]. rewrite (dict_in_lookup d k v Hnd) by (apply Hl; by left).
    rewrite diff_same. cbn [app]. by rewrite IH1, IH2. }
  by apply H.
Qed.

Lemma reconcile_same
    (token_sort_ratio partial_ratio : string -> string -> Z) (cards : list row) :
  six cards ->
  reconcile token_sort_ratio partial_ratio cards cards
  = Ok (mk_report [] [] [] [] (length (cards_dict cards))).
Proof.
  intros H6. rewrite (reconcile_six token_sort_ratio partial_ratio cards cards H6 H6).
  rewrite only_in_self.
  destruct (exact_self (cards_dict cards) (proj1 (cards_dict_wf cards))) as [-> ->].
  reflexivity.
Qed.

(** X12. A deck of six-field rows that comes back from the model with
    the same rows is reported as unchanged: nothing removed, added or
    rewritten, every key counted as unchanged, and the log of the
    reconciliation is the summary alone. *)
Theorem unchanged_deck_reports_nothing
    (token_sort_ratio partial_ratio : string -> string -> Z)
    (json_loads : string -> option pyval) (PROMPT : string -> string -> string)
    (client : option model) (full_text csv_text verified : string)
    (cards : list row) :
  six cards ->
  read_cards csv_text = Ok cards ->
  snd (_gen json_loads client (PROMPT full_text csv_text) "default") = Ok verified ->
  read_cards verified = Ok cards ->
  reconcile token_sort_ratio partial_ratio cards cards
    = Ok (mk_report [] [] [] [] (length (cards_dict cards))) /\
  verify_csv token_sort_ratio partial_ratio json_loads PROMPT client full_text csv_text
    = (fst (_gen json_loads client (PROMPT full_text csv_text) "default")
         ++ [EvLog (LogSummary 0 0 0 0 (length (cards_dict cards)))],
       Ok verified).
Proof.
  intros H6 Ho Hg Hv.
  pose proof (reconcile_same token_sort_ratio partial_ratio cards H6) as Hr.
  split; [done|].
  unfold verify_csv. rewrite Ho, (iobind_ok _ _ _ Hg), Hv.
  unfold iobind at 1. unfold lift at 1. cbn [snd fst]. rewrite Hr.
  reflexivity.
Qed.

Lemma unchanged_deck_reports_nothing_witness :
  reconcile (always 0) (always 0) [card_a1; card_digits] [card_a1; card_digits]
    = Ok (mk_report [] [] [] [] (length (cards_dict [card_a1; card_digits]))) /\
  verify_csv (always 0) (always 0) toy_json (fun a b => a +:+ b)
    (Some (answering (deck [card_a1; card_digits]))) "source"
    (deck [card_a1; card_digits])
  = (fst (_gen toy_json (Some (answering (deck [card_a1; card_digits])))
            ("source" +:+ deck [card_a1; card_digits]) "default")
       ++ [EvLog (LogSummary 0 0 0 0 (length (cards_dict [card_a1; card_digits])))],
     Ok (strip (deck [card_a1; card_digits]))).
Proof.
  apply (unchanged_deck_reports_nothing (always 0) (always 0) toy_json
           (fun a b => a +:+ b) (Some (answering (deck [card_a1; card_digits])))
           "source" (deck [card_a1; card_digits])
           (strip (deck [card_a1; card_digits])) [card_a1; card_digits]).
  - repeat constructor.
  - vm_compute. reflexivity.
  - vm_compute. reflexivity.
  - vm_compute. reflexivity.
Defined.

(** ** The verifier: what it returns *)

(** X13. What [verify_csv] returns. A deck the reader refuses is
    returned as it is, with one log record and no call of the model; when
    the answer of the model is refused by the reader, the deck given is
    returned; without a client, a deck that parses raises the missing-key
    error; and when both decks are made of six-field rows, the answer of
    the model is returned, whatever the reconciliation finds. *)
Theorem verify_csv_fail_safe
    (token_sort_ratio partial_ratio : string -> string -> Z)
    (json_loads : string -> option pyval) (PROMPT : string -> string -> string)
    (client : option model) (full_text csv_text : string) :
  (forall e, read_cards csv_text = Raise e ->
     verify_csv token_sort_ratio partial_ratio json_loads PROMPT client
       full_text csv_text
     = ([EvLog (LogCsvParseError true e)], Ok csv_text)) /\
  (forall oc verified e,
     read_cards csv_text = Ok oc ->
     snd (_gen json_loads client (PROMPT full_text csv_text) "default") = Ok verified ->
     read_cards verified = Raise e ->
     snd (verify_csv token_sort_ratio partial_ratio json_loads PROMPT client
            full_text csv_text) = Ok csv_text) /\
  (forall oc,
     read_cards csv_text = Ok oc -> client = None ->
     verify_csv token_sort_ratio partial_ratio json_loads PROMPT client
       full_text csv_text = ([], Raise MissingApiKey)) /\
  (forall oc verified vc,
     read_cards csv_text = Ok oc ->
     snd (_gen json_loads client (PROMPT full_text csv_text) "default") = Ok verified ->
     read_cards verified = Ok vc ->
     six oc -> six vc ->
     snd (verify_csv token_sort_ratio partial_ratio json_loads PROMPT client
            full_text csv_text) = Ok verified).
Proof.
  destruct (verify_csv_returns token_sort_ratio partial_ratio json_loads PROMPT
              client full_text csv_text) as (H1 & H2 & H3).
  split; [done|]. split; [done|]. split; [|done].
  intros oc Ho ->. unfold verify_csv. by rewrite Ho.
Qed.

Lemma verify_csv_fail_safe_witness :
  verify_csv (always 0) (always 0) toy_json (fun a b => a +:+ b)
    (Some (answering (deck [card_a2]))) "source" broken_csv
  = ([EvLog (LogCsvParseError true
               (CsvError "new-line character seen in unquoted field"))],
     Ok broken_csv) /\
  snd (verify_csv (always 0) (always 0) toy_json (fun a b => a +:+ b)
         (Some (answering broken_csv)) "source" (deck [card_a1]))
  = Ok (deck [card_a1]) /\
  verify_csv (always 0) (always 0) toy_json (fun a b => a +:+ b)
    None "source" (deck [card_a1]) = ([], Raise MissingApiKey) /\
  snd (verify_csv (always 0) (always 0) toy_json (fun a b => a +:+ b)
         (Some (answering (deck [card_a2]))) "source" (deck [card_a1]))
  = Ok (strip (deck [card_a2])).
Proof.
  split; [|split; [|split]].
  - apply (verify_csv_fail_safe (always 0) (always 0) toy_json (fun a b => a +:+ b)
             (Some (answering (deck [card_a2]))) "source" broken_csv).
    vm_compute. reflexivity.
  - apply (proj1 (proj2 (verify_csv_fail_safe (always 0) (always 0) toy_json
                           (fun a b => a +:+ b) (Some (answering broken_csv))
                           "source" (deck [card_a1])))
             [card_a1] broken_csv
             (CsvError "new-line character seen in unquoted field"));
      vm_compute; reflexivity.
  - apply (proj1 (proj2 (proj2 (verify_csv_fail_safe (always 0) (always 0) toy_json
                                  (fun a b => a +:+ b) None
                                  "source" (deck [card_a1])))) [card_a1]);
      vm_compute; reflexivity.
  - apply (proj2 (proj2 (proj2 (verify_csv_fail_safe (always 0) (always 0) toy_json
                                  (fun a b => a +:+ b)
                                  (Some (answering (deck [card_a2])))
                                  "source" (deck [card_a1]))))
             [card_a1] (strip (deck [card_a2])) [card_a2]);
      try (vm_compute; reflexivity); repeat constructor.
Defined.
